(** * react-auto-i18ner: a shallow embedding of the text classifier, the key
    registry, the JSX rewrite and the catalog writer.

    Source texts are modelled as [string]s whose characters are UTF-16 code
    units below 256 (the ISO-8859-1 range): every character class the
    program's patterns mention ([a-zA-ZÀ-ÿ], \w, \s, \d) lies in that range,
    and [String.length] is then the JavaScript [length]. *)

From stdpp Require Import gmap strings list.
From Stdlib Require Import ZArith Ascii String Lia.

Local Open Scope string_scope.

(** ** JavaScript strings *)

Module Js.

Definition code (c : ascii) : nat := nat_of_ascii c.

Definition between (lo hi : nat) (c : ascii) : bool :=
  (lo <=? code c)%nat && (code c <=? hi)%nat.

Definition is_char (a c : ascii) : bool := Ascii.eqb a c.

Definition any_of (s : string) (c : ascii) : bool :=
  existsb (is_char c) (list_ascii_of_string s).

Definition none_of (s : string) (c : ascii) : bool := negb (any_of s c).

Definition either (p q : ascii -> bool) (c : ascii) : bool := p c || q c.

(** [\d], [\w], [\s] and [.] of ECMAScript regular expressions. *)
Definition digit : ascii -> bool := between 48 57.
Definition lower_az : ascii -> bool := between 97 122.
Definition upper_AZ : ascii -> bool := between 65 90.
Definition letter : ascii -> bool := either lower_az upper_AZ.
Definition word : ascii -> bool :=
  either letter (either digit (is_char "_")).
Definition space (c : ascii) : bool :=
  between 9 13 c || (code c =? 32)%nat || (code c =? 160)%nat.
Definition dot (c : ascii) : bool :=
  negb ((code c =? 10)%nat || (code c =? 13)%nat).

Definition quote : ascii := ascii_of_nat 34.
Definition apostrophe : ascii := ascii_of_nat 39.
Definition backslash : ascii := ascii_of_nat 92.
Definition newline : ascii := ascii_of_nat 10.
Definition str (c : ascii) : string := String c EmptyString.

(** Literals of this file write a backquote where the program text has a
    double quote. *)
Fixpoint dq (s : string) : string :=
  match s with
  | EmptyString => EmptyString
  | String c r => String (if Ascii.eqb c "`" then quote else c) (dq r)
  end.

(** [String.prototype.toLowerCase] on the ISO-8859-1 range: A-Z and the
    capitals U+00C0..U+00DE (the multiplication sign U+00D7 apart). Above
    that range, which the model leaves out, the lower case of a character
    that is no ASCII letter can be one (U+212A) or begin with one (U+0130);
    what is proved of the keys of texts without ASCII letters is proved of
    texts of the ISO-8859-1 range. *)
Definition lower_char (c : ascii) : ascii :=
  if upper_AZ c || (between 192 222 c && negb (code c =? 215)%nat)
  then ascii_of_nat (code c + 32) else c.

Definition upper_char (c : ascii) : ascii :=
  if lower_az c || (between 224 254 c && negb (code c =? 247)%nat)
  then ascii_of_nat (code c - 32) else c.

Fixpoint toLowerCase (s : string) : string :=
  match s with
  | EmptyString => EmptyString
  | String c r => String (lower_char c) (toLowerCase r)
  end.

Fixpoint trimStart (s : string) : string :=
  match s with
  | String c r => if space c then trimStart r else s
  | EmptyString => EmptyString
  end.

Fixpoint trimEnd (s : string) : string :=
  match s with
  | EmptyString => EmptyString
  | String c r =>
      match trimEnd r with
      | EmptyString => if space c then EmptyString else str c
      | r' => String c r'
      end
  end.

Definition trim (s : string) : string := trimEnd (trimStart s).

Fixpoint startsWith (p s : string) : bool :=
  match p, s with
  | EmptyString, _ => true
  | String a p', String b s' => Ascii.eqb a b && startsWith p' s'
  | String _ _, EmptyString => false
  end.

Fixpoint includes (s needle : string) : bool :=
  startsWith needle s ||
  match s with
  | EmptyString => false
  | String _ r => includes r needle
  end.

Fixpoint take (n : nat) (s : string) : string :=
  match n, s with
  | S k, String c r => String c (take k r)
  | _, _ => EmptyString
  end.

(** [s.substring(0, n)] *)
Definition substring0 (n : nat) (s : string) : string := take n s.

Fixpoint join (sep : string) (l : list string) : string :=
  match l with
  | [] => EmptyString
  | [x] => x
  | x :: r => x +:+ sep +:+ join sep r
  end.

(** [s.split(sep)] for a one-character separator. *)
Fixpoint split_char (sep : ascii) (s : string) : list string :=
  match s with
  | EmptyString => [EmptyString]
  | String c r =>
      if Ascii.eqb c sep then EmptyString :: split_char sep r
      else match split_char sep r with
           | x :: l => String c x :: l
           | [] => [str c]
           end
  end.

End Js.

(** ** Regular expressions

    A backtracking matcher in continuation-passing style, with the priorities
    of ECMAScript: alternatives left to right, greedy repetition, and an
    iteration of a repetition that consumes nothing is abandoned. [Bol] and
    [Eol] are the anchors ^ and $; [EolM] is $ under the m flag. *)

Module Re.

Inductive regex : Type :=
| Eps
| Chr (p : ascii -> bool)
| Seq (a b : regex)
| Alt (a b : regex)
| Star (a : regex)
| Bol
| Eol
| EolM
| WordB
| Group (n : nat) (a : regex).

Definition Plus (a : regex) : regex := Seq a (Star a).
Definition Opt (a : regex) : regex := Alt a Eps.

Fixpoint Lit (s : string) : regex :=
  match s with
  | EmptyString => Eps
  | String c EmptyString => Chr (Js.is_char c)
  | String c r => Seq (Chr (Js.is_char c)) (Lit r)
  end.

Fixpoint Alts (l : list regex) : regex :=
  match l with
  | [] => Eps
  | [a] => a
  | a :: r => Alt a (Alts r)
  end.

Fixpoint Times (n : nat) (a : regex) : regex :=
  match n with
  | O => Eps
  | S k => Seq a (Times k a)
  end.

Fixpoint UpTo (n : nat) (a : regex) : regex :=
  match n with
  | O => Eps
  | S k => Opt (Seq a (UpTo k a))
  end.

(** [a{m,n}] *)
Definition Rep (m n : nat) (a : regex) : regex :=
  Seq (Times m a) (UpTo (n - m) a).

(** The [i] flag: a character class also accepts the other case of what it
    accepts. *)
Fixpoint NoCase (r : regex) : regex :=
  match r with
  | Chr p => Chr (fun c => p c || p (Js.lower_char c) || p (Js.upper_char c))
  | Seq a b => Seq (NoCase a) (NoCase b)
  | Alt a b => Alt (NoCase a) (NoCase b)
  | Star a => Star (NoCase a)
  | Group n a => Group n (NoCase a)
  | Eps => Eps
  | Bol => Bol
  | Eol => Eol
  | EolM => EolM
  | WordB => WordB
  end.

(** The position of the matcher: the character before it (none at the start
    of the input), the input that is left, and the groups captured so far. *)
Record pos : Type := mkPos {
  before : option ascii;
  rest : string;
  groups : list (nat * string)
}.

Definition is_word (o : option ascii) : bool :=
  match o with Some c => Js.word c | None => false end.

Definition next (s : string) : option ascii :=
  match s with String c _ => Some c | EmptyString => None end.

Definition consumed (p q : pos) : string :=
  Js.take (String.length (rest p) - String.length (rest q)) (rest p).

(** The iterations of a greedy repetition: one more turn of [step] if it
    consumes something and the rest of the match follows, else the rest of
    the match from here. *)
Fixpoint star_loop {R : Type} (step : pos -> (pos -> option R) -> option R)
    (k : pos -> option R) (fuel : nat) (p : pos) : option R :=
  match fuel with
  | O => k p
  | S fuel' =>
      match step p (fun q =>
               if (String.length (rest q) <? String.length (rest p))%nat
               then star_loop step k fuel' q else None) with
      | Some x => Some x
      | None => k p
      end
  end.

Fixpoint run {R : Type} (r : regex) (p : pos) (k : pos -> option R) : option R :=
  match r with
  | Eps => k p
  | Chr f =>
      match rest p with
      | String c s => if f c then k (mkPos (Some c) s (groups p)) else None
      | EmptyString => None
      end
  | Seq a b => run a p (fun q => run b q k)
  | Alt a b =>
      match run a p k with
      | Some x => Some x
      | None => run b p k
      end
  | Star a => star_loop (run a) k (S (String.length (rest p))) p
  | Bol => match before p with None => k p | Some _ => None end
  | Eol => match rest p with EmptyString => k p | String _ _ => None end
  | EolM =>
      match rest p with
      | EmptyString => k p
      | String c _ => if Js.dot c then None else k p
      end
  | WordB => if xorb (is_word (before p)) (is_word (next (rest p))) then k p else None
  | Group n a =>
      run a p (fun q => k (mkPos (before q) (rest q) ((n, consumed p q) :: groups q)))
  end.

(** A match anchored at a position: the position after it. *)
Definition match_at (r : regex) (b : option ascii) (s : string) : option pos :=
  run r (mkPos b s []) Some.

(** Group [n] of a match ([undefined] is read as the empty string). *)
Fixpoint group (n : nat) (g : list (nat * string)) : string :=
  match g with
  | [] => EmptyString
  | (m, s) :: g' => if (m =? n)%nat then s else group n g'
  end.

(** [r.exec(s)] for the leftmost match: text before it, the matched text, the
    position after it. *)
Fixpoint exec_from (r : regex) (b : option ascii) (s : string) (skipped : string)
  : option (string * string * pos) :=
  match match_at r b s with
  | Some q => Some (skipped, consumed (mkPos b s []) q, q)
  | None =>
      match s with
      | EmptyString => None
      | String c s' => exec_from r (Some c) s' (skipped +:+ Js.str c)
      end
  end.

Definition exec (r : regex) (s : string) : option (string * string * pos) :=
  exec_from r None s EmptyString.

(** The successive matches of a global [r], as a loop over [r.exec(s)] sees
    them: for each the text before it (from the start of [s]), the matched
    text and the groups. The patterns of this program match no empty text;
    after an empty match the scan moves on by one character. *)
Fixpoint matches_loop (fuel : nat) (r : regex) (b : option ascii) (s : string)
    (skipped : string) : list (string * string * list (nat * string)) :=
  match fuel with
  | O => []
  | S fuel' =>
      match match_at r b s with
      | Some q =>
          let m := consumed (mkPos b s []) q in
          match m, s with
          | EmptyString, EmptyString => [(skipped, m, groups q)]
          | EmptyString, String c s' =>
              (skipped, m, groups q)
                :: matches_loop fuel' r (Some c) s' (skipped +:+ Js.str c)
          | _, _ =>
              (skipped, m, groups q)
                :: matches_loop fuel' r (before q) (rest q) (skipped +:+ m)
          end
      | None =>
          match s with
          | EmptyString => []
          | String c s' => matches_loop fuel' r (Some c) s' (skipped +:+ Js.str c)
          end
      end
  end.

Definition matches (r : regex) (s : string)
  : list (string * string * list (nat * string)) :=
  matches_loop (S (String.length s)) r None s EmptyString.

(** [r.test(s)] *)
Definition test (r : regex) (s : string) : bool :=
  match exec r s with Some _ => true | None => false end.

(** [s.replace(r, f)] for a global [r] and a callback [f] that reads and
    updates a state: [f st m g] is given the matched text [m] and the groups
    [g]. After an empty match the scan moves on by one character. *)
Fixpoint replace_loop {St : Type} (fuel : nat) (r : regex)
    (f : St -> string -> list (nat * string) -> St * string)
    (b : option ascii) (s : string) (st : St) : St * string :=
  match fuel with
  | O => (st, s)
  | S fuel' =>
      match match_at r b s with
      | Some q =>
          let m := consumed (mkPos b s []) q in
          let '(st1, out) := f st m (groups q) in
          match m, s with
          | EmptyString, String c s' =>
              let '(st2, tail) := replace_loop fuel' r f (Some c) s' st1 in
              (st2, out +:+ String c tail)
          | EmptyString, EmptyString => (st1, out)
          | _, _ =>
              let '(st2, tail) := replace_loop fuel' r f (before q) (rest q) st1 in
              (st2, out +:+ tail)
          end
      | None =>
          match s with
          | EmptyString => (st, EmptyString)
          | String c s' =>
              let '(st2, tail) := replace_loop fuel' r f (Some c) s' st in
              (st2, String c tail)
          end
      end
  end.

Definition replace_with {St : Type} (r : regex)
    (f : St -> string -> list (nat * string) -> St * string)
    (s : string) (st : St) : St * string :=
  replace_loop (S (String.length s)) r f None s st.

(** [s.replace(r, text)] for a global [r] and a replacement text without
    [$] patterns. *)
Definition replace_all (r : regex) (text : string) (s : string) : string :=
  snd (replace_with r (fun (u : unit) _ _ => (u, text)) s tt).

(** [s.replace(r, f)] for a pattern without the [g] flag: the leftmost match
    only. *)
Definition replace_first (r : regex) (f : string -> list (nat * string) -> string)
    (s : string) : string :=
  match exec r s with
  | Some (pre, m, q) => pre +:+ f m (groups q) +:+ rest q
  | None => s
  end.

(** [s.split(r)] (no limit, no capture groups in [r]): [cur] is the piece
    being read since the last separator; an empty match right after a
    separator does not split. *)
Fixpoint split_loop (fuel : nat) (r : regex) (b : option ascii) (s : string)
    (cur : string) : list string :=
  match fuel with
  | O => [cur +:+ s]
  | S fuel' =>
      match s with
      | EmptyString => [cur]
      | String c s' =>
          match match_at r b s with
          | Some q =>
              if (String.length (rest q) <? String.length s)%nat
              then cur :: split_loop fuel' r (before q) (rest q) EmptyString
              else match cur with
                   | EmptyString => split_loop fuel' r (Some c) s' (Js.str c)
                   | _ => cur :: split_loop fuel' r (Some c) s' (Js.str c)
                   end
          | None => split_loop fuel' r (Some c) s' (cur +:+ Js.str c)
          end
      end
  end.

Definition split (r : regex) (s : string) : list string :=
  match s with
  | EmptyString =>
      match match_at r None s with Some _ => [] | None => [EmptyString] end
  | _ => split_loop (S (String.length s)) r None s EmptyString
  end.

End Re.

(** ** Configuration (types/index.ts, core/ConfigManager.ts) *)

Module Config.

Inductive Severity := error | warning | info.

Record ValidationRule := mkRule {
  name : string;
  pattern : Re.regex;
  description : string;
  severity : Severity
}.

Inductive KeyStrategy := text | hash | path | custom.

(** A custom skip pattern is kept as [new RegExp(pattern)] leaves it: the
    compiled expression, or [None] when the constructor throws. *)
Record Validation := mkValidation {
  minLength : nat;
  maxLength : nat;
  skipTechnicalTerms : bool;
  skipCodeFragments : bool;
  skipNumbers : bool;
  skipPaths : bool;
  customSkipPatterns : list (option Re.regex)
}.

Record Transformation := mkTransformation {
  extractJSXText : bool;
  extractAttributes : bool
}.

Record Components := mkComponents {
  addUseTranslationHook : bool;
  supportClassComponents : bool;
  customHookImport : string
}.

Record Format := mkFormat {
  sortKeys : bool;
  keyStrategy : KeyStrategy
}.

Record Advanced := mkAdvanced {
  generateTypeDefinitions : bool;
  createBackup : bool
}.

Record I18nConfig := mkConfig {
  outputDir : string;
  sourceLanguage : string;
  targetLanguages : list string;
  transformation : Transformation;
  components : Components;
  validation : Validation;
  format : Format;
  advanced : Advanced
}.

End Config.
Export Config.

Module ConfigManager.
Import Re.

Definition getDefaultConfig : I18nConfig :=
  {| outputDir := "./src/locales";
     sourceLanguage := "en";
     targetLanguages := ["es"; "fr"; "de"; "pt"];
     transformation := {| extractJSXText := true; extractAttributes := true |};
     components := {| addUseTranslationHook := true;
                      supportClassComponents := true;
                      customHookImport := "react-i18next" |};
     validation := {| minLength := 2;
                      maxLength := 500;
                      skipTechnicalTerms := true;
                      skipCodeFragments := true;
                      skipNumbers := true;
                      skipPaths := true;
                      customSkipPatterns := [] |};
     format := {| sortKeys := true; keyStrategy := text |};
     advanced := {| generateTypeDefinitions := true; createBackup := true |} |}.

Definition ws : regex := Star (Chr Js.space).

Definition keywords : list string :=
  ["import"; "export"; "const"; "let"; "var"; "function"; "class"; "return";
   "if"; "else"; "for"; "while"; "switch"; "case"; "break"; "continue"; "try";
   "catch"; "finally"; "throw"; "async"; "await"; "typeof"; "instanceof"].

Definition getDefaultValidationRules : list ValidationRule :=
  [ (* /'\s*\+\s*|'\s*\+\s*'/ *)
    mkRule "template-literal"
      (Alt (Seq (Lit "'") (Seq ws (Seq (Lit "+") ws)))
           (Seq (Lit "'") (Seq ws (Seq (Lit "+") (Seq ws (Lit "'"))))))
      "Template literal fragments" error;
    (* /\?\s*\(|\)\s*:/ *)
    mkRule "conditional-expression"
      (Alt (Seq (Lit "?") (Seq ws (Lit "("))) (Seq (Lit ")") (Seq ws (Lit ":"))))
      "Conditional expressions" error;
    (* /\{|\}|<|>/ *)
    mkRule "jsx-expression"
      (Alts [Lit "{"; Lit "}"; Lit "<"; Lit ">"])
      "JSX expressions or HTML tags" error;
    (* /\b(import|export|...|instanceof)\b/ *)
    mkRule "code-keywords"
      (Seq WordB (Seq (Group 1 (Alts (map Lit keywords))) WordB))
      "JavaScript/TypeScript keywords" error;
    (* /^\d+(px|em|rem|vh|vw|%|deg|s|ms)$/i *)
    mkRule "css-units"
      (NoCase (Seq Bol (Seq (Plus (Chr Js.digit))
         (Seq (Group 1 (Alts (map Lit ["px"; "em"; "rem"; "vh"; "vw"; "%"; "deg"; "s"; "ms"])))
              Eol))))
      "CSS units" warning;
    (* /^(h-|w-|px-|...|hidden)/ *)
    mkRule "css-classes"
      (Seq Bol (Group 1 (Alts (map Lit
         ["h-"; "w-"; "px-"; "py-"; "mx-"; "my-"; "bg-"; "text-"; "border-";
          "rounded-"; "flex"; "grid"; "block"; "inline"; "hidden"]))))
      "CSS class names" warning;
    (* /^#[0-9a-fA-F]{3,8}$/ *)
    mkRule "hex-colors"
      (Seq Bol (Seq (Lit "#")
         (Seq (Rep 3 8 (Chr (Js.either Js.digit
                 (Js.either (Js.between 97 102) (Js.between 65 70))))) Eol)))
      "Hex color codes" info;
    (* /^https?:\/\/|^www\.|^\/[\/\w.-]+/ *)
    mkRule "urls"
      (Alts [Seq Bol (Seq (Lit "http") (Seq (Opt (Lit "s")) (Lit "://")));
             Seq Bol (Lit "www.");
             Seq Bol (Seq (Lit "/")
               (Plus (Chr (Js.either Js.word (Js.any_of "/.-")))))])
      "URLs and file paths" info ].

Definition getDefaultTechnicalTerms : list string :=
  ["true"; "false"; "null"; "undefined"; "NaN"; "auto"; "none"; "inherit";
   "initial"; "unset"; "block"; "inline"; "flex"; "grid"; "center"; "left";
   "right"; "top"; "bottom"; "submit"; "button"; "text"; "email"; "password";
   "loading"; "error"; "success"; "warning"; "info"; "debug"; "GET"; "POST";
   "PUT"; "DELETE"; "PATCH"; "HEAD"; "OPTIONS"; "React"; "Component";
   "useState"; "useEffect"; "useCallback"; "useMemo"; "JSX"; "HTML"; "CSS";
   "JavaScript"; "TypeScript"; "JSON"; "XML"; "API"; "HTTP"; "HTTPS"; "URL";
   "URI"; "DOM"; "BOM"].

(* /^[a-z]{2}(-[A-Z]{2})?$/ *)
Definition validLanguagePattern : regex :=
  Seq Bol (Seq (Times 2 (Chr Js.lower_az))
    (Seq (Opt (Group 1 (Seq (Lit "-") (Times 2 (Chr Js.upper_AZ))))) Eol)).

(** [!s] for a string. *)
Definition isEmpty (s : string) : bool :=
  match s with EmptyString => true | String _ _ => false end.

(** [validateConfig]: the verdict and the errors. [srcDir] is the field of
    that name of the configuration, which [I18nConfig] leaves out here, and
    [existsSync] is [fs.existsSync]. *)
Definition validateConfig (existsSync : string -> bool) (srcDir : string)
    (config : I18nConfig) : bool * list string :=
  let errors :=
    ((if isEmpty srcDir then ["srcDir is required"] else [])
     ++ (if isEmpty (outputDir config) then ["outputDir is required"] else [])
     ++ (if isEmpty (sourceLanguage config) then ["sourceLanguage is required"] else [])
     ++ (match targetLanguages config with
         | [] => ["At least one target language is required"]
         | _ :: _ => []
         end)
     ++ (if negb (isEmpty srcDir) && negb (existsSync srcDir)
         then ["Source directory does not exist: " +:+ srcDir] else [])
     ++ (if negb (isEmpty (sourceLanguage config))
            && negb (test validLanguagePattern (sourceLanguage config))
         then ["Invalid source language code: " +:+ sourceLanguage config] else [])
     ++ List.flat_map
          (fun lang => if negb (test validLanguagePattern lang)
                       then ["Invalid target language code: " +:+ lang] else [])
          (targetLanguages config))%list in
  (match errors with [] => true | _ :: _ => false end, errors).

End ConfigManager.

(** ** The fragment classifier and the key names (utils/TextValidator.ts) *)

Module TextValidator.
Import Re.

Definition validationRules : list ValidationRule :=
  ConfigManager.getDefaultValidationRules.

(** [new Set(defaults.technicalTerms).has(s)] *)
Definition technicalTerms_has (s : string) : bool :=
  existsb (String.eqb s) ConfigManager.getDefaultTechnicalTerms.

Definition severity_is_error (s : Severity) : bool :=
  match s with error => true | _ => false end.

(* /^\d+(\.\d+)?$/ *)
Definition numberPattern : regex :=
  Seq Bol (Seq (Plus (Chr Js.digit))
    (Seq (Opt (Group 1 (Seq (Lit ".") (Plus (Chr Js.digit))))) Eol)).

Definition isPath (text : string) : bool :=
  (* /^[.\/]/  and  /^[a-zA-Z]:\\/ *)
  if test (Seq Bol (Chr (Js.any_of "./"))) text
     || test (Seq Bol (Seq (Chr Js.letter) (Seq (Lit ":") (Chr (Js.is_char Js.backslash))))) text
  then true
  (* /^https?:\/\//  and  /^www\./ *)
  else if test (Seq Bol (Seq (Lit "http") (Seq (Opt (Lit "s")) (Lit "://")))) text
     || test (Seq Bol (Lit "www.")) text
  then true
  else if Js.includes text "/" && negb (Js.includes text " ") then true
  (* /\.[a-zA-Z]{2,4}$/ *)
  else if test (Seq (Lit ".") (Seq (Rep 2 4 (Chr Js.letter)) Eol)) text then true
  else false.

(* /[a-zA-ZÀ-ÿ]/ *)
Definition letterPattern : regex :=
  Chr (Js.either Js.letter (Js.between 192 255)).

(* /^[^\w\s]+$/ *)
Definition symbolsPattern : regex :=
  Seq Bol (Seq (Plus (Chr (fun c => negb (Js.word c || Js.space c)))) Eol).

(** The verdict of [isValidTranslationText] together with the reason handed
    to [recordSkip] when the text is refused. *)
Definition classify (config : I18nConfig) (text : string) : option string :=
  let v := validation config in
  match text with
  | EmptyString => Some "empty-or-invalid"
  | _ =>
    let cleanText := Js.trim text in
    if (String.length cleanText <? minLength v)%nat then Some "too-short"
    else if (maxLength v <? String.length cleanText)%nat then Some "too-long"
    else if skipTechnicalTerms v && technicalTerms_has (Js.toLowerCase cleanText)
    then Some "technical-term"
    else if skipNumbers v && test numberPattern cleanText then Some "number"
    else if skipPaths v && isPath cleanText then Some "path"
    else
      match (if skipCodeFragments v
             then find (fun rule => severity_is_error (severity rule)
                                    && test (pattern rule) cleanText)
                       validationRules
             else None) with
      | Some rule => Some ("rule-" +:+ name rule)
      | None =>
        if existsb (fun p => match p with
                             | Some regex => test regex cleanText
                             | None => false
                             end) (customSkipPatterns v)
        then Some "custom-pattern"
        else if negb (test letterPattern cleanText) then Some "no-letters"
        else if test symbolsPattern cleanText then Some "symbols-only"
        else None
      end
  end.

Definition isValidTranslationText (config : I18nConfig) (text : string) : bool :=
  match classify config text with
  | None => true
  | Some _ => false
  end.

(** *** The skip statistics *)

(** The fields [skippedCount] and [reasons] of a validator. *)
Record SkipStats := mkSkipStats {
  skippedCount : nat;
  reasons : list (string * nat)
}.

(** [Map.prototype.get] and [Map.prototype.set] on [reasons]. *)
Fixpoint reasons_get (reason : string) (m : list (string * nat)) : option nat :=
  match m with
  | [] => None
  | (r, n) :: m' => if String.eqb reason r then Some n else reasons_get reason m'
  end.

Fixpoint reasons_set (reason : string) (n : nat) (m : list (string * nat))
  : list (string * nat) :=
  match m with
  | [] => [(reason, n)]
  | (r, n') :: m' =>
      if String.eqb reason r then (reason, n) :: m' else (r, n') :: reasons_set reason n m'
  end.

Definition recordSkip (reason : string) (st : SkipStats) : SkipStats :=
  mkSkipStats (S (skippedCount st))
    (reasons_set reason
       (match reasons_get reason (reasons st) with Some n => n | None => 0 end + 1)
       (reasons st)).

(** [getSkipStats]: the total and a copy of the reasons. *)
Definition getSkipStats (st : SkipStats) : nat * list (string * nat) :=
  (skippedCount st, reasons st).

Definition resetStats : SkipStats := mkSkipStats 0 [].

(** [isValidTranslationText] with what it does to the statistics. *)
Definition isValidTranslationText_recording (config : I18nConfig) (text : string)
    (st : SkipStats) : bool * SkipStats :=
  match classify config text with
  | None => (true, st)
  | Some reason => (false, recordSkip reason st)
  end.

(** *** Details of a verdict *)

Record ValidationDetails := mkDetails {
  vd_valid : bool;
  vd_warnings : list string;
  vd_errors : list string;
  vd_suggestions : list string
}.

Definition severity_is_warning (s : Severity) : bool :=
  match s with warning => true | _ => false end.

(* /^[A-Z_]+$/ *)
Definition constantPattern : regex :=
  Seq Bol (Seq (Plus (Chr (Js.either Js.upper_AZ (Js.is_char "_")))) Eol).

Definition validateWithDetails (config : I18nConfig) (text : string) (st : SkipStats)
  : ValidationDetails * SkipStats :=
  let '(valid, st) := isValidTranslationText_recording config text st in
  if negb valid then (mkDetails false [] ["Text failed basic validation"] [], st)
  else
    let cleanText := Js.trim text in
    let warnings :=
      map (fun rule => description rule +:+ ": " +:+ name rule)
        (List.filter (fun rule => severity_is_warning (severity rule)
                             && test (pattern rule) cleanText)
                validationRules) in
    let suggestions :=
      ((if (String.length cleanText <? 5)%nat
        then ["Consider if this short text needs translation"] else [])
       ++ (if test constantPattern cleanText
           then ["This looks like a constant - consider if it should be translated"]
           else [])
       ++ (if Js.includes cleanText "TODO" || Js.includes cleanText "FIXME"
           then ["Contains development notes - may not need translation"]
           else []))%list in
    (mkDetails true warnings [] suggestions, st).

(** *** Code fragments *)

Definition codePatterns : list regex :=
  let ws := Star (Chr Js.space) in
  let w := Plus (Chr Js.word) in
  [ (* /'\s*\+\s*|\s*\+\s*'/ *)
    Alt (Seq (Lit "'") (Seq ws (Seq (Lit "+") ws)))
        (Seq ws (Seq (Lit "+") (Seq ws (Lit "'"))));
    (* /\?\s*\(|\)\s*:|&&|\|\|/ *)
    Alts [Seq (Lit "?") (Seq ws (Lit "(")); Seq (Lit ")") (Seq ws (Lit ":"));
          Lit "&&"; Lit "||"];
    (* /\.\w+\(|\.\w+\[|\[\w+\]/ *)
    Alts [Seq (Lit ".") (Seq w (Lit "(")); Seq (Lit ".") (Seq w (Lit "["));
          Seq (Lit "[") (Seq w (Lit "]"))];
    (* /React\.|useState|useEffect|className|onClick|onChange/ *)
    Alts (map Lit ["React."; "useState"; "useEffect"; "className"; "onClick"; "onChange"]);
    (* /React\.ReactElement|FieldPath|VariantProps/ *)
    Alts (map Lit ["React.ReactElement"; "FieldPath"; "VariantProps"]);
    (* /this\.|\.x|\.y/ *)
    Alts (map Lit ["this."; ".x"; ".y"]);
    (* /\{|\}|\[|\]|import |export |const |let |function|=>/ *)
    Alts (map Lit ["{"; "}"; "["; "]"; "import "; "export "; "const "; "let ";
                   "function"; "=>"]);
    (* /<|>/ *)
    Alts [Lit "<"; Lit ">"];
    (* /\r|\n|\t/ *)
    Alts [Chr (fun c => (Js.code c =? 13)%nat); Chr (fun c => (Js.code c =? 10)%nat);
          Chr (fun c => (Js.code c =? 9)%nat)] ].

Definition isCodeFragment (text : string) : bool :=
  existsb (fun pattern => test pattern text) codePatterns.

(** *** Key derivation *)

Local Open Scope Z_scope.

Definition toInt32 (z : Z) : Z :=
  let m := z mod 2 ^ 32 in
  if 2 ^ 31 <=? m then m - 2 ^ 32 else m.

(** One turn of the loop of [createHash]:
    [hash = (hash << 5) - hash + char; hash = hash & hash]. *)
Definition hash_step (hash : Z) (c : ascii) : Z :=
  let hash := toInt32 (Z.shiftl (toInt32 hash) 5) - hash + Z.of_nat (Js.code c) in
  Z.land (toInt32 hash) (toInt32 hash).

Definition digit36 (d : Z) : ascii :=
  if d <? 10 then ascii_of_nat (48 + Z.to_nat d)
  else ascii_of_nat (87 + Z.to_nat d).

Fixpoint toString36_loop (fuel : nat) (n : Z) (acc : string) : string :=
  match fuel with
  | O => acc
  | S fuel' =>
      let acc := String (digit36 (n mod 36)) acc in
      if n / 36 =? 0 then acc else toString36_loop fuel' (n / 36) acc
  end.

(** [n.toString(36)] for an integer [n >= 0]. *)
Definition toString36 (n : Z) : string :=
  toString36_loop (S (Z.to_nat (Z.log2 n))) n EmptyString.

Definition createHash (text : string) : string :=
  let hash := fold_left hash_step (list_ascii_of_string text) 0 in
  ("text_" +:+ toString36 (Z.abs hash))%string.

Definition createPathBasedKey (text : string) : string :=
  Js.substring0 50
    (replace_all (Plus (Chr Js.space)) "_"
       (Js.trim
          (replace_all
             (Chr (fun c => negb (Js.lower_az c || Js.digit c || Js.space c)))
             "" (Js.toLowerCase text)))).

Definition createCustomKey (text : string) : string :=
  let words := firstn 3 (split (Plus (Chr Js.space)) text) in
  Js.join "_"
    (filter (fun word => (0 <? String.length word)%nat)
       (map (fun word =>
               replace_all (Chr (fun c => negb (Js.lower_az c))) ""
                 (Js.toLowerCase word))
            words)).

Definition suggestKeyName (text : string) (strategy : KeyStrategy) : string :=
  let cleanText := Js.trim text in
  match strategy with
  | hash => createHash cleanText
  | path => createPathBasedKey cleanText
  | custom => createCustomKey cleanText
  | text => cleanText
  end.

End TextValidator.

(** ** Insertion-ordered string maps

    A [Map<string, string>] keeps its entries in insertion order; setting an
    existing key replaces its value in place. Every string is a key like any
    other. *)

Module Assoc.

Definition t : Type := list (string * string).

Fixpoint get (k : string) (m : t) : option string :=
  match m with
  | [] => None
  | (k', v) :: r => if String.eqb k k' then Some v else get k r
  end.

Definition has (k : string) (m : t) : bool :=
  match get k m with Some _ => true | None => false end.

Fixpoint set (k v : string) (m : t) : t :=
  match m with
  | [] => [(k, v)]
  | (k', v') :: r =>
      if String.eqb k k' then (k, v) :: r else (k', v') :: set k v r
  end.

Definition keys (m : t) : list string := map fst m.
Definition values (m : t) : list string := map snd m.

End Assoc.

(** ** Plain objects

    A catalog is a plain object, [{}] or what [JSON.parse] gives for an
    object, whose values are texts as its type [Record<string, string>]
    says: the list of its own properties in the order in which [Object.keys],
    [Object.entries] and [JSON.stringify] go through them, array indices
    first in ascending order, then the other names in the order of their
    creation. Its prototype is [Object.prototype], whose members it
    inherits. *)

Module Obj.

Definition t : Type := list (string * string).

(** The property names of [Object.prototype]. *)
Definition prototypeNames : list string :=
  ["constructor"; "__defineGetter__"; "__defineSetter__"; "hasOwnProperty";
   "__lookupGetter__"; "__lookupSetter__"; "isPrototypeOf";
   "propertyIsEnumerable"; "toString"; "valueOf"; "__proto__";
   "toLocaleString"].

Definition inherited (k : string) : bool := existsb (String.eqb k) prototypeNames.

(** The value of the own property [k]. *)
Definition own (k : string) (o : t) : option string := Assoc.get k o.

(** Is [o[k]] truthy: an own text is when it is not empty; a member of the
    prototype (a function, or the prototype itself for [__proto__]) is;
    [undefined] is not. *)
Definition truthy (k : string) (o : t) : bool :=
  match own k o with
  | Some v => negb (String.eqb v EmptyString)
  | None => inherited k
  end.

Fixpoint number (s : string) (acc : N) : option N :=
  match s with
  | EmptyString => Some acc
  | String c r =>
      if Js.digit c then number r (acc * 10 + N.of_nat (Js.code c - 48))%N
      else None
  end.

(** The array index that [k] names: the decimal numeral, without a leading
    zero, of an integer up to 2^32 - 2. *)
Definition arrayIndex (k : string) : option N :=
  match k with
  | EmptyString => None
  | String c r =>
      if Ascii.eqb c "0" && negb (String.eqb r EmptyString) then None
      else match number k 0 with
           | Some n => if (n <=? 4294967294)%N then Some n else None
           | None => None
           end
  end.

(** A new property whose name is the array index [n] comes after the
    smaller indices and before everything else. *)
Fixpoint insert_index (n : N) (k v : string) (o : t) : t :=
  match o with
  | [] => [(k, v)]
  | (k', v') :: r =>
      match arrayIndex k' with
      | Some m => if (m <? n)%N then (k', v') :: insert_index n k v r
                  else (k, v) :: o
      | None => (k, v) :: o
      end
  end.

(** [o[k] = v] for a text [v]: an own property is overwritten where it is;
    without an own property of that name, [__proto__] is the setter of
    [Object.prototype], which ignores a value that is neither an object nor
    null, and any other name becomes a new own property. *)
Definition set (k v : string) (o : t) : t :=
  match own k o with
  | Some _ => Assoc.set k v o
  | None =>
      if String.eqb k "__proto__" then o
      else match arrayIndex k with
           | Some n => insert_index n k v o
           | None => (o ++ [(k, v)])%list
           end
  end.

(** [Object.keys(o)] *)
Definition keys (o : t) : list string := map fst o.

End Obj.

(** What [fs.readJson] gives for a catalog file and what [fs.writeJson] is
    given: [null], or an object whose values are texts. Files that hold
    another JSON value (a number, a string, an array, an object with values
    that are not texts) are outside the model. *)
Inductive Json : Type :=
| JNull
| JObject (o : Obj.t).

(** ** Exceptions and the mutable fields of a transformer

    A computation reads and updates a state and either returns or throws;
    what it wrote before throwing stays written, as for the fields of [this]
    and for the files on disk. *)

Module Exn.

Inductive Outcome (A : Type) : Type :=
| Return (a : A)
| Throw (message : string).
Arguments Return {A} a.
Arguments Throw {A} message.

Definition M (St A : Type) : Type := St -> Outcome A * St.

Definition ret {St A : Type} (a : A) : M St A := fun s => (Return a, s).

Definition throw {St A : Type} (e : string) : M St A := fun s => (Throw e, s).

Definition bind {St A B : Type} (m : M St A) (f : A -> M St B) : M St B :=
  fun s =>
    match m s with
    | (Return a, s') => f a s'
    | (Throw e, s') => (Throw e, s')
    end.

(** [try { m } catch (error) { handler(error.message) }] *)
Definition try_catch {St A : Type} (m : M St A) (handler : string -> M St A) : M St A :=
  fun s =>
    match m s with
    | (Return a, s') => (Return a, s')
    | (Throw e, s') => handler e s'
    end.

Definition get {St : Type} : M St St := fun s => (Return s, s).

Definition modify {St : Type} (f : St -> St) : M St unit := fun s => (Return tt, f s).

Definition when {St : Type} (b : bool) (m : M St unit) : M St unit :=
  if b then m else ret tt.

(** [for (const x of l) { await f(x) }] *)
Fixpoint forEach {St A : Type} (l : list A) (f : A -> M St unit) : M St unit :=
  match l with
  | [] => ret tt
  | x :: r => bind (f x) (fun _ => forEach r f)
  end.

End Exn.

Notation "'let*' x ':=' m 'in' k" := (Exn.bind m (fun x => k))
  (at level 10, x name, m at level 100, k at level 200).

(** ** Records of types/index.ts *)

Record TransformationStats := mkStats {
  filesProcessed : nat;
  textsTransformed : nat;
  importsAdded : nat;
  hooksAdded : nat;
  buttonsFixed : nat;
  attributesTransformed : nat;
  codeFragmentsFiltered : nat;
  duplicatesFound : nat;
  errors : list string;
  warnings : list string
}.

Definition resetStats : TransformationStats :=
  mkStats 0 0 0 0 0 0 0 0 [] [].

Inductive ComponentType := function | arrow | class | forwardRef.

Record ComponentInfo := mkComponentInfo {
  ci_name : string;
  ci_type : ComponentType;
  ci_filePath : string;
  hasUseTranslation : bool;
  needsTranslation : bool
}.

Inductive ExtractionType :=
| jsx_text | attribute | button | aria_label | placeholder | title.

Record TextExtraction := mkExtraction {
  te_text : string;
  te_key : string;
  te_type : ExtractionType;
  te_filePath : string;
  te_line : nat;
  te_column : nat
}.

Record TransformationResult := mkResult {
  success : bool;
  stats : TransformationStats;
  res_translationKeys : Assoc.t;
  modifiedFiles : list string;
  backupPath : option string
}.

(** The fields of a transformer instance, and the world it runs in. *)
Record This (W : Type) := mkThis {
  translationKeys : Assoc.t;
  this_stats : TransformationStats;
  extractedTexts : list TextExtraction;
  componentInfo : list ComponentInfo;
  world : W
}.
Arguments mkThis {W}.
Arguments translationKeys {W}.
Arguments this_stats {W}.
Arguments extractedTexts {W}.
Arguments componentInfo {W}.
Arguments world {W}.

Section Fields.
Context {W : Type}.

Definition set_keys (k : Assoc.t) (s : This W) : This W :=
  mkThis k (this_stats s) (extractedTexts s) (componentInfo s) (world s).

Definition set_stats (f : TransformationStats -> TransformationStats) (s : This W) : This W :=
  mkThis (translationKeys s) (f (this_stats s)) (extractedTexts s) (componentInfo s) (world s).

Definition set_world (w : W) (s : This W) : This W :=
  mkThis (translationKeys s) (this_stats s) (extractedTexts s) (componentInfo s) w.

Definition push_componentInfo (c : ComponentInfo) (s : This W) : This W :=
  mkThis (translationKeys s) (this_stats s) (extractedTexts s) (componentInfo s ++ [c]) (world s).

Definition push_extractedTexts (l : list TextExtraction) (s : This W) : This W :=
  mkThis (translationKeys s) (this_stats s) (extractedTexts s ++ l) (componentInfo s) (world s).

End Fields.

Definition push_error (e : string) (t : TransformationStats) : TransformationStats :=
  mkStats (filesProcessed t) (textsTransformed t) (importsAdded t) (hooksAdded t)
    (buttonsFixed t) (attributesTransformed t) (codeFragmentsFiltered t)
    (duplicatesFound t) (errors t ++ [e]) (warnings t).

Definition push_warning (e : string) (t : TransformationStats) : TransformationStats :=
  mkStats (filesProcessed t) (textsTransformed t) (importsAdded t) (hooksAdded t)
    (buttonsFixed t) (attributesTransformed t) (codeFragmentsFiltered t)
    (duplicatesFound t) (errors t) (warnings t ++ [e]).

Definition incr_filesProcessed (t : TransformationStats) : TransformationStats :=
  mkStats (S (filesProcessed t)) (textsTransformed t) (importsAdded t) (hooksAdded t)
    (buttonsFixed t) (attributesTransformed t) (codeFragmentsFiltered t)
    (duplicatesFound t) (errors t) (warnings t).

Definition add_textsTransformed (n : nat) (t : TransformationStats) : TransformationStats :=
  mkStats (filesProcessed t) (textsTransformed t + n) (importsAdded t) (hooksAdded t)
    (buttonsFixed t) (attributesTransformed t) (codeFragmentsFiltered t)
    (duplicatesFound t) (errors t) (warnings t).

Definition incr_importsAdded (t : TransformationStats) : TransformationStats :=
  mkStats (filesProcessed t) (textsTransformed t) (S (importsAdded t)) (hooksAdded t)
    (buttonsFixed t) (attributesTransformed t) (codeFragmentsFiltered t)
    (duplicatesFound t) (errors t) (warnings t).

Definition incr_hooksAdded (t : TransformationStats) : TransformationStats :=
  mkStats (filesProcessed t) (textsTransformed t) (importsAdded t) (S (hooksAdded t))
    (buttonsFixed t) (attributesTransformed t) (codeFragmentsFiltered t)
    (duplicatesFound t) (errors t) (warnings t).

(** The host: the file system as the transformers use it (fs-extra), and the
    two collaborators the program takes as given, the expansion of the include
    patterns ([findFiles]) and the backup copy ([createBackup]). Reads leave
    the world as it is; writes return the new world. *)
Record Host (W : Type) := mkHost {
  fs_pathExists : string -> W -> bool;
  fs_readJson : string -> W -> Exn.Outcome Json;
  fs_writeJson : string -> Json -> W -> Exn.Outcome unit * W;
  fs_readFile : string -> W -> Exn.Outcome string;
  fs_writeFile : string -> string -> W -> Exn.Outcome unit * W;
  fs_ensureDir : string -> W -> Exn.Outcome unit * W;
  host_findFiles : I18nConfig -> W -> Exn.Outcome (list string);
  host_createBackup : I18nConfig -> W -> Exn.Outcome string * W
}.
Arguments fs_pathExists {W}.
Arguments fs_readJson {W}.
Arguments fs_writeJson {W}.
Arguments fs_readFile {W}.
Arguments fs_writeFile {W}.
Arguments fs_ensureDir {W}.
Arguments host_findFiles {W}.
Arguments host_createBackup {W}.

Section HostCalls.
Context {W : Type}.

(** A read of the world from inside a transformer. *)
Definition reading {A : Type} (f : W -> Exn.Outcome A) : Exn.M (This W) A :=
  fun s => (f (world s), s).

(** A write to the world from inside a transformer. *)
Definition writing {A : Type} (f : W -> Exn.Outcome A * W) : Exn.M (This W) A :=
  fun s => let '(o, w) := f (world s) in (o, set_world w s).

End HostCalls.

(** [path.join(dir, file)] for a directory and a file name. *)
Definition path_join (dir file : string) : string := dir +:+ "/" +:+ file.

(** [path.basename] and [path.extname] on POSIX paths. *)
Module Path.

Definition basename (p : string) : string :=
  List.last (Js.split_char "/" p) EmptyString.

(** From the last dot of the base name on; empty when there is no dot or
    when the only dot is the first character. *)
Definition extname (p : string) : string :=
  let base := basename p in
  if String.eqb base ".." then EmptyString else
  match Js.split_char "." base with
  | [] | [_] => EmptyString
  | [EmptyString; _] => EmptyString
  | parts => "." +:+ List.last parts EmptyString
  end.

(** [path.basename(p, path.extname(p))] *)
Definition basename_noext (p : string) : string :=
  let base := basename p in
  Js.take (String.length base - String.length (extname p)) base.

End Path.

(** ** The key registry and the rewrite (core/I18nTransformer.ts) *)

Module I18nTransformer.
Import Re.

(** [translationKeys]: trimmed text to key. *)
Definition Registry : Type := Assoc.t.

Definition getOrCreateKey (config : I18nConfig) (text : string)
    (keys : Registry) : string * Registry :=
  let cleanText := Js.trim text in
  match Assoc.get cleanText keys with
  | Some key => (key, keys)
  | None =>
      let key := TextValidator.suggestKeyName cleanText (keyStrategy (format config)) in
      (key, Assoc.set cleanText key keys)
  end.

Definition anyQuote : ascii -> bool :=
  Js.either (Js.is_char Js.quote) (Js.is_char Js.apostrophe).

(* />([^<>{]+)</g *)
Definition jsxTextPattern : regex :=
  Seq (Lit ">") (Seq (Group 1 (Plus (Chr (Js.none_of "<>{")))) (Lit "<")).

(* /NAME=[`']([^`']+)[`']/g *)
Definition attributePattern (attr : string) : regex :=
  Seq (Lit (attr +:+ "="))
    (Seq (Chr anyQuote)
       (Seq (Group 1 (Plus (Chr (fun c => negb (anyQuote c))))) (Chr anyQuote))).

Definition attributePatterns : list regex :=
  map attributePattern ["placeholder"; "title"; "alt"; "aria-label"].

(** [match.includes(`{t('`) || match.includes('t(`')] *)
Definition alreadyTransformed (m : string) : bool :=
  Js.includes m "{t('" || Js.includes m (Js.dq "t(`").

(** The call [t('KEY')] with every apostrophe of the key escaped:
    [key.replace(/'/g, `\\'`)]. *)
Definition tCall (key : string) : string :=
  "t('" +:+ replace_all (Lit "'") "\'" key +:+ "')".

(** The state the callbacks of [transformJSXElements] update: the registry
    and the local counter. *)
Definition Rewrite : Type := Registry * nat.

Definition rewriteText (config : I18nConfig) (st : Rewrite) (m : string)
    (g : list (nat * string)) : Rewrite * string :=
  let cleanText := Js.trim (group 1 g) in
  if alreadyTransformed m then (st, m)
  else if TextValidator.isValidTranslationText config cleanText then
    let '(key, keys) := getOrCreateKey config cleanText (fst st) in
    ((keys, S (snd st)), ">{" +:+ tCall key +:+ "}<")
  else (st, m).

Definition rewriteAttribute (config : I18nConfig) (st : Rewrite) (m : string)
    (g : list (nat * string)) : Rewrite * string :=
  let text := group 1 g in
  if alreadyTransformed m then (st, m)
  else if TextValidator.isValidTranslationText config text then
    let '(key, keys) := getOrCreateKey config text (fst st) in
    let attr := hd EmptyString (Js.split_char "=" m) in
    ((keys, S (snd st)), attr +:+ "={" +:+ tCall key +:+ "}")
  else (st, m).

Record Rewritten := mkRewritten {
  content : string;
  count : nat;
  keysAfter : Registry
}.

(** [transformJSXElements] on the full text of a source file; the file is
    given the new text only when [count > 0]. *)
Definition transformJSXElements (config : I18nConfig) (fullText : string)
    (keys : Registry) : Rewritten :=
  let '(st, content) :=
    replace_with jsxTextPattern (rewriteText config) fullText (keys, O) in
  let '(st, content) :=
    fold_left (fun acc pattern =>
                 replace_with pattern (rewriteAttribute config) (snd acc) (fst acc))
              attributePatterns (st, content) in
  mkRewritten (if (0 <? snd st)%nat then content else fullText) (snd st) (fst st).

(** *** The catalogs *)

(** [loadExistingTranslations], the loop over [Object.entries(translations)]:
    a catalog entry (key, value) whose value passes the classifier is
    registered as value to key. *)
Definition seedKeys (config : I18nConfig) (translations : Obj.t)
    (keys : Registry) : Registry :=
  fold_left (fun keys entry =>
               if TextValidator.isValidTranslationText config (snd entry)
               then Assoc.set (snd entry) (fst entry) keys
               else keys)
            translations keys.

(** [translationKeys.forEach((key, text) => sourceTranslations[key] = text)] *)
Definition sourceTranslations (keys : Registry) : Obj.t :=
  fold_left (fun obj entry => Obj.set (snd entry) (fst entry) obj) keys [].

(** [Array.prototype.sort] without a comparator: by code units. *)
Fixpoint sort_insert (k : string) (l : list string) : list string :=
  match l with
  | [] => [k]
  | x :: r => if String.leb k x then k :: l else x :: sort_insert k r
  end.

Definition sort (l : list string) : list string := fold_right sort_insert [] l.

(** [Object.keys(obj).sort().forEach(key => sorted[key] = obj[key])] *)
Definition sortObjectKeys (obj : Obj.t) : Obj.t :=
  fold_left (fun sorted key =>
               match Obj.own key obj with
               | Some v => Obj.set key v sorted
               | None => sorted
               end)
            (sort (Obj.keys obj)) [].

Definition sortedTranslations (config : I18nConfig) (keys : Registry) : Obj.t :=
  if sortKeys (format config) then sortObjectKeys (sourceTranslations keys)
  else sourceTranslations keys.

(** [!targetTranslations[key]] *)
Definition missing (key : string) (targetTranslations : Obj.t) : bool :=
  negb (Obj.truthy key targetTranslations).

(** The loop that adds new keys with empty values. *)
Definition addNewKeys (sorted targetTranslations : Obj.t) : Obj.t :=
  fold_left (fun target key =>
               if missing key target then Obj.set key EmptyString target
               else target)
            (Obj.keys sorted) targetTranslations.

(** What is written to a target-language file whose previous content was
    read as the object [existing] (the empty object when the file is absent
    or is not valid JSON). *)
Definition sortedTarget (config : I18nConfig) (sorted existing : Obj.t) : Obj.t :=
  let targetTranslations := addNewKeys sorted existing in
  if sortKeys (format config) then sortObjectKeys targetTranslations
  else targetTranslations.

(** The messages of the [TypeError]s of V8 on [null]: [Object.entries(null)]
    and [Object.keys(null)], and [null[key]]. *)
Definition nullToObject : string := "Cannot convert undefined or null to object".

Definition nullProperty (key : string) : string :=
  "Cannot read properties of null (reading '" +:+ key +:+ "')".

(** [Object.entries(translations)] *)
Definition entriesOf (translations : Json) : Exn.Outcome Obj.t :=
  match translations with
  | JObject o => Exn.Return o
  | JNull => Exn.Throw nullToObject
  end.

(** The last steps of [generateTranslationFiles] for one target language,
    from the value of [targetTranslations] to the value written: on [null]
    the first key of the source catalog makes [targetTranslations[key]]
    throw, and without any key [sortObjectKeys] throws, or [null] is
    written as it is. *)
Definition targetValue (config : I18nConfig) (sorted : Obj.t)
    (targetTranslations : Json) : Exn.Outcome Json :=
  match targetTranslations with
  | JObject existing => Exn.Return (JObject (sortedTarget config sorted existing))
  | JNull =>
      match Obj.keys sorted with
      | key :: _ => Exn.Throw (nullProperty key)
      | [] => if sortKeys (format config) then Exn.Throw nullToObject
              else Exn.Return JNull
      end
  end.

(** *** Extraction *)

Definition getLineNumber (beforeIndex : string) : nat :=
  List.length (Js.split_char Js.newline beforeIndex).

Definition getColumnNumber (beforeIndex : string) : nat :=
  S (String.length (List.last (Js.split_char Js.newline beforeIndex) EmptyString)).

(** The loop of [extractJSXText] and [extractAttributes] over the matches of
    one pattern. *)
Definition extractMatches (config : I18nConfig) (type : ExtractionType)
    (filePath : string) (found : list (string * string * list (nat * string)))
    (keys : Registry) : list TextExtraction * Registry :=
  fold_left (fun acc m =>
               let text := Js.trim (group 1 (snd m)) in
               if TextValidator.isValidTranslationText config text then
                 let '(key, keys) := getOrCreateKey config text (snd acc) in
                 ((fst acc ++ [mkExtraction text key type filePath
                                 (getLineNumber (fst (fst m)))
                                 (getColumnNumber (fst (fst m)))])%list, keys)
               else acc)
            found ([], keys).

Definition extractJSXText (config : I18nConfig) (content filePath : string)
    (keys : Registry) : list TextExtraction * Registry :=
  extractMatches config jsx_text filePath (matches jsxTextPattern content) keys.

Definition extractAttributes (config : I18nConfig) (content filePath : string)
    (keys : Registry) : list TextExtraction * Registry :=
  fold_left (fun acc p =>
               let '(found, keys) :=
                 extractMatches config (snd p) filePath
                   (matches (attributePattern (fst p)) content) (snd acc) in
               ((fst acc ++ found)%list, keys))
            [("placeholder", placeholder); ("title", title);
             ("alt", attribute); ("aria-label", aria_label)]
            ([], keys).

Definition extractTexts (config : I18nConfig) (content filePath : string)
    (keys : Registry) : list TextExtraction * Registry :=
  let '(a, keys) :=
    if Config.extractJSXText (transformation config)
    then extractJSXText config content filePath keys else ([], keys) in
  let '(b, keys) :=
    if Config.extractAttributes (transformation config)
    then extractAttributes config content filePath keys else ([], keys) in
  ((a ++ b)%list, keys).

(** [hasExtractableText]: the quick scan of JSX text, then of four
    attributes. *)
Definition hasExtractableText (config : I18nConfig) (content : string) : bool :=
  let accepted pattern :=
    existsb (fun m => TextValidator.isValidTranslationText config (group 1 (snd m)))
            (matches pattern content) in
  accepted jsxTextPattern || existsb accepted attributePatterns.

(** *** What ts-morph shows of a source file *)

Record FunctionDeclaration := mkFunction {
  fn_name : option string;
  fn_isExported : bool;
  fn_bodyIsBlock : bool
}.

Inductive Initializer :=
| ArrowFunction (bodyIsBlock : bool)
| FunctionExpression
| OtherExpression.

Record VariableDeclaration := mkVariable {
  var_name : string;
  var_initializer : option Initializer
}.

Record ClassDeclaration := mkClass {
  cls_name : option string;
  cls_isExported : bool
}.

Record SourceFile := mkSourceFile {
  getFilePath : string;
  getFullText : string;
  (** the module specifier of each import declaration *)
  getImportDeclarations : list string;
  getFunctions : list FunctionDeclaration;
  (** the declarations of each variable statement *)
  getVariableStatements : list (list VariableDeclaration);
  getClasses : list ClassDeclaration
}.

(** [name || fileName] *)
Definition nameOr (name : option string) (fileName : string) : string :=
  match name with
  | Some (String c r) => String c r
  | _ => fileName
  end.

Definition isFunctionLike (i : option Initializer) : bool :=
  match i with
  | Some (ArrowFunction _) | Some FunctionExpression => true
  | _ => false
  end.

Definition importsTranslation (config : I18nConfig) (specifiers : list string) : bool :=
  existsb (fun spec => String.eqb spec "react-i18next"
                       || String.eqb spec (customHookImport (components config)))
          specifiers.

(** The loop over the variable statements: in each statement the first
    declaration bound to an arrow function or a function expression sets the
    name and the arrow style (the [break] leaves the inner loop only). *)
Definition scanVariableStatements (variableStatements : list (list VariableDeclaration))
    (start : string * ComponentType) : string * ComponentType :=
  fold_left (fun acc declarations =>
               match find (fun decl => isFunctionLike (var_initializer decl))
                          declarations with
               | Some decl => (var_name decl, arrow)
               | None => acc
               end)
            variableStatements start.

Definition analyzeComponent (config : I18nConfig) (sourceFile : SourceFile) : ComponentInfo :=
  let filePath := getFilePath sourceFile in
  let fileName := Path.basename_noext filePath in
  let hasUseTranslation := importsTranslation config (getImportDeclarations sourceFile) in
  let needsTranslation := hasExtractableText config (getFullText sourceFile) in
  let functions := getFunctions sourceFile in
  let variableStatements := getVariableStatements sourceFile in
  let classes := getClasses sourceFile in
  let '(componentName, componentType) :=
    match functions, variableStatements, classes with
    | _ :: _, _, _ =>
        match find fn_isExported functions with
        | Some exportedFunction => (nameOr (fn_name exportedFunction) fileName, function)
        | None => (fileName, function)
        end
    | [], _ :: _, _ => scanVariableStatements variableStatements (fileName, function)
    | [], [], _ :: _ =>
        match find cls_isExported classes with
        | Some exportedClass => (nameOr (cls_name exportedClass) fileName, class)
        | None => (fileName, function)
        end
    | [], [], [] => (fileName, function)
    end in
  mkComponentInfo componentName componentType filePath hasUseTranslation needsTranslation.

Definition shouldAddImport (config : I18nConfig) (sourceFile : SourceFile) : bool :=
  negb (importsTranslation config (getImportDeclarations sourceFile)).

(** The index [addTranslationImport] inserts at: after the last import of a
    module whose name contains react or starts with @/ or ./ *)
Definition importInsertIndex (specifiers : list string) : nat :=
  snd (fold_left (fun acc moduleSpec =>
                    let i := fst acc in
                    (S i, if Js.includes moduleSpec "react"
                             || Js.startsWith "@/" moduleSpec
                             || Js.startsWith "./" moduleSpec
                          then S i else snd acc))
                 specifiers (0, 0)).

Definition hookModule (config : I18nConfig) : string :=
  match customHookImport (components config) with
  | EmptyString => "react-i18next"
  | m => m
  end.

Definition shouldAddHook (config : I18nConfig) (info : ComponentInfo) : bool :=
  if negb (addUseTranslationHook (components config)) then false
  else if hasUseTranslation info then false
  else if negb (needsTranslation info) then false
  else if match ci_type info with class => true | _ => false end
          && negb (supportClassComponents (components config)) then false
  else true.

(** *** The run *)

(** Where [addFunctionComponentHook] inserts the binding: the body of the
    first exported function that has a block body, else of the first variable
    bound to an arrow function with a block body. *)
Inductive BodyRef :=
| FunctionBody (index : nat)
| ArrowBody (statement declaration : nat).

Fixpoint index_where {A : Type} (f : A -> bool) (l : list A) : option nat :=
  match l with
  | [] => None
  | x :: r => if f x then Some 0 else option_map S (index_where f r)
  end.

Fixpoint arrow_where (n : nat) (l : list (list VariableDeclaration)) : option BodyRef :=
  match l with
  | [] => None
  | declarations :: r =>
      match index_where (fun decl => match var_initializer decl with
                                     | Some (ArrowFunction true) => true
                                     | _ => false
                                     end) declarations with
      | Some j => Some (ArrowBody n j)
      | None => arrow_where (S n) r
      end
  end.

Definition hookTarget (sourceFile : SourceFile) : option BodyRef :=
  match index_where (fun f => fn_isExported f && fn_bodyIsBlock f) (getFunctions sourceFile) with
  | Some i => Some (FunctionBody i)
  | None => arrow_where 0 (getVariableStatements sourceFile)
  end.

(** The operations of ts-morph that read or change a source file. *)
Record TsMorph (W : Type) := mkTsMorph {
  addSourceFileAtPath : string -> W -> Exn.Outcome SourceFile;
  insertImportDeclaration : nat -> string -> string -> SourceFile -> Exn.Outcome SourceFile;
  replaceWithText : string -> SourceFile -> Exn.Outcome SourceFile;
  insertStatements : BodyRef -> nat -> string -> SourceFile -> Exn.Outcome SourceFile;
  save : SourceFile -> W -> Exn.Outcome unit * W
}.
Arguments addSourceFileAtPath {W}.
Arguments insertImportDeclaration {W}.
Arguments replaceWithText {W}.
Arguments insertStatements {W}.
Arguments save {W}.

Section Run.
Context {W : Type} (host : Host W) (tsm : TsMorph W) (config : I18nConfig).
Import Exn.

Definition lift {A : Type} (o : Outcome A) : M (This W) A := fun s => (o, s).

Definition loadExistingTranslations : M (This W) unit :=
  let sourceFile := path_join (outputDir config) (sourceLanguage config +:+ ".json") in
  let* present := reading (fun w => Return (fs_pathExists host sourceFile w)) in
  if present then
    try_catch
      (let* translations := reading (fs_readJson host sourceFile) in
       let* entries := lift (entriesOf translations) in
       modify (fun s => set_keys (seedKeys config entries (translationKeys s)) s))
      (fun e => modify (set_stats (push_warning
                  ("Could not load existing translations: " +:+ e))))
  else ret tt.

Definition addTranslationImport (sourceFile : SourceFile) : M (This W) SourceFile :=
  lift (insertImportDeclaration tsm
          (importInsertIndex (getImportDeclarations sourceFile))
          "useTranslation" (hookModule config) sourceFile).

(** [addClassComponentSupport] only logs; [addFunctionComponentHook] inserts
    the binding where there is a body for it. *)
Definition addTranslationHook (sourceFile : SourceFile) (info : ComponentInfo)
  : M (This W) SourceFile :=
  match ci_type info with
  | class => ret sourceFile
  | _ =>
      match hookTarget sourceFile with
      | Some body =>
          lift (insertStatements tsm body 0 "const { t } = useTranslation();" sourceFile)
      | None => ret sourceFile
      end
  end.

(** The body of the [try] of [transformFile]. *)
Definition transformFile_try (filePath : string) : M (This W) unit :=
  let* sourceFile := reading (addSourceFileAtPath tsm filePath) in
  let info := analyzeComponent config sourceFile in
  let* _ := modify (push_componentInfo info) in
  let* step1 :=
    if shouldAddImport config sourceFile then
      let* sf := addTranslationImport sourceFile in
      let* _ := modify (set_stats incr_importsAdded) in
      ret (sf, true)
    else ret (sourceFile, false) in
  let* s := get in
  let '(extractionResults, keys) :=
    extractTexts config (getFullText (fst step1)) (getFilePath (fst step1))
      (translationKeys s) in
  let* _ := modify (set_keys keys) in
  let* step2 :=
    if (0 <? List.length extractionResults)%nat then
      let* _ := modify (push_extractedTexts extractionResults) in
      ret true
    else ret (snd step1) in
  let* s := get in
  let transformResults :=
    transformJSXElements config (getFullText (fst step1)) (translationKeys s) in
  let* _ := modify (set_keys (keysAfter transformResults)) in
  let* sf :=
    if (0 <? count transformResults)%nat
    then lift (replaceWithText tsm (content transformResults) (fst step1))
    else ret (fst step1) in
  let* step3 :=
    if (0 <? count transformResults)%nat then
      let* _ := modify (set_stats (add_textsTransformed (count transformResults))) in
      ret true
    else ret step2 in
  let* step4 :=
    if shouldAddHook config info then
      let* sf' := addTranslationHook sf info in
      let* _ := modify (set_stats incr_hooksAdded) in
      ret (sf', true)
    else ret (sf, step3) in
  let* _ := when (snd step4) (writing (save tsm (fst step4))) in
  modify (set_stats incr_filesProcessed).

Definition transformFile (filePath : string) : M (This W) unit :=
  try_catch (transformFile_try filePath)
    (fun e => modify (set_stats (push_error
                ("Error transforming " +:+ filePath +:+ ": " +:+ e)))).

Definition generateTranslationFiles : M (This W) unit :=
  let* _ := writing (fs_ensureDir host (outputDir config)) in
  let* s := get in
  let sorted := sortedTranslations config (translationKeys s) in
  let sourceFile := path_join (outputDir config) (sourceLanguage config +:+ ".json") in
  let* _ := writing (fs_writeJson host sourceFile (JObject sorted)) in
  forEach (targetLanguages config) (fun lang =>
    let targetFile := path_join (outputDir config) (lang +:+ ".json") in
    let* present := reading (fun w => Return (fs_pathExists host targetFile w)) in
    let* targetTranslations :=
      if present then
        try_catch (reading (fs_readJson host targetFile))
          (fun _ =>
             let* _ := modify (set_stats (push_warning
                         ("Could not load existing " +:+ lang +:+ " translations"))) in
             ret (JObject []))
      else ret (JObject []) in
    let* value := lift (targetValue config sorted targetTranslations) in
    writing (fs_writeJson host targetFile value)).

Definition typeDefinition (keys : Registry) : string :=
  "// Auto-generated i18n type definitions" +:+ Js.str Js.newline +:+
  "export interface I18nKeys {" +:+ Js.str Js.newline +:+
  Js.join (Js.str Js.newline)
    (map (fun key => "  '" +:+ key +:+ "': string;") (Assoc.values keys)) +:+
  Js.str Js.newline +:+ "}" +:+ Js.str Js.newline +:+ Js.str Js.newline +:+
  "export type TranslationKey = keyof I18nKeys;" +:+ Js.str Js.newline.

Definition generateTypeDefinitions : M (This W) unit :=
  let* s := get in
  writing (fs_writeFile host (path_join (outputDir config) "types.ts")
             (typeDefinition (translationKeys s))).

(** The [try] of [transform] up to the end of the loop over the files: the
    files found and the path of the backup. *)
Definition transform_files : M (This W) (list string * option string) :=
  let* _ := loadExistingTranslations in
  let* backupPath :=
    if Config.createBackup (advanced config) then
      let* p := writing (host_createBackup host config) in ret (Some p)
    else ret None in
  let* files := reading (host_findFiles host config) in
  let* _ := forEach files transformFile in
  ret (files, backupPath).

(** The body of the [try] of [transform]. *)
Definition transform_try : M (This W) TransformationResult :=
  let* found := transform_files in
  let files := fst found in
  let backupPath := snd found in
  let* _ := generateTranslationFiles in
  let* _ := when (Config.generateTypeDefinitions (advanced config)) generateTypeDefinitions in
  let* s := get in
  ret (mkResult true (this_stats s) (translationKeys s) files backupPath).

Definition transform : M (This W) TransformationResult :=
  try_catch transform_try
    (fun e =>
       let* _ := modify (set_stats (push_error ("Transformation failed: " +:+ e))) in
       let* s := get in
       ret (mkResult false (this_stats s) (translationKeys s) [] None)).

End Run.

End I18nTransformer.

(** ** The pattern-based transformer (utils/JavaScriptTransformer.ts) *)

Module JavaScriptTransformer.
Import Re.

Definition Registry : Type := Assoc.t.

(** These members have the same text as in the other transformer. *)
Definition getOrCreateKey := I18nTransformer.getOrCreateKey.
Definition hasExtractableText := I18nTransformer.hasExtractableText.
Definition seedKeys := I18nTransformer.seedKeys.
Definition sortedTranslations := I18nTransformer.sortedTranslations.
Definition sortedTarget := I18nTransformer.sortedTarget.
Definition entriesOf := I18nTransformer.entriesOf.
Definition targetValue := I18nTransformer.targetValue.
Definition shouldAddHook_common := I18nTransformer.shouldAddHook.

Definition sp : regex := Plus (Chr Js.space).
Definition ws : regex := Star (Chr Js.space).
Definition anything : regex := Star (Chr Js.dot).
Definition ident : regex := Plus (Chr Js.word).

Fixpoint Seqs (l : list regex) : regex :=
  match l with
  | [] => Eps
  | [a] => a
  | a :: r => Seq a (Seqs r)
  end.

(* /import.*useTranslation.*from.*react-i18next/ *)
Definition importFromI18next : regex :=
  Seqs [Lit "import"; anything; Lit "useTranslation"; anything; Lit "from";
        anything; Lit "react-i18next"].

(* /import.*useTranslation.*from.*@\// *)
Definition importFromAlias : regex :=
  Seqs [Lit "import"; anything; Lit "useTranslation"; anything; Lit "from";
        anything; Lit "@/"].

(* /class\s+\w+\s+extends\s+(React\.)?Component/ *)
Definition classComponentPattern : regex :=
  Seqs [Lit "class"; sp; ident; sp; Lit "extends"; sp;
        Opt (Group 1 (Lit "React.")); Lit "Component"].

(* /class\s+(\w+)\s+extends/ *)
Definition classNamePattern : regex :=
  Seqs [Lit "class"; sp; Group 1 ident; sp; Lit "extends"].

(* /export\s+default\s+function\s+(\w+)/ *)
Definition defaultFunctionPattern : regex :=
  Seqs [Lit "export"; sp; Lit "default"; sp; Lit "function"; sp; Group 1 ident].

(* /const\s+(\w+)\s*=\s*\([^)]*\)\s*=>/ *)
Definition arrowComponentPattern : regex :=
  Seqs [Lit "const"; sp; Group 1 ident; ws; Lit "="; ws; Lit "(";
        Star (Chr (Js.none_of ")")); Lit ")"; ws; Lit "=>"].

(** [content.match(r)[1]] when [r] matches. *)
Definition firstGroup (r : regex) (content : string) : option string :=
  match exec r content with
  | Some (_, _, q) => Some (group 1 (groups q))
  | None => None
  end.

Definition analyzeComponent (config : I18nConfig) (content filePath : string)
  : ComponentInfo :=
  let fileName := Path.basename_noext filePath in
  let hasUseTranslation :=
    test importFromI18next content || test importFromAlias content in
  let needsTranslation := hasExtractableText config content in
  let '(componentType, componentName) :=
    if test classComponentPattern content then
      (class, match firstGroup classNamePattern content with
              | Some n => n
              | None => fileName
              end)
    else if test defaultFunctionPattern content then
      (function, match firstGroup defaultFunctionPattern content with
                 | Some n => n
                 | None => fileName
                 end)
    else if test arrowComponentPattern content then
      (arrow, match firstGroup arrowComponentPattern content with
              | Some n => n
              | None => fileName
              end)
    else (function, fileName) in
  mkComponentInfo componentName componentType filePath hasUseTranslation needsTranslation.

Definition shouldAddImport (config : I18nConfig) (content : string) : bool :=
  negb (test importFromI18next content)
  && negb (test importFromAlias content)
  && hasExtractableText config content.

(* /^import\s/ on the trimmed line *)
Definition isImportLine (line : string) : bool :=
  test (Seqs [Bol; Lit "import"; Chr Js.space]) (Js.trim line).

(** The index after the last import line. *)
Definition afterImports (lines : list string) : nat :=
  snd (fold_left (fun acc line =>
                    (S (fst acc), if isImportLine line then S (fst acc) else snd acc))
                 lines (0, 0)).

(** [lines.splice(index, 0, line)] *)
Definition splice (index : nat) (line : string) (lines : list string) : list string :=
  (firstn index lines ++ line :: skipn index lines)%list.

Definition addTranslationImport (config : I18nConfig) (content : string) : string :=
  let lines := Js.split_char Js.newline content in
  let importStatement :=
    "import { useTranslation } from '" +:+ I18nTransformer.hookModule config +:+ "';" in
  Js.join (Js.str Js.newline) (splice (afterImports lines) importStatement lines).

(* /const\s*{\s*t\s*}\s*=\s*useTranslation\(\)/ *)
Definition hookPattern : regex :=
  Seqs [Lit "const"; ws; Lit "{"; ws; Lit "t"; ws; Lit "}"; ws; Lit "="; ws;
        Lit "useTranslation()"].

Definition shouldAddHook (config : I18nConfig) (content : string)
    (info : ComponentInfo) : bool :=
  if negb (shouldAddHook_common config info) then false
  else if test hookPattern content then false
  else true.

Definition hookStatement : string := "  const { t } = useTranslation();".

(** [content.replace(pattern, `$1\n${hookStatement}\n`)] *)
Definition insertHookAfter (pattern : regex) (content : string) : string :=
  replace_first pattern
    (fun _ g => group 1 g +:+ Js.str Js.newline +:+ hookStatement +:+ Js.str Js.newline)
    content.

(* /(function\s+\w+[^{]*\{)/ *)
Definition functionPattern : regex :=
  Group 1 (Seqs [Lit "function"; sp; ident; Star (Chr (Js.none_of "{")); Lit "{"]).

(* /(const\s+[A-Z]\w*\s*=\s*\([^)]*\)\s*=>\s*\{)/ *)
Definition arrowPattern : regex :=
  Group 1 (Seqs [Lit "const"; sp; Chr Js.upper_AZ; Star (Chr Js.word); ws; Lit "=";
                 ws; Lit "("; Star (Chr (Js.none_of ")")); Lit ")"; ws; Lit "=>";
                 ws; Lit "{"]).

(* /(export\s+default\s+function[^{]*\{)/ *)
Definition exportPattern : regex :=
  Group 1 (Seqs [Lit "export"; sp; Lit "default"; sp; Lit "function";
                 Star (Chr (Js.none_of "{")); Lit "{"]).

Definition addFunctionComponentHook (content : string) : string :=
  if test functionPattern content then insertHookAfter functionPattern content
  else if test arrowPattern content then insertHookAfter arrowPattern content
  else if test exportPattern content then insertHookAfter exportPattern content
  else content.

(* /import.*withTranslation.*from.*react-i18next/ *)
Definition importsWithTranslation : regex :=
  Seqs [Lit "import"; anything; Lit "withTranslation"; anything; Lit "from";
        anything; Lit "react-i18next"].

(* /(import.*useTranslation.*from\s+['`]react-i18next['`];?)/ *)
Definition useTranslationImport : regex :=
  Group 1 (Seqs [Lit "import"; anything; Lit "useTranslation"; anything; Lit "from";
                 sp; Chr I18nTransformer.anyQuote; Lit "react-i18next";
                 Chr I18nTransformer.anyQuote; Opt (Lit ";")]).

(* /export\s+default\s+(\w+);?$/m *)
Definition defaultExportPattern : regex :=
  Seqs [Lit "export"; sp; Lit "default"; sp; Group 1 ident; Opt (Lit ";"); EolM].

Definition withTranslationImport : string :=
  "import { withTranslation } from 'react-i18next';".

Definition addClassComponentSupport (content : string) : string :=
  let content :=
    if negb (test importsWithTranslation content) then
      if test useTranslationImport content then
        replace_first useTranslationImport
          (fun _ g => group 1 g +:+ Js.str Js.newline +:+ withTranslationImport)
          content
      else
        let lines := Js.split_char Js.newline content in
        Js.join (Js.str Js.newline)
          (splice (afterImports lines) withTranslationImport lines)
    else content in
  if test defaultExportPattern content then
    replace_first defaultExportPattern
      (fun _ g => "export default withTranslation()(" +:+ group 1 g +:+ ");")
      content
  else content.

Definition addTranslationHook (content : string) (info : ComponentInfo) : string :=
  match ci_type info with
  | class => addClassComponentSupport content
  | _ => addFunctionComponentHook content
  end.

(* /<([Bb]utton[^>]* )>([^<]+)<\/[Bb]utton>/g, read without the blank *)
Definition buttonPattern : regex :=
  Seqs [Lit "<";
        Group 1 (Seqs [Chr (Js.any_of "Bb"); Lit "utton"; Star (Chr (Js.none_of ">"))]);
        Lit ">"; Group 2 (Plus (Chr (Js.none_of "<"))); Lit "</";
        Chr (Js.any_of "Bb"); Lit "utton>"].

Definition rewriteAttribute (config : I18nConfig) (attr : string)
    (st : I18nTransformer.Rewrite) (m : string) (g : list (nat * string))
  : I18nTransformer.Rewrite * string :=
  let text := group 1 g in
  if I18nTransformer.alreadyTransformed m then (st, m)
  else if TextValidator.isValidTranslationText config text then
    let '(key, keys) := getOrCreateKey config text (fst st) in
    ((keys, S (snd st)), attr +:+ "={" +:+ I18nTransformer.tCall key +:+ "}")
  else (st, m).

Definition rewriteButton (config : I18nConfig) (st : I18nTransformer.Rewrite)
    (m : string) (g : list (nat * string)) : I18nTransformer.Rewrite * string :=
  let attributes := group 1 g in
  let buttonText := group 2 g in
  let cleanText := Js.trim buttonText in
  if I18nTransformer.alreadyTransformed buttonText || Js.includes buttonText "{"
  then (st, m)
  else if TextValidator.isValidTranslationText config cleanText then
    let '(key, keys) := getOrCreateKey config cleanText (fst st) in
    ((keys, S (snd st)),
     "<" +:+ attributes +:+ ">{" +:+ I18nTransformer.tCall key +:+ "}</"
       +:+ hd EmptyString (Js.split_char " " attributes) +:+ ">")
  else (st, m).

Definition transformJSXElements (config : I18nConfig) (content : string)
    (keys : Registry) : I18nTransformer.Rewritten :=
  let '(st, content) :=
    replace_with I18nTransformer.jsxTextPattern (I18nTransformer.rewriteText config)
      content (keys, O) in
  let '(st, content) :=
    fold_left (fun acc attr =>
                 replace_with (I18nTransformer.attributePattern attr)
                   (rewriteAttribute config attr) (snd acc) (fst acc))
              ["placeholder"; "title"; "alt"; "aria-label"] (st, content) in
  let '(st, content) := replace_with buttonPattern (rewriteButton config) content st in
  I18nTransformer.mkRewritten content (snd st) (fst st).

Section Run.
Context {W : Type} (host : Host W) (config : I18nConfig).
Import Exn.

Definition loadExistingTranslations : M (This W) unit :=
  let sourceFile := path_join (outputDir config) (sourceLanguage config +:+ ".json") in
  let* present := reading (fun w => Return (fs_pathExists host sourceFile w)) in
  if present then
    try_catch
      (let* translations := reading (fs_readJson host sourceFile) in
       let* entries := I18nTransformer.lift (entriesOf translations) in
       modify (fun s => set_keys (seedKeys config entries (translationKeys s)) s))
      (fun e => modify (set_stats (push_warning
                  ("Could not load existing translations: " +:+ e))))
  else ret tt.

(** The body of the [try] of [transformFile]; the pair is the local
    [content] and [hasChanges]. *)
Definition transformFile_try (filePath : string) : M (This W) unit :=
  let* content := reading (fs_readFile host filePath) in
  let info := analyzeComponent config content filePath in
  let* _ := modify (push_componentInfo info) in
  let* step1 :=
    if shouldAddImport config content then
      let* _ := modify (set_stats incr_importsAdded) in
      ret (addTranslationImport config content, true)
    else ret (content, false) in
  let* s := get in
  let transformResults := transformJSXElements config (fst step1) (translationKeys s) in
  let* _ := modify (set_keys (I18nTransformer.keysAfter transformResults)) in
  let* step2 :=
    if (0 <? I18nTransformer.count transformResults)%nat then
      let* _ := modify (set_stats
                  (add_textsTransformed (I18nTransformer.count transformResults))) in
      ret (I18nTransformer.content transformResults, true)
    else ret step1 in
  let* step3 :=
    if shouldAddHook config (fst step2) info then
      let* _ := modify (set_stats incr_hooksAdded) in
      ret (addTranslationHook (fst step2) info, true)
    else ret step2 in
  let* _ := when (snd step3) (writing (fs_writeFile host filePath (fst step3))) in
  modify (set_stats incr_filesProcessed).

Definition transformFile (filePath : string) : M (This W) unit :=
  try_catch (transformFile_try filePath)
    (fun e => modify (set_stats (push_error
                ("Error transforming " +:+ filePath +:+ ": " +:+ e)))).

Definition generateTranslationFiles : M (This W) unit :=
  let* _ := writing (fs_ensureDir host (outputDir config)) in
  let* s := get in
  let sorted := sortedTranslations config (translationKeys s) in
  let sourceFile := path_join (outputDir config) (sourceLanguage config +:+ ".json") in
  let* _ := writing (fs_writeJson host sourceFile (JObject sorted)) in
  forEach (targetLanguages config) (fun lang =>
    let targetFile := path_join (outputDir config) (lang +:+ ".json") in
    let* present := reading (fun w => Return (fs_pathExists host targetFile w)) in
    let* targetTranslations :=
      if present then
        try_catch (reading (fs_readJson host targetFile))
          (fun _ =>
             let* _ := modify (set_stats (push_warning
                         ("Could not load existing " +:+ lang +:+ " translations"))) in
             ret (JObject []))
      else ret (JObject []) in
    let* value := I18nTransformer.lift (targetValue config sorted targetTranslations) in
    writing (fs_writeJson host targetFile value)).

(** The [try] of [transform] up to the end of the loop over the files: the
    files found and the path of the backup. *)
Definition transform_files : M (This W) (list string * option string) :=
  let* _ := loadExistingTranslations in
  let* backupPath :=
    if Config.createBackup (advanced config) then
      let* p := writing (host_createBackup host config) in ret (Some p)
    else ret None in
  let* files := reading (host_findFiles host config) in
  let* _ := forEach files transformFile in
  ret (files, backupPath).

(** The body of the [try] of [transform]. *)
Definition transform_try : M (This W) TransformationResult :=
  let* found := transform_files in
  let files := fst found in
  let backupPath := snd found in
  let* _ := generateTranslationFiles in
  let* s := get in
  ret (mkResult true (this_stats s) (translationKeys s) files backupPath).

Definition transform : M (This W) TransformationResult :=
  try_catch transform_try
    (fun e =>
       let* _ := modify (set_stats (push_error ("Transformation failed: " +:+ e))) in
       let* s := get in
       ret (mkResult false (this_stats s) (translationKeys s) [] None)).

End Run.

End JavaScriptTransformer.

(** * What the properties are stated with *)

(** The configuration of a run without a configuration file. *)
Definition defaultConfig : I18nConfig := ConfigManager.getDefaultConfig.

(** [config] with another [format.keyStrategy]. *)
Definition withStrategy (strategy : KeyStrategy) (config : I18nConfig) : I18nConfig :=
  mkConfig (outputDir config) (sourceLanguage config) (targetLanguages config)
    (transformation config) (components config) (validation config)
    (mkFormat (sortKeys (format config)) strategy) (advanced config).

(** The default rule named css-units. *)
Definition cssUnits : option ValidationRule :=
  find (fun rule => String.eqb (name rule) "css-units") TextValidator.validationRules.

(** An element with two attributes; the value of the first ends in a blank,
    the value of the second holds a quoted phrase. *)
Definition twoAttributes : string :=
  Js.dq "<img alt=`x title= ` title=`if title='Hello world'` />".

Definition firstPass : I18nTransformer.Rewritten :=
  I18nTransformer.transformJSXElements defaultConfig twoAttributes [].

Definition secondPass : I18nTransformer.Rewritten :=
  I18nTransformer.transformJSXElements defaultConfig
    (I18nTransformer.content firstPass) (I18nTransformer.keysAfter firstPass).

(** The text À é è, blank, Ô û, given by its code units. *)
Definition accented : string :=
  string_of_list_ascii (map ascii_of_nat [192; 233; 232; 32; 212; 251]).

(** The text É, blank, 42, given by its code units. *)
Definition accentedNumber : string :=
  string_of_list_ascii (map ascii_of_nat [201; 32; 52; 50]).

(** ** A small world to run the transformers in *)

Module Demo.
Import Exn.

(** Source files by path, what ts-morph shows of them, the JSON files by
    path, and the paths written so far. *)
Record Disk := mkDisk {
  sources : list (string * string);
  parsed : list (string * I18nTransformer.SourceFile);
  catalogs : list (string * Json);
  written : list string
}.

Fixpoint lookup {A : Type} (k : string) (l : list (string * A)) : option A :=
  match l with
  | [] => None
  | (k', v) :: r => if String.eqb k k' then Some v else lookup k r
  end.

Fixpoint update {A : Type} (k : string) (v : A) (l : list (string * A)) : list (string * A) :=
  match l with
  | [] => [(k, v)]
  | (k', v') :: r => if String.eqb k k' then (k, v) :: r else (k', v') :: update k v r
  end.

Definition orThrow {A : Type} (o : option A) (e : string) : Outcome A :=
  match o with Some a => Return a | None => Throw e end.

Definition host : Host Disk :=
  {| fs_pathExists := fun p w =>
       match lookup p (catalogs w), lookup p (sources w) with
       | None, None => false
       | _, _ => true
       end;
     fs_readJson := fun p w => orThrow (lookup p (catalogs w)) ("ENOENT: " +:+ p);
     fs_writeJson := fun p obj w =>
       (Return tt, mkDisk (sources w) (parsed w) (update p obj (catalogs w)) (written w));
     fs_readFile := fun p w => orThrow (lookup p (sources w)) ("ENOENT: " +:+ p);
     fs_writeFile := fun p text w =>
       (Return tt, mkDisk (update p text (sources w)) (parsed w) (catalogs w)
                     (written w ++ [p]));
     fs_ensureDir := fun _ w => (Return tt, w);
     host_findFiles := fun _ w => Return (map fst (sources w));
     host_createBackup := fun _ w => (Return "./i18n-backup/backup", w) |}.



Import I18nTransformer.

Definition withText (text : string) (f : SourceFile) : SourceFile :=
  mkSourceFile (getFilePath f) text (getImportDeclarations f) (getFunctions f)
    (getVariableStatements f) (getClasses f).

Definition withImport (index : nat) (moduleSpecifier : string) (f : SourceFile) : SourceFile :=
  mkSourceFile (getFilePath f) (getFullText f)
    (firstn index (getImportDeclarations f) ++ moduleSpecifier
       :: skipn index (getImportDeclarations f))%list
    (getFunctions f) (getVariableStatements f) (getClasses f).

(** A stand-in for ts-morph: files are the ones in [parsed]; a change of the
    text keeps the declarations; saving logs the path. *)
Definition tsMorph : TsMorph Disk :=
  {| addSourceFileAtPath := fun p w =>
       orThrow (lookup p (parsed w)) ("File not found: " +:+ p);
     insertImportDeclaration := fun index _ moduleSpecifier f =>
       Return (withImport index moduleSpecifier f);
     replaceWithText := fun text f => Return (withText text f);
     insertStatements := fun _ _ _ f => Return f;
     save := fun f w =>
       (Return tt, mkDisk (update (getFilePath f) (getFullText f) (sources w))
                     (update (getFilePath f) f (parsed w)) (catalogs w)
                     (written w ++ [getFilePath f])) |}.

Definition start (w : Disk) : This Disk := mkThis [] resetStats [] [] w.

(** A project with one file that holds no text to translate. *)
Definition constantsOnly : Disk :=
  mkDisk [("src/constants.jsx", "export const answer = 42;")] [] [] [].

(** A component with a heading. *)
Definition heading : string := "export const Title = () => { return <h1>Welcome</h1>; }".

Definition headingFile : SourceFile :=
  mkSourceFile "src/Title.tsx" heading [] []
    [[mkVariable "Title" (Some (ArrowFunction true))]] [].


(** A file with a helper function and an exported class component. *)
Definition helperAndClass : string :=
  Js.join (Js.str Js.newline)
    ["import React from 'react';";
     "function helper() { return 1; }";
     "export class Profile extends React.Component {";
     "  render() { return <p>Hello there</p>; }";
     "}"].

Definition helperAndClassFile : SourceFile :=
  mkSourceFile "src/Card.tsx" helperAndClass ["react"]
    [mkFunction (Some "helper") false true] [] [mkClass (Some "Profile") true].

End Demo.

(** A text that does not begin with a blank. *)
Definition starts_clean (s : string) : Prop :=
  match s with
  | EmptyString => True
  | String c _ => Js.space c = false
  end.

(** A run resolves one text after the other. *)
Definition resolveAll (config : I18nConfig) (texts : list string)
    (keys : I18nTransformer.Registry) : I18nTransformer.Registry :=
  fold_left (fun keys text => snd (I18nTransformer.getOrCreateKey config text keys)) texts keys.

(** The registry a run starts from when the catalog written for [keys] is
    read back. *)
Definition seededFrom (config : I18nConfig) (keys : I18nTransformer.Registry) : I18nTransformer.Registry :=
  I18nTransformer.seedKeys config (I18nTransformer.sortedTranslations config keys) [].


(** No key is shared by two texts. *)
Definition injective (keys : I18nTransformer.Registry) : Prop :=
  forall text1 text2 key,
    In (text1, key) keys -> In (text2, key) keys -> text1 = text2.


(** Every key is its own text. *)
Definition keyed_by_text (keys : I18nTransformer.Registry) : Prop :=
  forall text key, In (text, key) keys -> key = text.

(** [k] is one of [l]. *)
Definition mentions (k : string) (l : list string) : bool := existsb (String.eqb k) l.

(** The es catalog of the end-to-end scenario. *)
Definition esBefore : Obj.t := [("Welcome", "Bienvenido")].
Definition enAfter : Obj.t := [("Get Started", "Get Started"); ("Welcome", "Welcome")].


(** [s] without the characters that [f] accepts. *)
Fixpoint without (f : ascii -> bool) (s : string) : string :=
  match s with
  | EmptyString => EmptyString
  | String c r => if f c then without f r else String c (without f r)
  end.

(** The characters of a text. *)
Definition chars (s : string) : list ascii := list_ascii_of_string s.

(** [t] is made of characters of [s]. *)
Definition within (t s : string) : Prop :=
  forall c, In c (chars t) -> In c (chars s).

Section RunPredicates.
Context {W : Type}.

(** The files counted as processed and the errors recorded. *)
Definition tally (s : This W) : nat * list string :=
  (filesProcessed (this_stats s), errors (this_stats s)).

(** A computation that leaves the tally as it is. *)
Definition keeps {A : Type} (m : Exn.M (This W) A) : Prop :=
  forall s, tally (snd (m s)) = tally s.

(** A computation that counts one more file when it returns and leaves the
    tally as it is when it throws. *)
Definition counts (m : Exn.M (This W) unit) : Prop :=
  forall s,
    match m s with
    | (Exn.Return _, s') => tally s' = (S (fst (tally s)), snd (tally s))
    | (Exn.Throw _, s') => tally s' = tally s
    end.

End RunPredicates.

(** The message [transformFile] records for an error [e]. *)
Definition failure (filePath e : string) : string :=
  "Error transforming " +:+ filePath +:+ ": " +:+ e.

(** The state after [transform] has recorded the error [e] that ended the
    run. *)
Definition failed {W : Type} (e : string) (s : This W) : This W :=
  set_stats (push_error ("Transformation failed: " +:+ e)) s.

(** [t] is what is left of [s] after some of its first characters. *)
Definition ends_with (t s : string) : Prop := exists pre, s = pre +:+ t.

(** The sum of the counters of [reasons]. *)
Definition sum_of (m : list (string * nat)) : nat :=
  fold_right (fun entry n => (snd entry + n)%nat) 0%nat m.

(** A use of a validator: a call of [isValidTranslationText] or of
    [validateWithDetails]. *)
Inductive Call :=
| Validate (fragment : string)
| Details (fragment : string).

Definition text_of (c : Call) : string :=
  match c with Validate fragment | Details fragment => fragment end.

Definition call (config : I18nConfig) (st : TextValidator.SkipStats) (c : Call)
  : TextValidator.SkipStats :=
  match c with
  | Validate fragment =>
      snd (TextValidator.isValidTranslationText_recording config fragment st)
  | Details fragment => snd (TextValidator.validateWithDetails config fragment st)
  end.

(** The hash of [createHash] without the reduction to 32 bits:
    c0 * 31^(n-1) + ... + c(n-1). *)
Definition polynomial (l : list ascii) : Z :=
  fold_left (fun h c => (31 * h + Z.of_nat (Js.code c))%Z) l 0%Z.

(** [r.test(s)] as a search: is there a match at the start of [s], or
    further on. *)
Fixpoint found_from (r : Re.regex) (b : option ascii) (s : string) : bool :=
  match Re.match_at r b s with
  | Some _ => true
  | None =>
      match s with
      | EmptyString => false
      | String c s' => found_from r (Some c) s'
      end
  end.

(** A callback of a rewrite either gives the matched text back and leaves
    the registry and the counter as they are, or counts one more text. *)
Definition steady
    (f : I18nTransformer.Rewrite -> string -> list (nat * string)
         -> I18nTransformer.Rewrite * string) : Prop :=
  forall st m g, f st m g = (st, m) \/ snd (fst (f st m g)) = S (snd st).

(** A pass of a rewrite from the state [st] on the text [s]: the counter does
    not go down, and if it stays then nothing has changed. *)
Definition pass (st : I18nTransformer.Rewrite) (s : string)
    (result : I18nTransformer.Rewrite * string) : Prop :=
  (snd st <= snd (fst result))%nat /\
  (snd (fst result) = snd st -> result = (st, s)).

(** Every entry of [keys1] is in [keys2], under the same key. *)
Definition extends (keys1 keys2 : I18nTransformer.Registry) : Prop :=
  forall text key, Assoc.get text keys1 = Some key -> Assoc.get text keys2 = Some key.

(** What an extraction record of the file [filePath] holds when the
    registry is [keys]. *)
Definition sound_extraction (config : I18nConfig) (filePath : string)
    (keys : I18nTransformer.Registry) (e : TextExtraction) : Prop :=
  TextValidator.isValidTranslationText config (te_text e) = true /\
  Js.trim (te_text e) = te_text e /\
  Assoc.get (te_text e) keys = Some (te_key e) /\
  te_filePath e = filePath /\
  (1 <= te_line e)%nat /\ (1 <= te_column e)%nat.

(** A module after whose import [addTranslationImport] of the structural
    transformer places the new import. *)
Definition anchors (moduleSpec : string) : bool :=
  Js.includes moduleSpec "react" || Js.startsWith "@/" moduleSpec
  || Js.startsWith "./" moduleSpec.

(** A file that imports the translation module and holds no text to
    translate, and a project made of it. *)
Definition constantsText : string :=
  "import { useTranslation } from 'react-i18next'; export const answer = 42;".

Definition constantsFile : I18nTransformer.SourceFile :=
  I18nTransformer.mkSourceFile "src/constants.tsx" constantsText ["react-i18next"] []
    [[I18nTransformer.mkVariable "answer" (Some I18nTransformer.OtherExpression)]] [].

Definition constantsProject : Demo.Disk :=
  Demo.mkDisk [("src/constants.tsx", constantsText)]
    [("src/constants.tsx", constantsFile)] [] [].

(** The catalog file of a language. *)
Definition catalogFile (config : I18nConfig) (lang : string) : string :=
  path_join (outputDir config) (lang +:+ ".json").

(** The project of the heading, with a catalog file that holds [null]:
    the es catalog, or the source catalog. *)
Definition nullTarget : Demo.Disk :=
  Demo.mkDisk [("src/Title.tsx", Demo.heading)] [("src/Title.tsx", Demo.headingFile)]
    [(catalogFile defaultConfig "es", JNull)] [].

Definition nullSource : Demo.Disk :=
  Demo.mkDisk [("src/Title.tsx", Demo.heading)] [("src/Title.tsx", Demo.headingFile)]
    [(catalogFile defaultConfig "en", JNull)] [].

(** The world in which [transform] calls [findFiles] when it starts in
    [w]: reading the catalog leaves the world as it is, and the backup copy,
    when one is configured, is made before the search. *)
Definition worldOfSearch {W : Type} (host : Host W) (config : I18nConfig) (w : W) : W :=
  if Config.createBackup (advanced config)
  then snd (host_createBackup host config w)
  else w.

(** A language code: two letters a-z, or two letters a-z, a hyphen and two
    letters A-Z. *)
Definition language_code (s : string) : bool :=
  match chars s with
  | [a; b] => Js.lower_az a && Js.lower_az b
  | [a; b; c; d; e] =>
      Js.lower_az a && Js.lower_az b && Js.is_char "-" c
      && Js.upper_AZ d && Js.upper_AZ e
  | _ => false
  end.

(** What holds of the result of [transform] run from the state [s], and of
    the state [s'] it leaves: the result carries the statistics and the
    registry; a failure lists no modified file and no backup, and its last
    error is the failure of the run; after a success every file listed is
    counted as processed or has its error recorded. *)
Definition reported {W : Type} (s : This W) (result : TransformationResult)
    (s' : This W) : Prop :=
  stats result = this_stats s' /\
  res_translationKeys result = translationKeys s' /\
  (success result = false ->
   modifiedFiles result = [] /\ backupPath result = None /\
   exists earlier e,
     errors (stats result) = (earlier ++ ["Transformation failed: " +:+ e])%list) /\
  (success result = true ->
   (filesProcessed (stats result) + List.length (errors (stats result))
    = filesProcessed (this_stats s) + List.length (errors (this_stats s))
      + List.length (modifiedFiles result))%nat).

(** * Properties *)

(** Split a conjunction into its parts, and nothing else. *)
Ltac conjuncts := cbv zeta; repeat match goal with |- _ /\ _ => split end.

(** ** The classifier on the sample inputs *)

Section ClassifierSamples.
Import TextValidator.

(** The css-units rule recognises 100px, but it is declared with severity
    warning, and [isValidTranslationText] applies the rules of severity error
    only. *)
Lemma css_units_is_a_warning :
  option_map severity cssUnits = Some warning /\
  option_map (fun rule => Re.test (pattern rule) "100px") cssUnits = Some true.
Proof. conjuncts; vm_compute; reflexivity. Qed.

(** C1, as the code behaves: under the default configuration the classifier
    rejects true, 123, ./src/x and <div> and accepts Save Changes, but it
    accepts 100px, which the claim (and the test suite of the validator)
    expects to be rejected. *)
Theorem C1_classifier_samples :
  isValidTranslationText defaultConfig "true" = false /\
  isValidTranslationText defaultConfig "123" = false /\
  isValidTranslationText defaultConfig "./src/x" = false /\
  isValidTranslationText defaultConfig "<div>" = false /\
  isValidTranslationText defaultConfig "Save Changes" = true /\
  isValidTranslationText defaultConfig "100px" = true.
Proof. conjuncts; vm_compute; reflexivity. Qed.

(** The reasons recorded for the four rejections. *)
Lemma classifier_sample_reasons :
  map (classify defaultConfig) ["true"; "123"; "./src/x"; "<div>"]
  = [Some "technical-term"; Some "number"; Some "path"; Some "rule-jsx-expression"].
Proof. vm_compute. reflexivity. Qed.

End ClassifierSamples.

(** ** The rewrite applied to its own output *)

Section RewriteTwice.
Import I18nTransformer.

(** C2, as the code behaves: on [twoAttributes] the first application of
    [transformJSXElements] wraps the alt text only, and the application to its
    own output wraps Hello world as well: the content changes again and the
    second count is 1, not 0. *)
Theorem C2_second_pass_rewrites_again :
  content firstPass
    = Js.dq "<img alt={t('x title=')} title=`if title='Hello world'` />" /\
  count firstPass = 1 /\
  content secondPass
    = Js.dq "<img alt={t('x title=')} title=`if title={t('Hello world')}` />" /\
  count secondPass = 1 /\
  content secondPass <> content firstPass.
Proof. conjuncts; try (vm_compute; reflexivity). vm_compute. discriminate. Qed.

(** The pattern-based transformer does the same on this input. *)
Lemma second_pass_rewrites_again_js :
  let first := JavaScriptTransformer.transformJSXElements defaultConfig twoAttributes [] in
  let second := JavaScriptTransformer.transformJSXElements defaultConfig
                  (content first) (keysAfter first) in
  count first = 1 /\ count second = 1 /\ content second <> content first.
Proof. conjuncts; try (vm_compute; reflexivity). vm_compute. discriminate. Qed.

(** On the markup of the end-to-end scenario the second application changes
    nothing. *)
Lemma scenario_is_stable :
  let source := Js.dq "<div><h1>Welcome</h1><input placeholder=`Enter email` /></div>" in
  let first := transformJSXElements defaultConfig source [] in
  let second := transformJSXElements defaultConfig (content first) (keysAfter first) in
  content first
    = "<div><h1>{t('Welcome')}</h1><input placeholder={t('Enter email')} /></div>" /\
  count first = 2 /\ content second = content first /\ count second = 0.
Proof. conjuncts; vm_compute; reflexivity. Qed.

End RewriteTwice.

(** ** Facts about insertion-ordered maps *)

Section AssocFacts.
Import Assoc.

Lemma get_set_eq (k v : string) (m : Assoc.t) : get k (set k v m) = Some v.
Proof.
  induction m as [|[k' v'] m IH]; simpl.
  - now rewrite String.eqb_refl.
  - destruct (String.eqb k k') eqn:E; simpl; rewrite ?String.eqb_refl, ?E; auto.
Qed.

Lemma get_set_ne (k k' v : string) (m : Assoc.t) :
  k <> k' -> get k (set k' v m) = get k m.
Proof.
  intros Hne. induction m as [|[k0 v0] m IH]; simpl.
  - apply String.eqb_neq in Hne. now rewrite Hne.
  - destruct (String.eqb k' k0) eqn:E; simpl.
    + apply String.eqb_eq in E. subst k0.
      apply String.eqb_neq in Hne. now rewrite Hne.
    + now rewrite IH.
Qed.


Lemma get_None (k : string) (m : Assoc.t) : get k m = None <-> ~ In k (keys m).
Proof.
  induction m as [|[k' v'] m IH]; simpl; [tauto|].
  destruct (String.eqb k k') eqn:E.
  - apply String.eqb_eq in E. subst. split; [discriminate | intros H; exfalso; auto].
  - apply String.eqb_neq in E. rewrite IH. intuition congruence.
Qed.

Lemma In_set (a b k v : string) (m : Assoc.t) :
  In (a, b) (set k v m) -> (a, b) = (k, v) \/ In (a, b) m.
Proof.
  induction m as [|[k' v'] m IH]; simpl.
  - intros [H|[]]. now left.
  - destruct (String.eqb k k'); simpl; intros [H|H]; auto.
    destruct (IH H); auto.
Qed.


End AssocFacts.

(** ** Facts about plain objects *)

Section ObjFacts.

Lemma get_last (k k' v : string) (o : Obj.t) :
  Assoc.get k (o ++ [(k', v)])%list
  = match Assoc.get k o with
    | Some x => Some x
    | None => if String.eqb k k' then Some v else None
    end.
Proof.
  induction o as [|[a b] o IH]; simpl; [reflexivity|].
  now destruct (String.eqb k a).
Qed.

Lemma own_insert_index (n : N) (k k' v : string) (o : Obj.t) :
  Obj.own k' o = None ->
  Obj.own k (Obj.insert_index n k' v o)
  = if String.eqb k k' then Some v else Obj.own k o.
Proof.
  unfold Obj.own. induction o as [|[a b] o IH]; simpl; intros H.
  - reflexivity.
  - destruct (String.eqb k' a) eqn:Ea; [discriminate|].
    destruct (Obj.arrayIndex a) as [m|]; [destruct (m <? n)%N|]; simpl;
      try reflexivity.
    rewrite (IH H). destruct (String.eqb k a) eqn:E; [|reflexivity].
    apply String.eqb_eq in E. subst a.
    rewrite String.eqb_sym in Ea. now rewrite Ea.
Qed.


(** A write of a name other than [__proto__], or of an own property, takes
    effect. *)
Lemma own_set_eq (k v : string) (o : Obj.t) :
  k <> "__proto__" \/ Obj.own k o <> None ->
  Obj.own k (Obj.set k v o) = Some v.
Proof.
  intros H. unfold Obj.set.
  destruct (Obj.own k o) as [x|] eqn:E.
  - apply get_set_eq.
  - destruct H as [H|H]; [|congruence].
    apply String.eqb_neq in H. rewrite H.
    destruct (Obj.arrayIndex k) as [n|].
    + rewrite own_insert_index by exact E. now rewrite String.eqb_refl.
    + unfold Obj.own in *. rewrite get_last, E. now rewrite String.eqb_refl.
Qed.

Lemma own_set_ne (k k' v : string) (o : Obj.t) :
  k <> k' -> Obj.own k (Obj.set k' v o) = Obj.own k o.
Proof.
  intros Hne. unfold Obj.set.
  destruct (Obj.own k' o) as [x|] eqn:E.
  - now apply get_set_ne.
  - destruct (String.eqb k' "__proto__"); [reflexivity|].
    apply String.eqb_neq in Hne.
    destruct (Obj.arrayIndex k') as [n|].
    + rewrite own_insert_index by exact E. now rewrite Hne.
    + unfold Obj.own. rewrite get_last, Hne. now destruct (Assoc.get k o).
Qed.

(** The write of [__proto__] to an object without an own property of that
    name changes nothing. *)
Lemma set_proto (v : string) (o : Obj.t) :
  Obj.own "__proto__" o = None -> Obj.set "__proto__" v o = o.
Proof. intros H. unfold Obj.set. now rewrite H. Qed.



End ObjFacts.

(** ** Trimming twice *)

Section TrimFacts.
Import Js.

Lemma trimEnd_idempotent (s : string) : trimEnd (trimEnd s) = trimEnd s.
Proof.
  induction s as [|c r IH]; simpl; [reflexivity|].
  destruct (trimEnd r) as [|c' r'] eqn:E.
  - destruct (space c) eqn:Hc; simpl; [reflexivity|]. now rewrite Hc.
  - simpl in *. now rewrite IH.
Qed.

Lemma trimStart_clean (s : string) : starts_clean (trimStart s).
Proof.
  induction s as [|c r IH]; simpl; [exact I|].
  destruct (space c) eqn:Hc; simpl; auto.
Qed.

Lemma trimStart_of_clean (s : string) : starts_clean s -> trimStart s = s.
Proof. destruct s as [|c r]; simpl; [reflexivity|]. now intros ->. Qed.

Lemma trimEnd_clean (s : string) : starts_clean s -> starts_clean (trimEnd s).
Proof.
  destruct s as [|c r]; simpl; [auto|]. intros Hc.
  destruct (trimEnd r); simpl; [now rewrite Hc | assumption].
Qed.

Lemma trim_idempotent (s : string) : trim (trim s) = trim s.
Proof.
  unfold trim.
  rewrite (trimStart_of_clean (trimEnd (trimStart s))).
  - apply trimEnd_idempotent.
  - apply trimEnd_clean, trimStart_clean.
Qed.

End TrimFacts.

(** ** The registry *)

Section RegistryFacts.
Import I18nTransformer.

Lemma getOrCreateKey_again (config : I18nConfig) (text : string) (keys : Registry) :
  getOrCreateKey config text (snd (getOrCreateKey config text keys))
  = getOrCreateKey config text keys.
Proof.
  unfold getOrCreateKey.
  destruct (Assoc.get (Js.trim text) keys) as [key|] eqn:E; simpl.
  - now rewrite E.
  - now rewrite get_set_eq.
Qed.

Lemma getOrCreateKey_registers (config : I18nConfig) (text : string) (keys : Registry) :
  Assoc.get (Js.trim text) (snd (getOrCreateKey config text keys))
  = Some (fst (getOrCreateKey config text keys)).
Proof.
  unfold getOrCreateKey.
  destruct (Assoc.get (Js.trim text) keys) as [key|] eqn:E; simpl; auto.
  apply get_set_eq.
Qed.

(** First seen wins: a text that has a key keeps it. *)
Lemma getOrCreateKey_keeps (config : I18nConfig) (text other key : string)
    (keys : Registry) :
  Assoc.get text keys = Some key ->
  Assoc.get text (snd (getOrCreateKey config other keys)) = Some key.
Proof.
  intros H. unfold getOrCreateKey.
  destruct (Assoc.get (Js.trim other) keys) as [k|] eqn:E; simpl; auto.
  rewrite get_set_ne; auto. intros ->. congruence.
Qed.












Lemma getOrCreateKey_keyed_by_text (config : I18nConfig) (text : string)
    (keys : Registry) :
  keyStrategy (format config) = Config.text ->
  keyed_by_text keys -> keyed_by_text (snd (getOrCreateKey config text keys)).
Proof.
  intros Hs Hk. unfold getOrCreateKey.
  destruct (Assoc.get (Js.trim text) keys) as [k|] eqn:E; simpl; auto.
  intros t k Hin. apply In_set in Hin as [[= -> ->]|Hin]; auto.
  rewrite Hs. simpl. apply trim_idempotent.
Qed.

Lemma keyed_by_text_injective (keys : Registry) : keyed_by_text keys -> injective keys.
Proof.
  intros Hk text1 text2 key H1 H2.
  apply Hk in H1, H2. congruence.
Qed.

(** C4, as the code behaves under the hash strategy: the two texts Aa and BB
    are registered under the same key text_1mo. *)
Lemma C4_hash_keys_collide :
  ~ injective (resolveAll (withStrategy hash defaultConfig) ["Aa"; "BB"] []).
Proof.
  assert (E : resolveAll (withStrategy hash defaultConfig) ["Aa"; "BB"] []
              = [("Aa", "text_1mo"); ("BB", "text_1mo")])
    by (vm_compute; reflexivity).
  rewrite E. intros H.
  specialize (H "Aa" "BB" "text_1mo" (or_introl eq_refl) (or_intror (or_introl eq_refl))).
  discriminate H.
Qed.

(** Both texts pass the classifier, so a file can bring them to the
    registry. *)
Lemma colliding_texts_are_accepted :
  TextValidator.isValidTranslationText defaultConfig "Aa" = true /\
  TextValidator.isValidTranslationText defaultConfig "BB" = true.
Proof. conjuncts; vm_compute; reflexivity. Qed.

(** The path and the custom strategy share keys as well. *)
Lemma path_and_custom_keys_collide :
  ~ injective (resolveAll (withStrategy path defaultConfig) ["Hello"; "Hello!"] []) /\
  ~ injective (resolveAll (withStrategy custom defaultConfig) ["Hello"; "Hello!"] []).
Proof.
  split.
  - assert (E : resolveAll (withStrategy path defaultConfig) ["Hello"; "Hello!"] []
                = [("Hello", "hello"); ("Hello!", "hello")])
      by (vm_compute; reflexivity).
    rewrite E. intros H.
    specialize (H "Hello" "Hello!" "hello" (or_introl eq_refl) (or_intror (or_introl eq_refl))).
    discriminate H.
  - assert (E : resolveAll (withStrategy custom defaultConfig) ["Hello"; "Hello!"] []
                = [("Hello", "hello"); ("Hello!", "hello")])
      by (vm_compute; reflexivity).
    rewrite E. intros H.
    specialize (H "Hello" "Hello!" "hello" (or_introl eq_refl) (or_intror (or_introl eq_refl))).
    discriminate H.
Qed.

(** C4, amended: under the text strategy, in a run that starts from a
    registry in which every key is its own text (the empty registry, or one
    seeded from a catalog the text strategy wrote), no key is assigned to two
    different texts. *)
Theorem C4_text_keys_injective (config : I18nConfig) (texts : list string)
    (keys : Registry) :
  keyStrategy (format config) = Config.text ->
  keyed_by_text keys ->
  injective (resolveAll config texts keys).
Proof.
  intros Hs Hk. apply keyed_by_text_injective.
  revert keys Hk. induction texts as [|t texts IH]; simpl; intros keys Hk; auto.
  apply IH, getOrCreateKey_keyed_by_text; assumption.
Qed.

Lemma C4_text_keys_injective_witness :
  injective (resolveAll defaultConfig ["Save Changes"; " Welcome "; "Cancel"]
               [("Welcome", "Welcome")]).
Proof.
  apply C4_text_keys_injective.
  - reflexivity.
  - intros text key [[= <- <-]|[]]. reflexivity.
Defined.

End RegistryFacts.

(** ** The catalog writer *)

Section CatalogFacts.
Import I18nTransformer.

Lemma mentions_In (k : string) (l : list string) : mentions k l = true <-> In k l.
Proof.
  unfold mentions. rewrite existsb_exists. split.
  - intros [x [Hin E]]. apply String.eqb_eq in E. now subst.
  - intros H. exists k. split; [assumption | apply String.eqb_refl].
Qed.

Lemma sort_insert_In (x k : string) (l : list string) :
  In x (sort_insert k l) <-> x = k \/ In x l.
Proof.
  induction l as [|y l IH]; simpl; [intuition|].
  destruct (String.leb k y); simpl; [intuition|].
  rewrite IH. intuition.
Qed.

Lemma sort_In (x : string) (l : list string) : In x (sort l) <-> In x l.
Proof.
  induction l as [|y l IH]; simpl; [tauto|].
  rewrite sort_insert_In, IH. intuition.
Qed.

Lemma own_keys (k : string) (o : Obj.t) : Obj.own k o <> None <-> In k (Obj.keys o).
Proof.
  unfold Obj.own, Obj.keys.
  destruct (in_dec string_dec k (map fst o)) as [Hin|Hn].
  - split; [auto|]. intros _ H. apply get_None in H. auto.
  - split; [|contradiction]. intros H. apply get_None in Hn. contradiction.
Qed.

Lemma mentions_cons (k x : string) (l : list string) :
  mentions k (x :: l) = String.eqb k x || mentions k l.
Proof. reflexivity. Qed.

(** The sorted copy has the own properties of the object, [__proto__]
    apart. *)
Lemma sortObjectKeys_own (obj : Obj.t) (k : string) :
  Obj.own k (sortObjectKeys obj)
  = if String.eqb k "__proto__" then None else Obj.own k obj.
Proof.
  unfold sortObjectKeys.
  assert (G : forall l sorted,
             Obj.own "__proto__" sorted = None ->
             Obj.own k (fold_left (fun sorted key =>
                 match Obj.own key obj with
                 | Some v => Obj.set key v sorted
                 | None => sorted
                 end) l sorted)
             = if String.eqb k "__proto__" then None
               else match Obj.own k obj with
                    | Some v => if mentions k l then Some v else Obj.own k sorted
                    | None => Obj.own k sorted
                    end).
  { induction l as [|x l IH]; intros sorted Hp; cbn [fold_left].
    - destruct (String.eqb_spec k "__proto__") as [->|_]; [exact Hp|].
      now destruct (Obj.own k obj).
    - rewrite IH.
      + destruct (String.eqb_spec k "__proto__") as [->|Hk]; [reflexivity|].
        rewrite mentions_cons.
        destruct (String.eqb_spec k x) as [<-|Hx]; cbn [orb].
        * destruct (Obj.own k obj) as [v|]; [|reflexivity].
          rewrite own_set_eq by now left. now destruct (mentions k l).
        * destruct (Obj.own k obj) as [v|], (Obj.own x obj) as [vx|];
            rewrite ?own_set_ne by exact Hx; reflexivity.
      + destruct (Obj.own x obj) as [vx|]; [|exact Hp].
        destruct (String.eqb_spec x "__proto__") as [->|Hx].
        * now rewrite set_proto.
        * rewrite own_set_ne; [exact Hp | congruence]. }
  rewrite G by reflexivity.
  destruct (String.eqb k "__proto__"); [reflexivity|].
  destruct (Obj.own k obj) as [v|] eqn:Ek; [|reflexivity].
  replace (mentions k (sort (Obj.keys obj))) with true; [reflexivity|].
  symmetry. apply mentions_In, sort_In, own_keys. congruence.
Qed.

(** The target object after the loop: what it had, and an empty text for
    each key of the source catalog that it neither had nor inherits. *)
Lemma addNewKeys_own (sorted existing : Obj.t) (k : string) :
  Obj.own k (addNewKeys sorted existing)
  = match Obj.own k existing with
    | Some v => Some v
    | None => if mentions k (Obj.keys sorted) && negb (Obj.inherited k)
              then Some EmptyString else None
    end.
Proof.
  unfold addNewKeys. generalize (Obj.keys sorted) as l. intros l. revert existing.
  induction l as [|x l IH]; intros target; cbn [fold_left].
  - now destruct (Obj.own k target).
  - rewrite IH, mentions_cons. unfold missing, Obj.truthy.
    destruct (String.eqb_spec k x) as [<-|Hx]; cbn [orb].
    + destruct (Obj.own k target) as [v|] eqn:Ek.
      * destruct (String.eqb_spec v EmptyString) as [->|Hv]; cbn [negb].
        -- rewrite own_set_eq; [reflexivity | right; congruence].
        -- now rewrite Ek.
      * destruct (Obj.inherited k) eqn:Ei; cbn [negb].
        -- rewrite Ek, andb_false_r. reflexivity.
        -- rewrite own_set_eq; [reflexivity|].
           left. intros ->. discriminate Ei.
    + assert (E : forall v, Obj.own k (Obj.set x v target) = Obj.own k target)
        by (intros v; now apply own_set_ne).
      destruct (Obj.own x target) as [vx|].
      * destruct (negb (negb (String.eqb vx EmptyString))); now rewrite ?E.
      * destruct (negb (Obj.inherited x)); now rewrite ?E.
Qed.

Lemma sortedTarget_own (config : I18nConfig) (sorted existing : Obj.t) (k : string) :
  Obj.own k (sortedTarget config sorted existing)
  = if sortKeys (format config) && String.eqb k "__proto__" then None
    else match Obj.own k existing with
         | Some v => Some v
         | None => if mentions k (Obj.keys sorted) && negb (Obj.inherited k)
                   then Some EmptyString else None
         end.
Proof.
  unfold sortedTarget. destruct (sortKeys (format config)); cbn [andb].
  - rewrite sortObjectKeys_own.
    destruct (String.eqb k "__proto__"); [reflexivity | apply addNewKeys_own].
  - apply addNewKeys_own.
Qed.

(** The merge on the keys that are not names of [Object.prototype]: in the
    catalog written for a target language, every such key of the existing
    target file keeps its value, and every such key of the source catalog
    that the target file lacks is added with the empty string. *)
Lemma merge_of_other_keys (config : I18nConfig) (sorted existing : Obj.t) (key : string) :
  Obj.inherited key = false ->
  (forall value,
      Obj.own key existing = Some value ->
      Obj.own key (sortedTarget config sorted existing) = Some value) /\
  (In key (Obj.keys sorted) -> Obj.own key existing = None ->
   Obj.own key (sortedTarget config sorted existing) = Some EmptyString).
Proof.
  intros Hi.
  assert (Hp : String.eqb key "__proto__" = false).
  { apply String.eqb_neq. intros ->. discriminate Hi. }
  split.
  - intros value H. rewrite sortedTarget_own, Hp, andb_false_r. now rewrite H.
  - intros Hin H. rewrite sortedTarget_own, Hp, andb_false_r, H, Hi.
    apply mentions_In in Hin. now rewrite Hin.
Qed.

(** C5, as the code behaves: the text constructor passes the classifier and
    the run that resolves it writes the key constructor to the source
    catalog; the es catalog, which lacks that key, is written without it,
    because [targetTranslations[key]] finds the member that every object
    inherits from [Object.prototype]; the other new key is added with the
    empty string. And a target file whose object has a property named
    [__proto__] loses it, value and all, when the keys are sorted. *)
Theorem C5_inherited_name_is_not_added :
  let keys := resolveAll defaultConfig ["constructor"; "Get Started"] [] in
  let source := sortedTranslations defaultConfig keys in
  TextValidator.isValidTranslationText defaultConfig "constructor" = true /\
  Obj.own "constructor" source = Some "constructor" /\
  Obj.own "constructor" esBefore = None /\
  Obj.own "constructor" (sortedTarget defaultConfig source esBefore) = None /\
  Obj.own "Get Started" (sortedTarget defaultConfig source esBefore) = Some EmptyString /\
  Obj.own "Welcome" (sortedTarget defaultConfig source esBefore) = Some "Bienvenido" /\
  Obj.own "__proto__" (sortedTarget defaultConfig source [("__proto__", "valor")]) = None.
Proof. vm_compute. conjuncts; reflexivity. Qed.

(** The sorted copy lists the array indices first, by their value, and
    then the other keys by their code units. *)
Lemma sortObjectKeys_indices_first :
  sort ["b"; "9"; "a"; "10"; "007"] = ["007"; "10"; "9"; "a"; "b"] /\
  sortObjectKeys [("b", "1"); ("9", "2"); ("a", "3"); ("10", "4"); ("007", "5")]
  = [("9", "2"); ("10", "4"); ("007", "5"); ("a", "3"); ("b", "1")].
Proof. vm_compute. conjuncts; reflexivity. Qed.

Lemma scenario_es_catalog :
  sortedTarget defaultConfig enAfter esBefore
  = [("Get Started", EmptyString); ("Welcome", "Bienvenido")].
Proof. vm_compute. reflexivity. Qed.




End CatalogFacts.

(** ** Which kind of component *)

Section ComponentKind.

(** C9, as the code behaves: for a file with a top-level helper function and
    an exported class, the structural transformer answers function style with
    the name of the file, because it looks at the classes only when the file
    has neither a function declaration nor a variable statement; the
    pattern-based transformer answers class style for the same text. *)
Theorem C9_class_is_checked_last :
  let info := I18nTransformer.analyzeComponent defaultConfig Demo.helperAndClassFile in
  let info_js :=
    JavaScriptTransformer.analyzeComponent defaultConfig Demo.helperAndClass "src/Card.jsx" in
  (ci_type info = function /\ ci_name info = "Card") /\
  (ci_type info_js = class /\ ci_name info_js = "Profile").
Proof. conjuncts; vm_compute; reflexivity. Qed.

(** The order of the structural transformer: function declarations, then
    variable statements, then classes. *)
Lemma scanVariableStatements_style (l : list (list I18nTransformer.VariableDeclaration))
    (start : string * ComponentType) :
  snd start <> class -> snd (I18nTransformer.scanVariableStatements l start) <> class.
Proof.
  unfold I18nTransformer.scanVariableStatements.
  revert start. induction l as [|d l IH]; simpl; intros start H; auto.
  apply IH. destruct (find _ d); simpl; [discriminate | assumption].
Qed.

(** X22: the structural transformer looks at the functions of a file first,
    then at its variable statements, and at its classes last: a file with a
    function is given the function style; a file without a function and with
    a variable statement is never given the class style; a file with
    neither and with an exported class is given the class style. *)
Lemma structural_order (config : I18nConfig) (f : I18nTransformer.SourceFile) :
  let info := I18nTransformer.analyzeComponent config f in
  (I18nTransformer.getFunctions f <> [] -> ci_type info = function) /\
  (I18nTransformer.getFunctions f = [] ->
   I18nTransformer.getVariableStatements f <> [] -> ci_type info <> class) /\
  (I18nTransformer.getFunctions f = [] ->
   I18nTransformer.getVariableStatements f = [] ->
   forall c, find I18nTransformer.cls_isExported (I18nTransformer.getClasses f) = Some c ->
             ci_type info = class).
Proof.
  unfold I18nTransformer.analyzeComponent.
  destruct (I18nTransformer.getFunctions f) as [|fn fns] eqn:Ef;
    destruct (I18nTransformer.getVariableStatements f) as [|v vs] eqn:Ev;
    destruct (I18nTransformer.getClasses f) as [|c cs] eqn:Ec; cbv zeta.
  all: split; [|split]; try congruence; intros.
  all: try discriminate.
  all: try (destruct (find I18nTransformer.fn_isExported (fn :: fns)); reflexivity).
  all: try (match goal with H : find _ (_ :: _) = Some _ |- _ => rewrite H; reflexivity end).
  all: match goal with
       | |- context [I18nTransformer.scanVariableStatements ?l ?a] =>
           pose proof (scanVariableStatements_style l a) as G;
           destruct (I18nTransformer.scanVariableStatements l a); simpl in *;
           apply G; discriminate
       end.
Qed.

End ComponentKind.

(** ** Errors during a run *)

Section RunFacts.
Import Exn.
Context {W : Type}.

Lemma bind_return {A B : Type} (m : M (This W) A) (f : A -> M (This W) B)
    (s s' : This W) (a : A) :
  m s = (Return a, s') -> bind m f s = f a s'.
Proof. unfold bind. now intros ->. Qed.


Lemma keeps_ret {A : Type} (a : A) : keeps (W:=W) (ret a).
Proof. intros s. reflexivity. Qed.

Lemma keeps_get : keeps (W:=W) get.
Proof. intros s. reflexivity. Qed.

Lemma keeps_modify (f : This W -> This W) :
  (forall s, tally (f s) = tally s) -> keeps (W:=W) (modify f).
Proof. intros H s. apply H. Qed.

Lemma keeps_reading {A : Type} (f : W -> Outcome A) : keeps (W:=W) (reading f).
Proof. intros s. reflexivity. Qed.

Lemma keeps_writing {A : Type} (f : W -> Outcome A * W) : keeps (W:=W) (writing f).
Proof. intros s. unfold writing. destruct (f (world s)). reflexivity. Qed.

Lemma keeps_lift {A : Type} (o : Outcome A) : keeps (W:=W) (I18nTransformer.lift o).
Proof. intros s. reflexivity. Qed.

Lemma keeps_bind {A B : Type} (m : M (This W) A) (f : A -> M (This W) B) :
  keeps (W:=W) m -> (forall a, keeps (W:=W) (f a)) -> keeps (W:=W) (bind m f).
Proof.
  intros Hm Hf s. unfold bind. specialize (Hm s).
  destruct (m s) as [[a|e] s1]; simpl in *.
  - rewrite <- Hm. apply Hf.
  - assumption.
Qed.

Lemma keeps_when (b : bool) (m : M (This W) unit) : keeps (W:=W) m -> keeps (W:=W) (when b m).
Proof. destruct b; simpl; auto using keeps_ret. Qed.

Lemma counts_bind {A : Type} (m : M (This W) A) (f : A -> M (This W) unit) :
  keeps (W:=W) m -> (forall a, counts (W:=W) (f a)) -> counts (W:=W) (bind m f).
Proof.
  intros Hm Hf s. unfold bind. specialize (Hm s).
  destruct (m s) as [[a|e] s1]; simpl in *.
  - specialize (Hf a s1). rewrite Hm in Hf. exact Hf.
  - assumption.
Qed.

Lemma counts_filesProcessed : counts (W:=W) (modify (set_stats incr_filesProcessed)).
Proof. intros s. reflexivity. Qed.

End RunFacts.

Ltac keeps_step :=
  first
    [ apply keeps_ret
    | apply keeps_get
    | apply keeps_reading
    | apply keeps_writing
    | apply keeps_lift
    | apply keeps_when
    | apply keeps_modify; intros ?; reflexivity
    | apply keeps_bind; [|intros ?]
    | match goal with
      | |- keeps (if ?b then _ else _) => destruct b
      | |- keeps (match ?x with _ => _ end) => destruct x
      end ].

Ltac counts_step :=
  first
    [ apply counts_filesProcessed
    | apply counts_bind; [repeat keeps_step | intros ?]
    | match goal with
      | |- counts (let '(_, _) := ?x in _) => destruct x
      end ].

Section StructuralRun.
Import Exn I18nTransformer.
Context {W : Type} (host : Host W) (tsm : TsMorph W) (config : I18nConfig).

Lemma transformFile_try_counts (filePath : string) :
  counts (transformFile_try tsm config filePath).
Proof. unfold transformFile_try, addTranslationImport, addTranslationHook. repeat counts_step. Qed.

Lemma transformFile_catches (filePath : string) (s : This W) :
  transformFile tsm config filePath s
  = match transformFile_try tsm config filePath s with
    | (Return _, s') => (Return tt, s')
    | (Throw e, s') => (Return tt, set_stats (push_error (failure filePath e)) s')
    end.
Proof.
  unfold transformFile, try_catch.
  destruct (transformFile_try tsm config filePath s) as [[[]|e] s']; reflexivity.
Qed.

(** Each file is either counted as processed or recorded as an error. *)
Lemma transformFile_accounts (filePath : string) (s : This W) :
  exists s',
    transformFile tsm config filePath s = (Return tt, s') /\
    (filesProcessed (this_stats s') + List.length (errors (this_stats s'))
     = S (filesProcessed (this_stats s) + List.length (errors (this_stats s))))%nat.
Proof.
  rewrite transformFile_catches.
  pose proof (transformFile_try_counts filePath s) as H.
  destruct (transformFile_try tsm config filePath s) as [[[]|e] s']; unfold tally in H.
  - exists s'. split; [reflexivity|]. injection H as -> ->. simpl. lia.
  - eexists. split; [reflexivity|]. injection H as H1 H2.
    simpl. rewrite H1, H2, length_app. simpl. lia.
Qed.

Lemma loop_accounts (files : list string) (s : This W) :
  exists s',
    forEach files (transformFile tsm config) s = (Return tt, s') /\
    (filesProcessed (this_stats s') + List.length (errors (this_stats s'))
     = filesProcessed (this_stats s) + List.length (errors (this_stats s))
       + List.length files)%nat.
Proof.
  revert s. induction files as [|f files IH]; intros s; simpl.
  - exists s. split; [reflexivity | lia].
  - destruct (transformFile_accounts f s) as [s1 [E1 H1]].
    destruct (IH s1) as [s2 [E2 H2]].
    exists s2. split; [|lia].
    now rewrite (bind_return _ _ _ _ _ E1).
Qed.


Lemma transform_catches (s : This W) :
  transform host tsm config s
  = match transform_try host tsm config s with
    | (Return result, s') => (Return result, s')
    | (Throw e, s') =>
        (Return (mkResult false (this_stats (failed e s'))
                   (translationKeys (failed e s')) [] None), failed e s')
    end.
Proof.
  unfold transform, try_catch.
  destruct (transform_try host tsm config s) as [[result|e] s']; reflexivity.
Qed.


End StructuralRun.

Section StructuralRunWitness.
Import Exn I18nTransformer.


End StructuralRunWitness.

(** ** Which files are saved, and which are reported *)

Section SavedAndReported.
Import Exn.

(** X23: a file that needs no import, in which nothing is extracted or
    rewritten and that needs no hook, is not saved by the structural
    transformer: the world after [transformFile] is the world before. *)
Lemma unchanged_file_is_not_saved {W : Type} (tsm : I18nTransformer.TsMorph W)
    (config : I18nConfig) (filePath : string) (s : This W)
    (sourceFile : I18nTransformer.SourceFile) :
  I18nTransformer.addSourceFileAtPath tsm filePath (world s) = Return sourceFile ->
  I18nTransformer.shouldAddImport config sourceFile = false ->
  (forall keys,
      fst (I18nTransformer.extractTexts config (I18nTransformer.getFullText sourceFile)
             (I18nTransformer.getFilePath sourceFile) keys) = []) ->
  (forall keys,
      I18nTransformer.count
        (I18nTransformer.transformJSXElements config
           (I18nTransformer.getFullText sourceFile) keys) = 0) ->
  I18nTransformer.shouldAddHook config
    (I18nTransformer.analyzeComponent config sourceFile) = false ->
  world (snd (I18nTransformer.transformFile tsm config filePath s)) = world s.
Proof.
  intros Hopen Himport Hextract Hcount Hhook.
  rewrite transformFile_catches.
  unfold I18nTransformer.transformFile_try.
  unfold bind at 1. unfold reading at 1. rewrite Hopen.
  unfold bind at 1. unfold modify at 1.
  rewrite Himport. unfold bind at 1. unfold ret at 1.
  unfold bind at 1. unfold get at 1. cbn [fst snd].
  match goal with
  | |- context [I18nTransformer.extractTexts ?c ?t ?p ?k] =>
      pose proof (Hextract k) as Hx;
      destruct (I18nTransformer.extractTexts c t p k) as [found keys']
  end.
  simpl in Hx. subst found.
  unfold bind at 1. unfold modify at 1.
  cbn [List.length Nat.ltb Nat.leb]. unfold bind at 1. unfold ret at 1.
  unfold bind at 1. unfold get at 1.
  unfold bind at 1. unfold modify at 1.
  rewrite Hcount. cbn [Nat.ltb Nat.leb].
  unfold bind at 1. unfold ret at 1. unfold bind at 1. unfold ret at 1.
  rewrite Hhook. unfold bind at 1. unfold ret at 1. cbn [fst snd].
  unfold bind at 1. unfold when, ret at 1. unfold modify. reflexivity.
Qed.

(** X24: the same for the pattern-based transformer: a file that needs no
    import, in which nothing is rewritten and that needs no hook, is not
    written. *)
Lemma unchanged_file_is_not_saved_js {W : Type} (host : Host W)
    (config : I18nConfig) (filePath : string) (s : This W) (content : string) :
  fs_readFile host filePath (world s) = Return content ->
  JavaScriptTransformer.shouldAddImport config content = false ->
  (forall keys,
      I18nTransformer.count
        (JavaScriptTransformer.transformJSXElements config content keys) = 0) ->
  JavaScriptTransformer.shouldAddHook config content
    (JavaScriptTransformer.analyzeComponent config content filePath) = false ->
  world (snd (JavaScriptTransformer.transformFile host config filePath s)) = world s.
Proof.
  intros Hread Himport Hcount Hhook.
  unfold JavaScriptTransformer.transformFile, try_catch,
    JavaScriptTransformer.transformFile_try.
  unfold bind at 1. unfold reading at 1. rewrite Hread.
  unfold bind at 1. unfold modify at 1.
  rewrite Himport. unfold bind at 1. unfold ret at 1.
  unfold bind at 1. unfold get at 1. cbn [fst snd].
  unfold bind at 1. unfold modify at 1.
  rewrite Hcount. cbn [Nat.ltb Nat.leb].
  unfold bind at 1. unfold ret at 1. cbn [fst snd].
  rewrite Hhook. unfold bind at 1. unfold ret at 1. cbn [fst snd].
  unfold bind at 1. unfold when, ret at 1. unfold modify. reflexivity.
Qed.

Lemma loadExistingTranslations_world {W : Type} (host : Host W) (config : I18nConfig)
    (s : This W) :
  world (snd (I18nTransformer.loadExistingTranslations host config s)) = world s.
Proof.
  unfold I18nTransformer.loadExistingTranslations, bind, reading, try_catch, modify,
    I18nTransformer.lift.
  destruct (fs_pathExists host _ (world s)); [|reflexivity].
  destruct (fs_readJson host _ (world s)) as [[|o]|e]; reflexivity.
Qed.

(** X25: a run of the structural transformer that succeeds reports every
    file it found: its modified files are the list that [findFiles] returned
    in the world of the run, which is the world the run started in, after the
    backup copy when one is configured. *)
Lemma reported_files_are_the_files_found {W : Type} (host : Host W)
    (tsm : I18nTransformer.TsMorph W) (config : I18nConfig) (s s' : This W)
    (result : TransformationResult) :
  I18nTransformer.transform host tsm config s = (Return result, s') ->
  success result = true ->
  host_findFiles host config (worldOfSearch host config (world s))
  = Return (modifiedFiles result).
Proof.
  rewrite transform_catches. unfold I18nTransformer.transform_try.
  unfold bind at 1.
  destruct (I18nTransformer.transform_files host tsm config s) as [[found|e] s1] eqn:Ef.
  2: { intros [= <- _]. discriminate. }
  unfold bind at 1.
  destruct (I18nTransformer.generateTranslationFiles host config s1) as [[[]|e] s2].
  2: { intros [= <- _]. discriminate. }
  unfold bind at 1.
  destruct (when _ _ s2) as [[[]|e] s3].
  2: { intros [= <- _]. discriminate. }
  unfold bind, get, ret. intros [= <- _] _. cbn [modifiedFiles].
  revert Ef. unfold I18nTransformer.transform_files.
  unfold bind at 1.
  pose proof (loadExistingTranslations_world host config s) as L.
  destruct (I18nTransformer.loadExistingTranslations host config s) as [[[]|e] s0];
    [|discriminate].
  cbn [snd] in L. unfold bind at 1. unfold worldOfSearch.
  destruct (Config.createBackup (advanced config)).
  - unfold bind at 1. unfold writing at 1. rewrite L.
    destruct (host_createBackup host config (world s)) as [[p|e] w]; [|discriminate].
    unfold ret at 1. cbn [snd]. unfold bind at 1. unfold reading at 1.
    cbn [world set_world].
    destruct (host_findFiles host config w) as [files|e] eqn:Eg; [|discriminate].
    unfold bind at 1.
    match goal with
    | |- context [forEach files ?f ?st] =>
        destruct (forEach files f st) as [[[]|e] sl]; [|discriminate]
    end.
    unfold ret. now intros [= <- _].
  - unfold ret at 1. unfold bind at 1. unfold reading at 1. rewrite L.
    destruct (host_findFiles host config (world s)) as [files|e] eqn:Eg; [|discriminate].
    unfold bind at 1.
    destruct (forEach files _ s0) as [[[]|e] sl]; [|discriminate].
    unfold ret. now intros [= <- _].
Qed.

(** C8, as the code behaves: in a project whose only file holds no text to
    translate, the pattern-based transformer adds no import, rewrites nothing
    and adds no hook, the file is not written and stays as it was, and yet
    the result of the run lists the file among the modified files. *)
Theorem C8_unmodified_file_is_reported :
  let run :=
    JavaScriptTransformer.transform Demo.host defaultConfig (Demo.start Demo.constantsOnly) in
  match fst run with
  | Return result =>
      success result = true /\
      importsAdded (stats result) = 0 /\
      textsTransformed (stats result) = 0 /\
      hooksAdded (stats result) = 0 /\
      modifiedFiles result = ["src/constants.jsx"]
  | Throw _ => False
  end /\
  Demo.written (world (snd run)) = [] /\
  Demo.sources (world (snd run)) = Demo.sources Demo.constantsOnly.
Proof. vm_compute. conjuncts; reflexivity. Qed.

End SavedAndReported.

(** ** Texts without ASCII letters *)

Section EmptyKeysInGeneral.
Import Re.

Lemma match_at_Chr (f : ascii -> bool) (b : option ascii) (s : string) :
  match_at (Chr f) b s
  = match s with
    | String c r => if f c then Some (mkPos (Some c) r []) else None
    | EmptyString => None
    end.
Proof. destruct s; reflexivity. Qed.

Lemma replace_loop_Chr (f : ascii -> bool) (s : string) :
  forall fuel b,
    (String.length s < fuel)%nat ->
    snd (replace_loop fuel (Chr f) (fun (u : unit) _ _ => (u, EmptyString)) b s tt)
    = without f s.
Proof.
  induction s as [|c r IH]; intros [|fuel] b Hf; simpl in Hf; try lia.
  - reflexivity.
  - cbn [replace_loop]. rewrite match_at_Chr.
    destruct (f c) eqn:Hc; cbn [without]; rewrite Hc.
    + unfold consumed. cbn [rest before String.length].
      replace (S (String.length r) - String.length r)%nat with 1%nat by lia.
      cbn [Js.take].
      specialize (IH fuel (Some c) ltac:(lia)).
      destruct (replace_loop fuel (Chr f) _ (Some c) r tt) as [u tail].
      simpl in *. assumption.
    + specialize (IH fuel (Some c) ltac:(lia)).
      destruct (replace_loop fuel (Chr f) _ (Some c) r tt) as [u tail].
      simpl in *. now rewrite IH.
Qed.

Lemma replace_all_Chr (f : ascii -> bool) (s : string) :
  replace_all (Chr f) EmptyString s = without f s.
Proof. unfold replace_all, replace_with. apply replace_loop_Chr. lia. Qed.

Lemma without_all (f : ascii -> bool) (s : string) :
  (forall c, In c (chars s) -> f c = true) -> without f s = EmptyString.
Proof.
  induction s as [|c r IH]; simpl; intros H; [reflexivity|].
  rewrite (H c) by now left. apply IH. intros d Hd. apply H. now right.
Qed.

Lemma without_chars (f : ascii -> bool) (s : string) (c : ascii) :
  In c (chars (without f s)) -> In c (chars s) /\ f c = false.
Proof.
  induction s as [|d r IH]; simpl; [tauto|].
  destruct (f d) eqn:Hd; simpl.
  - intros H. destruct (IH H). auto.
  - intros [<-|H]; [auto|]. destruct (IH H). auto.
Qed.

Lemma toLowerCase_chars (s : string) (c : ascii) :
  In c (chars (Js.toLowerCase s)) -> exists d, In d (chars s) /\ c = Js.lower_char d.
Proof.
  induction s as [|d r IH]; simpl; [tauto|].
  intros [<-|H]; [exists d; auto|].
  destruct (IH H) as [d' [H1 H2]]. exists d'. auto.
Qed.

Lemma trim_blank (s : string) :
  (forall c, In c (chars s) -> Js.space c = true) -> Js.trim s = EmptyString.
Proof.
  unfold Js.trim. intros H.
  assert (E : Js.trimStart s = EmptyString).
  { induction s as [|c r IH]; simpl; [reflexivity|].
    rewrite (H c) by now left. apply IH. intros d Hd. apply H. now right. }
  now rewrite E.
Qed.

(** The lower case of a character that is neither an ASCII letter nor a
    digit is neither a-z nor a digit. *)
Lemma lower_char_stays_outside (c : ascii) :
  Js.letter c = false ->
  Js.lower_az (Js.lower_char c) = false /\
  (Js.digit c = false -> Js.digit (Js.lower_char c) = false).
Proof.
  destruct c as [[] [] [] [] [] [] [] []]; vm_compute; intros H; split;
    try reflexivity; try discriminate; auto.
Qed.

Lemma createPathBasedKey_empty (text : string) :
  (forall c, In c (chars text) -> Js.letter c = false /\ Js.digit c = false) ->
  TextValidator.createPathBasedKey text = EmptyString.
Proof.
  intros H. unfold TextValidator.createPathBasedKey.
  rewrite replace_all_Chr, trim_blank; [reflexivity|].
  intros c Hc. apply without_chars in Hc as [Hc Hkeep].
  apply toLowerCase_chars in Hc as [d [Hd ->]].
  destruct (H d Hd) as [Hl Hg].
  destruct (lower_char_stays_outside d Hl) as [H1 H2].
  rewrite H1, (H2 Hg) in Hkeep. simpl in Hkeep.
  now destruct (Js.space (Js.lower_char d)).
Qed.

Lemma within_refl (s : string) : within s s.
Proof. intros c H. exact H. Qed.

Lemma within_trans (a b c : string) : within a b -> within b c -> within a c.
Proof. intros H1 H2 x Hx. auto. Qed.

Lemma within_tail (c : ascii) (s : string) : within s (String c s).
Proof. intros x Hx. now right. Qed.

(** The matcher only moves forward: what is left after a match is made of
    characters of what was left before. *)
Lemma run_forward (r : regex) :
  forall (R : Type) (k : pos -> option R) (p : pos) (x : R),
    run r p k = Some x ->
    exists q, k q = Some x /\ within (rest q) (rest p).
Proof.
  induction r as [|f|a IHa b IHb|a IHa b IHb|a IHa| | | | |n a IHa];
    intros R k p x H; cbn [run] in H.
  - exists p. split; [assumption | apply within_refl].
  - destruct (rest p) as [|c s] eqn:E; [discriminate|].
    destruct (f c); [|discriminate].
    eexists. split; [exact H|]. cbn [rest]. apply within_tail.
  - apply IHa in H as [q1 [H1 W1]]. apply IHb in H1 as [q2 [H2 W2]].
    exists q2. split; [assumption|]. eapply within_trans; eassumption.
  - destruct (run a p k) as [y|] eqn:E.
    + injection H as ->. apply IHa in E. exact E.
    + apply IHb in H. exact H.
  - revert H. generalize (S (String.length (rest p))) as fuel. intros fuel. revert p.
    induction fuel as [|fuel IHf]; intros p H; cbn [star_loop] in H.
    + exists p. split; [assumption | apply within_refl].
    + match type of H with
      | match ?m with _ => _ end = _ => destruct m as [y|] eqn:E
      end.
      * injection H as ->. apply IHa in E as [q1 [H1 W1]].
        destruct (String.length (rest q1) <? String.length (rest p))%nat; [|discriminate].
        apply IHf in H1 as [q2 [H2 W2]].
        exists q2. split; [assumption|]. eapply within_trans; eassumption.
      * exists p. split; [assumption | apply within_refl].
  - destruct (before p); [discriminate|].
    exists p. split; [assumption | apply within_refl].
  - destruct (rest p) eqn:E; [|discriminate].
    exists p. split; [assumption | rewrite E; apply within_refl].
  - destruct (rest p) as [|c s] eqn:E.
    + exists p. split; [assumption | rewrite E; apply within_refl].
    + destruct (Js.dot c); [discriminate|].
      exists p. split; [assumption | rewrite E; apply within_refl].
  - destruct (xorb _ _); [|discriminate].
    exists p. split; [assumption | apply within_refl].
  - apply IHa in H as [q1 [H1 W1]].
    eexists. split; [exact H1|]. exact W1.
Qed.

Lemma match_at_forward (r : regex) (b : option ascii) (s : string) (q : pos) :
  match_at r b s = Some q -> within (rest q) s.
Proof.
  unfold match_at. intros H. apply run_forward in H as [q' [[= ->] W]]. exact W.
Qed.

Lemma chars_append (a b : string) (c : ascii) :
  In c (chars (a +:+ b)) <-> In c (chars a) \/ In c (chars b).
Proof.
  induction a as [|d a IH]; simpl; [tauto|]. rewrite IH. tauto.
Qed.

(** Every piece of a split is made of characters of the text. *)
Lemma split_loop_chars (r : regex) (fuel : nat) :
  forall b s cur w c,
    In w (split_loop fuel r b s cur) -> In c (chars w) ->
    In c (chars cur) \/ In c (chars s).
Proof.
  induction fuel as [|fuel IH]; intros b s cur w c Hw Hc; cbn [split_loop] in Hw.
  - destruct Hw as [<-|[]]. now apply chars_append.
  - destruct s as [|d s'].
    + destruct Hw as [<-|[]]. now left.
    + destruct (match_at r b (String d s')) as [q|] eqn:E.
      * destruct (String.length (rest q) <? String.length (String d s'))%nat.
        -- destruct Hw as [<-|Hw]; [now left|].
           destruct (IH _ _ _ _ _ Hw Hc) as [[]|H].
           right. eapply match_at_forward; eassumption.
        -- assert (G : In w (split_loop fuel r (Some d) s' (Js.str d)) ->
                       In c (chars cur) \/ In c (chars (String d s'))).
           { intros Hw'. destruct (IH _ _ _ _ _ Hw' Hc) as [[<-|[]]|H];
               right; simpl; auto. }
           destruct cur; [auto|]. destruct Hw as [<-|Hw]; auto.
      * destruct (IH _ _ _ _ _ Hw Hc) as [H|H].
        -- apply chars_append in H as [H|[<-|[]]]; [now left | right; now left].
        -- right. now right.
Qed.

Lemma split_chars (r : regex) (s w : string) (c : ascii) :
  In w (split r s) -> In c (chars w) -> In c (chars s).
Proof.
  unfold split. destruct s as [|d s'].
  - destruct (match_at r None EmptyString); simpl; [tauto|].
    intros [<-|[]] Hc. exact Hc.
  - intros Hw Hc. destruct (split_loop_chars _ _ _ _ _ _ _ Hw Hc) as [[]|H]. exact H.
Qed.

Lemma In_firstn {A : Type} (n : nat) (l : list A) (x : A) :
  In x (firstn n l) -> In x l.
Proof.
  revert l. induction n as [|n IH]; intros [|y l]; simpl; try tauto.
  intros [H|H]; auto.
Qed.

Lemma createCustomKey_empty (text : string) :
  (forall c, In c (chars text) -> Js.letter c = false) ->
  TextValidator.createCustomKey text = EmptyString.
Proof.
  intros H. unfold TextValidator.createCustomKey.
  assert (G : forall words,
             (forall w, In w words -> within w text) ->
             filter (fun word => (0 <? String.length word)%nat)
               (map (fun word =>
                       replace_all (Chr (fun c => negb (Js.lower_az c))) EmptyString
                         (Js.toLowerCase word)) words) = []).
  { induction words as [|w words IH]; intros Hw; [reflexivity|].
    cbn [map filter]. rewrite replace_all_Chr, without_all.
    - apply IH. intros w' Hw'. apply Hw. now right.
    - intros c Hc. apply toLowerCase_chars in Hc as [d [Hd ->]].
      apply (Hw w) in Hd; [|now left].
      destruct (lower_char_stays_outside d (H d Hd)) as [-> _]. reflexivity. }
  rewrite G; [reflexivity|].
  intros w Hw c Hc. apply In_firstn in Hw.
  eapply split_chars; eassumption.
Qed.

Lemma trimStart_within (s : string) : within (Js.trimStart s) s.
Proof.
  induction s as [|d r IH]; intros c Hc; [exact Hc|].
  cbn [Js.trimStart] in Hc. destruct (Js.space d); [|exact Hc].
  right. now apply IH.
Qed.

Lemma trimEnd_within (s : string) : within (Js.trimEnd s) s.
Proof.
  induction s as [|d r IH]; intros c Hc; [exact Hc|].
  cbn [Js.trimEnd] in Hc. destruct (Js.trimEnd r) as [|e r'] eqn:E.
  - destruct (Js.space d); [destruct Hc|].
    destruct Hc as [<-|[]]. now left.
  - destruct Hc as [<-|Hc]; [now left|]. right. now apply IH.
Qed.

Lemma trim_within (s : string) : within (Js.trim s) s.
Proof.
  unfold Js.trim. eapply within_trans; [apply trimEnd_within | apply trimStart_within].
Qed.

(** C10, as the code behaves: the classifier accepts the text
    [accentedNumber], whose only letter lies outside a-z and A-Z, and the
    path strategy derives the key 42 for it, not the empty key: the digits
    stay. *)
Lemma C10_digits_stay_in_the_path_key :
  TextValidator.isValidTranslationText defaultConfig accentedNumber = true /\
  forallb (fun c => negb (Js.letter c)) (chars accentedNumber) = true /\
  TextValidator.createPathBasedKey accentedNumber = "42" /\
  I18nTransformer.getOrCreateKey (withStrategy path defaultConfig) accentedNumber []
    = ("42", [(accentedNumber, "42")]).
Proof. vm_compute. conjuncts; reflexivity. Qed.

(** C10, amended: for every text made of code units below 256 (the texts
    of this model) that holds no letter a-z or A-Z, the custom strategy
    derives the empty key and [getOrCreateKey] registers the text under that
    key; when the text holds no digit 0-9 either, the same is true of the
    path strategy. The text [accented], which the classifier accepts, is
    such a text, so an accepted fragment can be registered under the empty
    key. *)
Theorem C10_texts_without_ascii_letters (config : I18nConfig) (text : string) :
  (forall c, In c (chars text) -> Js.letter c = false) ->
  (TextValidator.createCustomKey (Js.trim text) = EmptyString /\
   I18nTransformer.getOrCreateKey (withStrategy custom config) text []
     = (EmptyString, [(Js.trim text, EmptyString)])) /\
  ((forall c, In c (chars text) -> Js.digit c = false) ->
   TextValidator.createPathBasedKey (Js.trim text) = EmptyString /\
   I18nTransformer.getOrCreateKey (withStrategy path config) text []
     = (EmptyString, [(Js.trim text, EmptyString)])).
Proof.
  intros H.
  assert (C : TextValidator.createCustomKey (Js.trim text) = EmptyString).
  { apply createCustomKey_empty. intros c Hc. apply H. now apply trim_within. }
  split; [split; [exact C|]|].
  - unfold I18nTransformer.getOrCreateKey, TextValidator.suggestKeyName.
    cbn [Assoc.get withStrategy format keyStrategy Assoc.set].
    now rewrite trim_idempotent, C.
  - intros Hd.
    assert (P : TextValidator.createPathBasedKey (Js.trim text) = EmptyString).
    { apply createPathBasedKey_empty. intros c Hc. apply trim_within in Hc. auto. }
    split; [exact P|].
    unfold I18nTransformer.getOrCreateKey, TextValidator.suggestKeyName.
    cbn [Assoc.get withStrategy format keyStrategy Assoc.set].
    now rewrite trim_idempotent, P.
Qed.

Lemma C10_texts_without_ascii_letters_witness :
  TextValidator.isValidTranslationText defaultConfig accented = true /\
  I18nTransformer.getOrCreateKey (withStrategy custom defaultConfig) accented []
    = (EmptyString, [(Js.trim accented, EmptyString)]) /\
  I18nTransformer.getOrCreateKey (withStrategy path defaultConfig) accented []
    = (EmptyString, [(Js.trim accented, EmptyString)]).
Proof.
  assert (L : forall c, In c (chars accented) -> Js.letter c = false).
  { intros c Hc. vm_compute in Hc.
    repeat (destruct Hc as [<-|Hc]; [reflexivity|]). destruct Hc. }
  assert (D : forall c, In c (chars accented) -> Js.digit c = false).
  { intros c Hc. vm_compute in Hc.
    repeat (destruct Hc as [<-|Hc]; [reflexivity|]). destruct Hc. }
  destruct (C10_texts_without_ascii_letters defaultConfig accented L) as [[_ H1] H2].
  split; [vm_compute; reflexivity|].
  split; [exact H1 | exact (proj2 (H2 D))].
Defined.

End EmptyKeysInGeneral.

(** ** The matcher: what a match leaves *)

Section MatcherFacts.
Import Re.


Lemma str_append_cons (c : ascii) (a b : string) :
  String c a +:+ b = String c (a +:+ b).
Proof. reflexivity. Qed.

Lemma str_append_assoc (a b c : string) : (a +:+ b) +:+ c = a +:+ (b +:+ c).
Proof.
  induction a as [|d a IH]; [reflexivity|].
  rewrite !str_append_cons. now rewrite IH.
Qed.

Lemma str_append_empty (a : string) : a +:+ EmptyString = a.
Proof.
  induction a as [|d a IH]; [reflexivity|].
  rewrite str_append_cons. now rewrite IH.
Qed.

Lemma str_length_append (a b : string) :
  String.length (a +:+ b) = (String.length a + String.length b)%nat.
Proof.
  induction a as [|c a IH]; [reflexivity|].
  rewrite str_append_cons. simpl. now rewrite IH.
Qed.

Lemma take_append (a b : string) : Js.take (String.length a) (a +:+ b) = a.
Proof.
  induction a as [|c a IH]; [now destruct b|].
  rewrite str_append_cons. simpl. now rewrite IH.
Qed.

Lemma ends_with_refl (s : string) : ends_with s s.
Proof. now exists EmptyString. Qed.

Lemma ends_with_trans (a b c : string) : ends_with a b -> ends_with b c -> ends_with a c.
Proof. intros [p ->] [q ->]. exists (q +:+ p). now rewrite str_append_assoc. Qed.

Lemma ends_with_tail (c : ascii) (s : string) : ends_with s (String c s).
Proof. now exists (Js.str c). Qed.

(** The matcher reads the input from left to right: what is left after a
    match is the end of what was left before. *)
Lemma run_suffix (r : regex) :
  forall (R : Type) (k : pos -> option R) (p : pos) (x : R),
    run r p k = Some x ->
    exists q, k q = Some x /\ ends_with (rest q) (rest p).
Proof.
  induction r as [|f|a IHa b IHb|a IHa b IHb|a IHa| | | | |n a IHa];
    intros R k p x H; cbn [run] in H.
  - exists p. split; [assumption | apply ends_with_refl].
  - destruct (rest p) as [|c s] eqn:E; [discriminate|].
    destruct (f c); [|discriminate].
    eexists. split; [exact H|]. cbn [rest]. apply ends_with_tail.
  - apply IHa in H as [q1 [H1 W1]]. apply IHb in H1 as [q2 [H2 W2]].
    exists q2. split; [assumption|]. eapply ends_with_trans; eassumption.
  - destruct (run a p k) as [y|] eqn:E.
    + injection H as ->. apply IHa in E. exact E.
    + apply IHb in H. exact H.
  - revert H. generalize (S (String.length (rest p))) as fuel. intros fuel. revert p.
    induction fuel as [|fuel IHf]; intros p H; cbn [star_loop] in H.
    + exists p. split; [assumption | apply ends_with_refl].
    + match type of H with
      | match ?m with _ => _ end = _ => destruct m as [y|] eqn:E
      end.
      * injection H as ->. apply IHa in E as [q1 [H1 W1]].
        destruct (String.length (rest q1) <? String.length (rest p))%nat; [|discriminate].
        apply IHf in H1 as [q2 [H2 W2]].
        exists q2. split; [assumption|]. eapply ends_with_trans; eassumption.
      * exists p. split; [assumption | apply ends_with_refl].
  - destruct (before p); [discriminate|].
    exists p. split; [assumption | apply ends_with_refl].
  - destruct (rest p) eqn:E; [|discriminate].
    exists p. split; [assumption | rewrite E; apply ends_with_refl].
  - destruct (rest p) as [|c s] eqn:E.
    + exists p. split; [assumption | rewrite E; apply ends_with_refl].
    + destruct (Js.dot c); [discriminate|].
      exists p. split; [assumption | rewrite E; apply ends_with_refl].
  - destruct (xorb _ _); [|discriminate].
    exists p. split; [assumption | apply ends_with_refl].
  - apply IHa in H as [q1 [H1 W1]].
    eexists. split; [exact H1|]. exact W1.
Qed.

(** The text is the matched text followed by what is left. *)
Lemma match_at_split (r : regex) (b : option ascii) (s : string) (q : pos) :
  match_at r b s = Some q ->
  s = consumed (mkPos b s []) q +:+ rest q.
Proof.
  unfold match_at. intros H. apply run_suffix in H as [q' [[= ->] [pre E]]].
  cbn [rest] in E. unfold consumed. cbn [rest]. rewrite E at 1 2 3.
  rewrite str_length_append.
  replace (String.length pre + String.length (rest q) - String.length (rest q))%nat
    with (String.length pre) by lia.
  now rewrite take_append.
Qed.

(** [r.test(s)] looks for a match at each position in turn. *)
Lemma test_found (r : regex) (s : string) : test r s = found_from r None s.
Proof.
  unfold test, exec. generalize (@None ascii) as b. generalize EmptyString as skipped.
  induction s as [|c s IH]; intros skipped b; cbn [exec_from found_from].
  - now destruct (match_at r b EmptyString).
  - destruct (match_at r b (String c s)); [reflexivity|]. apply IH.
Qed.

(** A character class is found in a text when one of the characters of the
    text is in the class. *)
Lemma found_class (r : regex) (f : ascii -> bool) :
  (forall b c s, match_at r b (String c s) = None <-> f c = false) ->
  (forall b, match_at r b EmptyString = None) ->
  forall s b, found_from r b s = existsb f (chars s).
Proof.
  intros Hc He. induction s as [|c s IH]; intros b; cbn [found_from].
  - now rewrite He.
  - change (chars (String c s)) with (c :: chars s). cbn [existsb].
    destruct (match_at r b (String c s)) eqn:E.
    + destruct (f c) eqn:Ef; [reflexivity|].
      rewrite (proj2 (Hc b c s) Ef) in E. discriminate.
    + rewrite (proj1 (Hc b c s) E). apply IH.
Qed.

Lemma test_Chr (f : ascii -> bool) (s : string) : test (Chr f) s = existsb f (chars s).
Proof.
  rewrite test_found. apply found_class.
  - intros b c t. rewrite match_at_Chr. destruct (f c); split; congruence.
  - reflexivity.
Qed.

End MatcherFacts.

(** ** The classifier in general *)

Section ClassifierFacts.
Import Re TextValidator.

Lemma In_chars_trimEnd (s : string) (c : ascii) :
  In c (chars (Js.trimEnd s)) -> In c (chars s).
Proof.
  induction s as [|d r IH]; simpl; [tauto|].
  destruct (Js.trimEnd r) as [|e r'] eqn:E.
  - destruct (Js.space d); simpl; tauto.
  - intros [<-|H]; [now left|]. right. apply IH. exact H.
Qed.

Lemma In_chars_trimStart (s : string) (c : ascii) :
  In c (chars (Js.trimStart s)) -> In c (chars s).
Proof.
  induction s as [|d r IH]; simpl; [tauto|].
  destruct (Js.space d); [|exact (fun H => H)].
  intros H. right. now apply IH.
Qed.

Lemma In_chars_trim (s : string) (c : ascii) :
  In c (chars (Js.trim s)) -> In c (chars s).
Proof. intros H. now apply In_chars_trimStart, In_chars_trimEnd. Qed.

(** A text that is blank once trimmed is refused, whatever the
    configuration. *)
Lemma blank_is_refused (config : I18nConfig) (text : string) :
  Js.trim text = EmptyString -> isValidTranslationText config text = false.
Proof.
  intros E. unfold isValidTranslationText, classify. cbv zeta. rewrite E.
  destruct text; [reflexivity|].
  change (test letterPattern EmptyString) with false. cbn [negb].
  destruct (_ <? minLength _)%nat; [reflexivity|].
  destruct (maxLength _ <? _)%nat; [reflexivity|].
  destruct (skipTechnicalTerms _ && _); [reflexivity|].
  destruct (skipNumbers _ && _); [reflexivity|].
  destruct (skipPaths _ && _); [reflexivity|].
  destruct (skipCodeFragments _); [destruct (find _ _); [reflexivity|]|];
    destruct (existsb _ _); reflexivity.
Qed.

Lemma isValid_trim (config : I18nConfig) (text : string) :
  isValidTranslationText config (Js.trim text) = isValidTranslationText config text.
Proof.
  destruct (Js.trim text) as [|c r] eqn:E.
  - rewrite (blank_is_refused config text E). reflexivity.
  - rewrite <- E. unfold isValidTranslationText, classify. cbv zeta.
    rewrite trim_idempotent. rewrite E.
    destruct text; [discriminate|]. reflexivity.
Qed.


(** A character that is not a blank survives the trimming. *)
Lemma trimEnd_keeps (s : string) (c : ascii) :
  In c (chars s) -> Js.space c = false -> In c (chars (Js.trimEnd s)).
Proof.
  intros H Hc. induction s as [|d r IH]; simpl in *; [tauto|].
  destruct (Js.trimEnd r) as [|e r'] eqn:E.
  - destruct H as [->|H]; [rewrite Hc; now left|]. destruct (IH H).
  - destruct H as [->|H]; [now left|]. right. now apply IH.
Qed.

Lemma trimStart_keeps (s : string) (c : ascii) :
  In c (chars s) -> Js.space c = false -> In c (chars (Js.trimStart s)).
Proof.
  intros H Hc. induction s as [|d r IH]; simpl in *; [tauto|].
  destruct (Js.space d) eqn:Ed.
  - destruct H as [->|H]; [congruence|]. now apply IH.
  - exact H.
Qed.

Lemma trim_keeps (s : string) (c : ascii) :
  In c (chars s) -> Js.space c = false -> In c (chars (Js.trim s)).
Proof. intros H Hc. apply trimEnd_keeps; [|exact Hc]. now apply trimStart_keeps. Qed.

(** The rule jsx-expression looks for one of four characters. *)
Lemma test_jsx_expression (s : string) :
  test (Alts [Lit "{"; Lit "}"; Lit "<"; Lit ">"]) s = existsb (Js.any_of "{}<>") (chars s).
Proof.
  rewrite test_found. apply found_class; [|reflexivity].
  intros b c t. unfold match_at. cbn [Alts Lit run rest groups].
  unfold Js.any_of, Js.is_char. cbn [list_ascii_of_string existsb].
  rewrite !(Ascii.eqb_sym c).
  destruct (Ascii.eqb "{" c), (Ascii.eqb "}" c), (Ascii.eqb "<" c), (Ascii.eqb ">" c);
    cbn; split; congruence.
Qed.

(** X1: the verdict depends on the trimmed text only: two texts that are equal
    once trimmed get the same verdict, whatever the configuration. *)
Theorem verdict_of_the_trimmed_text (config : I18nConfig) (text1 text2 : string) :
  Js.trim text1 = Js.trim text2 ->
  isValidTranslationText config text1 = isValidTranslationText config text2.
Proof.
  intros E.
  rewrite <- (isValid_trim config text1), <- (isValid_trim config text2), E.
  reflexivity.
Qed.

Lemma verdict_of_the_trimmed_text_witness :
  Js.trim "  Save Changes" = Js.trim "Save Changes " /\
  isValidTranslationText defaultConfig "  Save Changes"
  = isValidTranslationText defaultConfig "Save Changes ".
Proof.
  split; [reflexivity|].
  apply (verdict_of_the_trimmed_text defaultConfig "  Save Changes" "Save Changes ").
  reflexivity.
Defined.

(** X2: what every accepted text has, whatever the configuration: its trimmed
    length is within the bounds of the configuration, it holds a letter of
    [a-zA-ZÀ-ÿ] and, when code fragments are skipped, none of the characters
    { } < >. *)
Theorem accepted_text_shape (config : I18nConfig) (text : string) :
  isValidTranslationText config text = true ->
  (minLength (validation config) <= String.length (Js.trim text)
   <= maxLength (validation config))%nat /\
  (exists c, In c (chars text) /\ (Js.letter c || Js.between 192 255 c) = true) /\
  (skipCodeFragments (validation config) = true ->
   forall c, In c (chars text) -> ~ In c (chars "{}<>")).
Proof.
  unfold isValidTranslationText, classify. cbv zeta.
  destruct text as [|a text']; [discriminate|].
  set (cleanText := Js.trim (String a text')).
  assert (K : forall c, In c (chars (String a text')) -> Js.space c = false ->
                        In c (chars cleanText)) by apply trim_keeps.
  assert (T : forall c, In c (chars cleanText) -> In c (chars (String a text')))
    by apply In_chars_trim.
  set (text := String a text') in *.
  destruct (_ <? minLength _)%nat eqn:Hmin; [discriminate|].
  destruct (maxLength _ <? _)%nat eqn:Hmax; [discriminate|].
  destruct (skipTechnicalTerms _ && _); [discriminate|].
  destruct (skipNumbers _ && _); [discriminate|].
  destruct (skipPaths _ && _); [discriminate|].
  destruct (if skipCodeFragments _ then _ else _) eqn:Hrules; [discriminate|].
  destruct (existsb _ _); [discriminate|].
  destruct (negb (test letterPattern cleanText)) eqn:Hletter; [discriminate|].
  intros _. split; [|split].
  - apply Nat.ltb_ge in Hmin, Hmax. lia.
  - apply Bool.negb_false_iff in Hletter. unfold letterPattern in Hletter.
    rewrite test_Chr in Hletter. apply existsb_exists in Hletter as [c [Hc Hf]].
    exists c. split; [now apply T | exact Hf].
  - intros Hskip c Hc Hbad. rewrite Hskip in Hrules.
    pose proof (find_none _ _ Hrules
                  (mkRule "jsx-expression" (Alts [Lit "{"; Lit "}"; Lit "<"; Lit ">"])
                     "JSX expressions or HTML tags" error)) as Hjsx.
    cbn [severity severity_is_error pattern andb] in Hjsx.
    rewrite test_jsx_expression in Hjsx.
    assert (Hin : existsb (Js.any_of "{}<>") (chars cleanText) = true).
    { apply existsb_exists. exists c. split.
      - apply K; [exact Hc|].
        simpl in Hbad. destruct Hbad as [<-|[<-|[<-|[<-|[]]]]]; reflexivity.
      - simpl in Hbad. destruct Hbad as [<-|[<-|[<-|[<-|[]]]]]; reflexivity. }
    rewrite Hjsx in Hin; [discriminate|].
    right. right. left. reflexivity.
Qed.

Lemma accepted_text_shape_witness :
  isValidTranslationText defaultConfig "Save Changes" = true /\
  (2 <= String.length (Js.trim "Save Changes") <= 500)%nat.
Proof.
  split; [reflexivity|].
  apply (accepted_text_shape defaultConfig "Save Changes"). reflexivity.
Defined.

Lemma lower_char_idempotent (c : ascii) :
  Js.lower_char (Js.lower_char c) = Js.lower_char c.
Proof. destruct c as [[] [] [] [] [] [] [] []]; reflexivity. Qed.

Lemma toLowerCase_idempotent (s : string) :
  Js.toLowerCase (Js.toLowerCase s) = Js.toLowerCase s.
Proof.
  induction s as [|c s IH]; simpl; [reflexivity|].
  now rewrite lower_char_idempotent, IH.
Qed.

(** X3: the text is put in lower case before it is looked up among the
    technical terms, so that only the entries written in lower case can
    match: a text is refused as a technical term only if its trimmed text in
    lower case is one of these 29 entries. The 28 entries with a capital
    (NaN, GET, POST, React, JSON, ...) never match. *)
Theorem only_lower_case_terms_match (config : I18nConfig) (text : string) :
  classify config text = Some "technical-term" ->
  In (Js.toLowerCase (Js.trim text))
    ["true"; "false"; "null"; "undefined"; "auto"; "none"; "inherit"; "initial";
     "unset"; "block"; "inline"; "flex"; "grid"; "center"; "left"; "right"; "top";
     "bottom"; "submit"; "button"; "text"; "email"; "password"; "loading"; "error";
     "success"; "warning"; "info"; "debug"].
Proof.
  unfold classify. cbv zeta.
  destruct text as [|a text']; [discriminate|].
  generalize (Js.trim (String a text')). intros cleanText.
  destruct (_ <? minLength _)%nat; [discriminate|].
  destruct (maxLength _ <? _)%nat; [discriminate|].
  destruct (skipTechnicalTerms _ && _) eqn:Hterm.
  - intros _. apply andb_prop in Hterm as [_ Hterm].
    unfold technicalTerms_has in Hterm.
    apply existsb_exists in Hterm as [term [Hin Heq]].
    apply String.eqb_eq in Heq.
    pose proof (toLowerCase_idempotent cleanText) as Hlow.
    rewrite Heq in *. clear Heq.
    unfold ConfigManager.getDefaultTechnicalTerms in Hin. cbn [In] in Hin.
    repeat (destruct Hin as [Hin|Hin];
            [ subst term;
              first [ discriminate Hlow
                    | repeat first [left; reflexivity | right] ]
            | ]).
    contradiction.
  - destruct (skipNumbers _ && _); [discriminate|].
    destruct (skipPaths _ && _); [discriminate|].
    destruct (if skipCodeFragments _ then _ else _); [discriminate|].
    destruct (existsb _ _); [discriminate|].
    destruct (negb _); [discriminate|].
    destruct (test _ _); discriminate.
Qed.

Lemma only_lower_case_terms_match_witness :
  classify defaultConfig " TRUE " = Some "technical-term" /\
  In (Js.toLowerCase (Js.trim " TRUE "))
    ["true"; "false"; "null"; "undefined"; "auto"; "none"; "inherit"; "initial";
     "unset"; "block"; "inline"; "flex"; "grid"; "center"; "left"; "right"; "top";
     "bottom"; "submit"; "button"; "text"; "email"; "password"; "loading"; "error";
     "success"; "warning"; "info"; "debug"].
Proof.
  split; [reflexivity|].
  apply (only_lower_case_terms_match defaultConfig " TRUE "). reflexivity.
Defined.

(** *** The skip statistics *)

Lemma sum_of_recordSkip (reason : string) (m : list (string * nat)) :
  sum_of (reasons_set reason
            (match reasons_get reason m with Some n => n | None => 0 end + 1) m)
  = S (sum_of m).
Proof.
  induction m as [|[r n] m IH]; simpl; [reflexivity|].
  destruct (String.eqb reason r); simpl; [lia|]. rewrite IH. lia.
Qed.

Lemma call_records (config : I18nConfig) (st : SkipStats) (c : Call) :
  call config st c
  = match classify config (text_of c) with
    | None => st
    | Some reason => recordSkip reason st
    end.
Proof.
  destruct c as [t|t]; simpl;
    unfold validateWithDetails, isValidTranslationText_recording;
    destruct (classify config t); reflexivity.
Qed.

(** X4: the skip statistics of a validator: after any sequence of calls of
    [isValidTranslationText] and [validateWithDetails] that follows
    [resetStats], the total of [getSkipStats] is the number of texts that were
    refused, and it is the sum of the counters of the reasons. *)
Theorem skip_statistics_add_up (config : I18nConfig) (calls : list Call) :
  let stats := getSkipStats (fold_left (call config) calls resetStats) in
  fst stats
  = List.length (List.filter (fun c => negb (isValidTranslationText config (text_of c))) calls)
  /\ fst stats = sum_of (snd stats).
Proof.
  cbv zeta. unfold getSkipStats. cbn [fst snd].
  assert (G : forall st,
             skippedCount st = sum_of (reasons st) ->
             let st' := fold_left (call config) calls st in
             skippedCount st'
             = (skippedCount st
                + List.length (List.filter (fun c => negb (isValidTranslationText config
                                                        (text_of c))) calls))%nat
             /\ skippedCount st' = sum_of (reasons st')).
  { induction calls as [|c calls IH]; intros st Hst; cbn [fold_left List.filter].
    - simpl. split; [lia | exact Hst].
    - cbv zeta in IH. rewrite call_records. unfold isValidTranslationText in *.
      destruct (classify config (text_of c)) as [reason|]; cbn [negb].
      + destruct (IH (recordSkip reason st)) as [H1 H2].
        * unfold recordSkip. cbn [skippedCount reasons].
          now rewrite sum_of_recordSkip, Hst.
        * split; [|exact H2]. rewrite H1. cbn [List.length skippedCount recordSkip]. lia.
      + apply IH. exact Hst. }
  destruct (G resetStats eq_refl) as [H1 H2]. split; [exact H1 | exact H2].
Qed.

End ClassifierFacts.

(** ** The keys the strategies derive *)

Section KeyFacts.
Import Re TextValidator.
Local Open Scope Z_scope.

Lemma toInt32_congruent (x y : Z) :
  x mod 2 ^ 32 = y mod 2 ^ 32 -> toInt32 x = toInt32 y.
Proof. unfold toInt32. now intros ->. Qed.

Lemma toInt32_wraps (x : Z) : exists k, toInt32 x = x + k * 2 ^ 32.
Proof.
  unfold toInt32. cbv zeta. rewrite Z.mod_eq by lia.
  destruct (2 ^ 31 <=? _).
  - exists (- (x / 2 ^ 32) - 1). lia.
  - exists (- (x / 2 ^ 32)). lia.
Qed.

Lemma hash_step_polynomial (p : Z) (c : ascii) :
  hash_step (toInt32 p) c = toInt32 (31 * p + Z.of_nat (Js.code c)).
Proof.
  unfold hash_step. cbv zeta. rewrite Z.land_diag.
  apply toInt32_congruent.
  rewrite Z.shiftl_mul_pow2 by lia. change (2 ^ 5) with 32.
  destruct (toInt32_wraps p) as [k1 ->].
  destruct (toInt32_wraps (p + k1 * 2 ^ 32)) as [k2 ->].
  destruct (toInt32_wraps ((p + k1 * 2 ^ 32 + k2 * 2 ^ 32) * 32)) as [k3 ->].
  replace ((p + k1 * 2 ^ 32 + k2 * 2 ^ 32) * 32 + k3 * 2 ^ 32 - (p + k1 * 2 ^ 32)
           + Z.of_nat (Js.code c))
    with (31 * p + Z.of_nat (Js.code c) + (31 * k1 + 32 * k2 + k3) * 2 ^ 32) by lia.
  apply Z_mod_plus_full.
Qed.

Lemma hash_polynomial (l : list ascii) :
  forall p, fold_left hash_step l (toInt32 p)
            = toInt32 (fold_left (fun h c => 31 * h + Z.of_nat (Js.code c)) l p).
Proof.
  induction l as [|c l IH]; intros p; cbn [fold_left]; [reflexivity|].
  rewrite hash_step_polynomial. apply IH.
Qed.

Lemma digit36_range (d : Z) :
  0 <= d < 36 -> (Js.digit (digit36 d) || Js.lower_az (digit36 d)) = true.
Proof.
  intros H.
  assert (G : forallb (fun n => Js.digit (digit36 (Z.of_nat n))
                                || Js.lower_az (digit36 (Z.of_nat n)))
                (seq 0 36) = true) by (vm_compute; reflexivity).
  rewrite forallb_forall in G.
  specialize (G (Z.to_nat d)). rewrite Z2Nat.id in G by lia.
  apply G. apply in_seq. lia.
Qed.

Lemma toString36_loop_chars (fuel : nat) :
  forall n acc,
    0 <= n ->
    (forall c, In c (chars acc) -> (Js.digit c || Js.lower_az c) = true) ->
    forall c, In c (chars (toString36_loop fuel n acc)) ->
              (Js.digit c || Js.lower_az c) = true.
Proof.
  induction fuel as [|fuel IH]; intros n acc Hn Hacc c; cbn [toString36_loop].
  - apply Hacc.
  - assert (Hacc' : forall c, In c (chars (String (digit36 (n mod 36)) acc)) ->
                              (Js.digit c || Js.lower_az c) = true).
    { intros d [<-|Hd]; [|now apply Hacc].
      apply digit36_range. apply Z.mod_pos_bound. lia. }
    destruct (n / 36 =? 0); [apply Hacc'|].
    apply IH; [|exact Hacc']. apply Z.div_pos; lia.
Qed.

Lemma toString36_loop_nonempty (fuel : nat) :
  forall n acc, acc <> EmptyString -> toString36_loop fuel n acc <> EmptyString.
Proof.
  induction fuel as [|fuel IH]; intros n acc Hacc; cbn [toString36_loop]; [exact Hacc|].
  destruct (n / 36 =? 0); [discriminate|]. now apply IH.
Qed.

(** X5: the hash strategy: the key is text_ followed by the digits in base
    36 of the absolute value of the 32-bit wrap of the polynomial
    c0*31^(n-1) + ... + c(n-1) of the code units of the text, so that the
    key depends on the order of the characters; the digits are at least one
    character of [0-9a-z]. *)
Theorem createHash_value (text : string) :
  exists digits,
    createHash text = ("text_" +:+ digits)%string /\
    digits = toString36 (Z.abs (toInt32 (polynomial (chars text)))) /\
    digits <> EmptyString /\
    (forall c, In c (chars digits) -> (Js.digit c || Js.lower_az c) = true).
Proof.
  eexists. split; [|split; [reflexivity|split]].
  - unfold createHash. cbv zeta. f_equal. f_equal. f_equal.
    change 0 with (toInt32 0) at 1. apply hash_polynomial.
  - unfold toString36. cbn [toString36_loop].
    destruct (_ =? 0); [discriminate|]. now apply toString36_loop_nonempty.
  - apply toString36_loop_chars; [lia|]. intros c [].
Qed.

End KeyFacts.

Section KeyCharacters.
Import Re TextValidator.

Lemma In_chars_take (n : nat) (s : string) (c : ascii) :
  In c (chars (Js.take n s)) -> In c (chars s).
Proof.
  revert s. induction n as [|n IH]; intros [|d s]; simpl; try tauto.
  intros [H|H]; [now left | right; now apply IH].
Qed.

Lemma length_take (n : nat) (s : string) : (String.length (Js.take n s) <= n)%nat.
Proof.
  revert s. induction n as [|n IH]; intros [|d s]; simpl; try lia.
  specialize (IH s). lia.
Qed.

Lemma ends_with_length (t s : string) :
  ends_with t s -> (String.length t <= String.length s)%nat.
Proof. intros [pre ->]. rewrite str_length_append. lia. Qed.

(** A repetition followed by nothing always matches. *)
Lemma star_loop_always {R : Type} (step : pos -> (pos -> option R) -> option R)
    (k : pos -> option R) (fuel : nat) (p : pos) :
  (forall q, k q <> None) -> star_loop step k fuel p <> None.
Proof.
  intros Hk. destruct fuel as [|fuel]; cbn [star_loop]; [apply Hk|].
  destruct (step p _); [discriminate | apply Hk].
Qed.

(** One or more characters of a class: no match where the first character is
    not in the class, and a match of at least one character where it is. *)
Lemma match_at_Plus_Chr (f : ascii -> bool) (b : option ascii) (c : ascii) (s : string) :
  match match_at (Plus (Chr f)) b (String c s) with
  | None => f c = false
  | Some q => f c = true /\ ends_with (rest q) s
  end.
Proof.
  unfold match_at, Plus. cbn [run rest groups].
  destruct (f c) eqn:Hc; [|reflexivity].
  match goal with
  | |- match ?m with _ => _ end => destruct m as [q|] eqn:E
  end.
  - split; [reflexivity|].
    apply (run_suffix (Star (Chr f))) in E as [q' [[= ->] W]]. exact W.
  - exfalso. revert E. apply (star_loop_always (run (Chr f)) Some). discriminate.
Qed.

(** What [s.replace(/[class]+/g, text)] is made of: the characters of [text]
    and the characters of [s] that are not in the class. *)
Lemma replace_loop_Plus_chars (f : ascii -> bool) (text : string) (fuel : nat) :
  forall b s x,
    (String.length s < fuel)%nat ->
    In x (chars (snd (replace_loop fuel (Plus (Chr f)) (fun (u : unit) _ _ => (u, text))
                        b s tt))) ->
    In x (chars text) \/ (In x (chars s) /\ f x = false).
Proof.
  induction fuel as [|fuel IH]; intros b s x Hf; [lia|].
  cbn [replace_loop]. destruct s as [|c s].
  - destruct (match_at (Plus (Chr f)) b EmptyString) as [q|] eqn:E.
    + unfold match_at, Plus in E. cbn [run rest] in E. discriminate.
    + simpl. tauto.
  - pose proof (match_at_Plus_Chr f b c s) as M.
    destruct (match_at (Plus (Chr f)) b (String c s)) as [q|] eqn:E.
    + destruct M as [Hc W].
      pose proof (match_at_split _ _ _ _ E) as Hs.
      pose proof (ends_with_length _ _ W) as Hl.
      assert (Hm : exists d m, consumed (mkPos b (String c s) []) q = String d m).
      { destruct (consumed (mkPos b (String c s) []) q) as [|d m] eqn:Em.
        - change (String c s = rest q) in Hs. rewrite <- Hs in Hl. simpl in Hl. lia.
        - eauto. }
      destruct Hm as [d [m Em]]. rewrite Em.
      specialize (IH (before q) (rest q) x ltac:(simpl in Hf; lia)).
      destruct (replace_loop fuel _ _ (before q) (rest q) tt) as [u tail].
      cbn [snd] in *. intros Hx. apply chars_append in Hx as [Hx|Hx]; [now left|].
      destruct (IH Hx) as [H|[H1 H2]]; [now left|].
      right. split; [|exact H2]. right. destruct W as [pre ->].
      apply chars_append. now right.
    + specialize (IH (Some c) s x ltac:(simpl in Hf; lia)).
      destruct (replace_loop fuel _ _ (Some c) s tt) as [u tail].
      cbn [snd] in *. intros [<-|Hx].
      * right. split; [now left | exact M].
      * destruct (IH Hx) as [H|[H1 H2]]; [now left|].
        right. split; [now right | exact H2].
Qed.

Lemma replace_all_Plus_chars (f : ascii -> bool) (text s : string) (x : ascii) :
  In x (chars (replace_all (Plus (Chr f)) text s)) ->
  In x (chars text) \/ (In x (chars s) /\ f x = false).
Proof. unfold replace_all, replace_with. apply replace_loop_Plus_chars. lia. Qed.

(** X6: the path strategy: the key has at most 50 characters, all of them in
    [a-z0-9_]. *)
Theorem createPathBasedKey_shape (text : string) :
  (String.length (createPathBasedKey text) <= 50)%nat /\
  (forall c, In c (chars (createPathBasedKey text)) ->
             (Js.lower_az c || Js.digit c || Js.is_char "_" c) = true).
Proof.
  unfold createPathBasedKey, Js.substring0. split; [apply length_take|].
  intros c Hc. apply In_chars_take in Hc.
  apply replace_all_Plus_chars in Hc.
  destruct Hc as [[<-|[]]|[Hc Hs]]; [reflexivity|].
  apply In_chars_trim in Hc. rewrite replace_all_Chr in Hc.
  apply without_chars in Hc as [_ Hc]. rewrite Hs in Hc.
  apply Bool.negb_false_iff in Hc. rewrite Bool.orb_false_r in Hc.
  now rewrite Hc.
Qed.

Lemma In_chars_join (sep : string) (l : list string) (c : ascii) :
  In c (chars (Js.join sep l)) ->
  In c (chars sep) \/ exists w, In w l /\ In c (chars w).
Proof.
  induction l as [|w l IH]; [simpl; tauto|].
  destruct l as [|w' l].
  - simpl. intros H. right. exists w. auto.
  - change (Js.join sep (w :: w' :: l)) with (w +:+ sep +:+ Js.join sep (w' :: l)).
    intros H. apply chars_append in H as [H|H].
    + right. exists w. split; [now left | exact H].
    + apply chars_append in H as [H|H]; [now left|].
      destruct (IH H) as [H'|[v [Hv Hc]]]; [now left|].
      right. exists v. split; [now right | exact Hc].
Qed.

(** X7: the custom strategy: the key is made of at most three words joined
    by an underscore, each of them at least one character of [a-z]. *)
Theorem createCustomKey_shape (text : string) :
  exists words,
    createCustomKey text = Js.join "_" words /\
    (List.length words <= 3)%nat /\
    (forall w, In w words ->
       w <> EmptyString /\ forall c, In c (chars w) -> Js.lower_az c = true).
Proof.
  unfold createCustomKey. cbv zeta. eexists. split; [reflexivity|]. split.
  - etransitivity; [apply length_filter|].
    rewrite length_map, length_firstn. lia.
  - intros w Hw. apply list_elem_of_In, list_elem_of_filter in Hw as [Hlen Hw].
    apply list_elem_of_In, in_map_iff in Hw as [v [<- _]].
    split.
    + intros E. rewrite E in Hlen. exact Hlen.
    + intros c Hc. rewrite replace_all_Chr in Hc.
      apply without_chars in Hc as [_ Hc]. now apply Bool.negb_false_iff in Hc.
Qed.

End KeyCharacters.

(** ** The rewrite in general *)

Section RewriteFacts.
Import Re I18nTransformer.

(** A global replace whose callback gives every match back leaves the text
    and the state as they are. *)
Lemma replace_loop_matches {St : Type} (r : regex)
    (f : St -> string -> list (nat * string) -> St * string) (st : St) (fuel : nat) :
  forall b s skipped,
    (forall e, In e (matches_loop fuel r b s skipped) ->
               f st (snd (fst e)) (snd e) = (st, snd (fst e))) ->
    replace_loop fuel r f b s st = (st, s).
Proof.
  induction fuel as [|fuel IH]; intros b s skipped H; [reflexivity|].
  cbn [replace_loop matches_loop] in *.
  destruct (match_at r b s) as [q|] eqn:E.
  - pose proof (match_at_split _ _ _ _ E) as Hs.
    cbv zeta in *.
    assert (G : f st (consumed (mkPos b s []) q) (groups q)
                = (st, consumed (mkPos b s []) q)).
    { apply (H (skipped, consumed (mkPos b s []) q, groups q)).
      destruct (consumed (mkPos b s []) q); destruct s; now left. }
    rewrite G.
    destruct (consumed (mkPos b s []) q) as [|d m] eqn:Em.
    + destruct s as [|c s']; [reflexivity|].
      rewrite (IH (Some c) s' (skipped +:+ Js.str c)); [reflexivity|].
      intros e He. apply H. now right.
    + assert (R : replace_loop fuel r f (before q) (rest q) st = (st, rest q)).
      { apply (IH _ _ (skipped +:+ String d m)). intros e He. apply H.
        destruct s; now right. }
      destruct s as [|c s']; rewrite R; now rewrite Hs.
  - destruct s as [|c s']; [reflexivity|].
    rewrite (IH (Some c) s' (skipped +:+ Js.str c)); [reflexivity|]. exact H.
Qed.

Lemma replace_with_matches {St : Type} (r : regex)
    (f : St -> string -> list (nat * string) -> St * string) (st : St) (s : string) :
  (forall e, In e (matches r s) -> f st (snd (fst e)) (snd e) = (st, snd (fst e))) ->
  replace_with r f s st = (st, s).
Proof. apply replace_loop_matches. Qed.

(** What holds of the state before a global replace and is kept by the
    callback holds after it. *)
Lemma replace_loop_keeps {St : Type} (P : St -> Prop) (r : regex)
    (f : St -> string -> list (nat * string) -> St * string) (fuel : nat) :
  (forall st m g, P st -> P (fst (f st m g))) ->
  forall b s st, P st -> P (fst (replace_loop fuel r f b s st)).
Proof.
  intros Hf. induction fuel as [|fuel IH]; intros b s st Hst; [exact Hst|].
  cbn [replace_loop].
  destruct (match_at r b s) as [q|].
  - cbv zeta. specialize (Hf st (consumed (mkPos b s []) q) (groups q) Hst).
    destruct (f st (consumed (mkPos b s []) q) (groups q)) as [st1 out].
    cbn [fst] in Hf.
    destruct (consumed (mkPos b s []) q) as [|d m].
    + destruct s as [|c s']; [exact Hf|].
      specialize (IH (Some c) s' st1 Hf).
      destruct (replace_loop fuel r f (Some c) s' st1). exact IH.
    + specialize (IH (before q) (rest q) st1 Hf).
      destruct (replace_loop fuel r f (before q) (rest q) st1).
      destruct s; exact IH.
  - destruct s as [|c s']; [exact Hst|].
    specialize (IH (Some c) s' st Hst).
    destruct (replace_loop fuel r f (Some c) s' st). exact IH.
Qed.

Lemma replace_with_keeps {St : Type} (P : St -> Prop) (r : regex)
    (f : St -> string -> list (nat * string) -> St * string) (s : string) (st : St) :
  (forall st m g, P st -> P (fst (f st m g))) ->
  P st -> P (fst (replace_with r f s st)).
Proof. intros Hf. now apply replace_loop_keeps. Qed.

Lemma pass_refl (st : Rewrite) (s : string) : pass st s (st, s).
Proof. split; [apply Nat.le_refl | reflexivity]. Qed.

Lemma pass_trans (st st1 : Rewrite) (s s1 : string) (result : Rewrite * string) :
  pass st s (st1, s1) -> pass st1 s1 result -> pass st s result.
Proof.
  intros [H1 H2] [H3 H4]. cbn [fst snd] in *. split; [lia|].
  intros E. rewrite H4 by lia. apply H2. lia.
Qed.

Lemma steady_pass (f : Rewrite -> string -> list (nat * string) -> Rewrite * string)
    (st : Rewrite) (m : string) (g : list (nat * string)) :
  steady f -> pass st m (f st m g).
Proof.
  intros Hf. destruct (Hf st m g) as [->|H]; [apply pass_refl|].
  split; [lia | intros E; lia].
Qed.

(** A global replace with a steady callback is a pass. *)
Lemma replace_loop_pass (r : regex)
    (f : Rewrite -> string -> list (nat * string) -> Rewrite * string) (fuel : nat) :
  steady f ->
  forall b s st, pass st s (replace_loop fuel r f b s st).
Proof.
  intros Hf. induction fuel as [|fuel IH]; intros b s st; [apply pass_refl|].
  cbn [replace_loop].
  destruct (match_at r b s) as [q|] eqn:E.
  - pose proof (match_at_split _ _ _ _ E) as Hs. cbv zeta.
    pose proof (steady_pass f st (consumed (mkPos b s []) q) (groups q) Hf) as [P1 P2].
    destruct (f st (consumed (mkPos b s []) q) (groups q)) as [st1 out].
    cbn [fst snd] in P1, P2.
    destruct (consumed (mkPos b s []) q) as [|d m].
    + destruct s as [|c s']; [split; [exact P1 | exact P2]|].
      destruct (IH (Some c) s' st1) as [Q1 Q2].
      destruct (replace_loop fuel r f (Some c) s' st1) as [st2 tail].
      unfold pass in *; cbn [fst snd] in *. split; [lia|].
      intros E2. injection (Q2 ltac:(lia)) as -> ->.
      injection (P2 ltac:(lia)) as -> ->. reflexivity.
    + destruct (IH (before q) (rest q) st1) as [Q1 Q2].
      destruct (replace_loop fuel r f (before q) (rest q) st1) as [st2 tail].
      unfold pass in *; cbn [fst snd] in *.
      assert (G : (snd st <= snd st2)%nat /\
                  (snd st2 = snd st -> (st2, out +:+ tail) = (st, s))).
      { split; [lia|].
        intros E2. injection (Q2 ltac:(lia)) as -> ->.
        injection (P2 ltac:(lia)) as -> ->. now rewrite Hs. }
      destruct s; exact G.
  - destruct s as [|c s']; [apply pass_refl|].
    destruct (IH (Some c) s' st) as [Q1 Q2].
    destruct (replace_loop fuel r f (Some c) s' st) as [st2 tail].
    unfold pass in *; cbn [fst snd] in *. split; [exact Q1|].
    intros E2. injection (Q2 E2) as -> ->. reflexivity.
Qed.

Lemma replace_with_pass (r : regex)
    (f : Rewrite -> string -> list (nat * string) -> Rewrite * string)
    (s : string) (st : Rewrite) :
  steady f -> pass st s (replace_with r f s st).
Proof. intros Hf. now apply replace_loop_pass. Qed.

Lemma rewriteText_steady (config : I18nConfig) : steady (rewriteText config).
Proof.
  intros st m g. unfold rewriteText. cbv zeta.
  destruct (alreadyTransformed m); [now left|].
  destruct (TextValidator.isValidTranslationText config _); [|now left].
  destruct (getOrCreateKey config _ (fst st)). now right.
Qed.

Lemma rewriteAttribute_steady (config : I18nConfig) : steady (rewriteAttribute config).
Proof.
  intros st m g. unfold rewriteAttribute. cbv zeta.
  destruct (alreadyTransformed m); [now left|].
  destruct (TextValidator.isValidTranslationText config _); [|now left].
  destruct (getOrCreateKey config _ (fst st)). now right.
Qed.

Lemma rewriteAttribute_js_steady (config : I18nConfig) (attr : string) :
  steady (JavaScriptTransformer.rewriteAttribute config attr).
Proof.
  intros st m g. unfold JavaScriptTransformer.rewriteAttribute. cbv zeta.
  destruct (alreadyTransformed m); [now left|].
  destruct (TextValidator.isValidTranslationText config _); [|now left].
  destruct (JavaScriptTransformer.getOrCreateKey config _ (fst st)). now right.
Qed.

Lemma rewriteButton_steady (config : I18nConfig) :
  steady (JavaScriptTransformer.rewriteButton config).
Proof.
  intros st m g. unfold JavaScriptTransformer.rewriteButton. cbv zeta.
  destruct (_ || _); [now left|].
  destruct (TextValidator.isValidTranslationText config _); [|now left].
  destruct (JavaScriptTransformer.getOrCreateKey config _ (fst st)). now right.
Qed.

(** One pass of a rewrite: what [replace_with] returns for the text [c], and
    that it is a pass. *)
Ltac take_pass r c steadiness P st' c' :=
  match goal with
  | |- context [replace_with r ?f c ?st] =>
      pose proof (replace_with_pass r f c st steadiness) as P;
      destruct (replace_with r f c st) as [st' c'];
      cbn [fst snd]
  end.

(** The passes of the pattern-based rewrite, one after the other. *)
Lemma transformJSXElements_js_pass (config : I18nConfig) (content : string)
    (keys : Registry) :
  exists st c,
    JavaScriptTransformer.transformJSXElements config content keys
    = mkRewritten c (snd st) (fst st) /\
    pass (keys, 0%nat) content (st, c).
Proof.
  unfold JavaScriptTransformer.transformJSXElements.
  take_pass jsxTextPattern content (rewriteText_steady config) P0 st0 c0.
  cbn [fold_left fst snd].
  take_pass (attributePattern "placeholder") c0
    (rewriteAttribute_js_steady config "placeholder") P1 st1 c1.
  take_pass (attributePattern "title") c1
    (rewriteAttribute_js_steady config "title") P2 st2 c2.
  take_pass (attributePattern "alt") c2
    (rewriteAttribute_js_steady config "alt") P3 st3 c3.
  take_pass (attributePattern "aria-label") c3
    (rewriteAttribute_js_steady config "aria-label") P4 st4 c4.
  cbn [fst snd].
  take_pass JavaScriptTransformer.buttonPattern c4 (rewriteButton_steady config) P5 st5 c5.
  exists st5, c5. split; [reflexivity|].
  eapply pass_trans; [eapply pass_trans; [eapply pass_trans; [eapply pass_trans;
    [eapply pass_trans; [exact P0 | exact P1] | exact P2] | exact P3] | exact P4] | exact P5].
Qed.

Lemma transformJSXElements_pass (config : I18nConfig) (fullText : string)
    (keys : Registry) :
  count (transformJSXElements config fullText keys) = 0%nat ->
  transformJSXElements config fullText keys = mkRewritten fullText 0 keys.
Proof.
  unfold transformJSXElements.
  take_pass jsxTextPattern fullText (rewriteText_steady config) P0 st0 c0.
  unfold attributePatterns. cbn [map fold_left fst snd].
  take_pass (attributePattern "placeholder") c0 (rewriteAttribute_steady config) P1 st1 c1.
  take_pass (attributePattern "title") c1 (rewriteAttribute_steady config) P2 st2 c2.
  take_pass (attributePattern "alt") c2 (rewriteAttribute_steady config) P3 st3 c3.
  take_pass (attributePattern "aria-label") c3 (rewriteAttribute_steady config) P4 st4 c4.
  cbn [count fst snd].
  assert (P : pass (keys, 0%nat) fullText (st4, c4)).
  { eapply pass_trans; [eapply pass_trans; [eapply pass_trans;
      [eapply pass_trans; [exact P0 | exact P1] | exact P2] | exact P3] | exact P4]. }
  intros E. destruct P as [_ P]. cbn [fst snd] in P.
  injection (P E) as -> ->. reflexivity.
Qed.

(** X8: a rewrite that counts no text has changed nothing: the content it
    returns is the content it was given and the registry is the one it was
    given, for the pattern-based transformer and for the structural one. *)
Theorem zero_count_means_untouched (config : I18nConfig) (content : string)
    (keys : Registry) :
  (count (JavaScriptTransformer.transformJSXElements config content keys) = 0%nat ->
   JavaScriptTransformer.transformJSXElements config content keys
   = mkRewritten content 0 keys) /\
  (count (transformJSXElements config content keys) = 0%nat ->
   transformJSXElements config content keys = mkRewritten content 0 keys).
Proof.
  split; [|apply transformJSXElements_pass].
  destruct (transformJSXElements_js_pass config content keys) as [st [c [-> [_ P]]]].
  cbn [count fst snd] in *. intros H. injection (P H) as -> ->. reflexivity.
Qed.

Lemma zero_count_means_untouched_witness :
  count (JavaScriptTransformer.transformJSXElements defaultConfig
           "export const answer = 42;" [("Welcome", "Welcome")]) = 0%nat /\
  JavaScriptTransformer.transformJSXElements defaultConfig
    "export const answer = 42;" [("Welcome", "Welcome")]
  = mkRewritten "export const answer = 42;" 0 [("Welcome", "Welcome")].
Proof.
  split; [vm_compute; reflexivity|].
  apply (proj1 (zero_count_means_untouched defaultConfig "export const answer = 42;"
                  [("Welcome", "Welcome")])).
  vm_compute. reflexivity.
Defined.

End RewriteFacts.

(** ** The quick scan, the extraction and the registry *)

Section ExtractionFacts.
Import Re I18nTransformer.

Lemma existsb_false {A : Type} (f : A -> bool) (l : list A) (x : A) :
  existsb f l = false -> In x l -> f x = false.
Proof.
  intros H Hx. destruct (f x) eqn:E; [|reflexivity].
  rewrite <- H. symmetry. apply existsb_exists. eauto.
Qed.

(** Where the quick scan accepts no match of a pattern, the rewrite of the
    JSX text leaves the text and the state as they are. *)
Lemma rewriteText_nothing (config : I18nConfig) (r : regex) (content : string)
    (st : Rewrite) :
  existsb (fun m => TextValidator.isValidTranslationText config (group 1 (snd m)))
          (matches r content) = false ->
  replace_with r (rewriteText config) content st = (st, content).
Proof.
  intros H. apply replace_with_matches. intros e He.
  apply (existsb_false _ _ _ H) in He.
  unfold rewriteText. cbv zeta.
  destruct (alreadyTransformed _); [reflexivity|].
  now rewrite isValid_trim, He.
Qed.

Lemma rewriteAttribute_nothing (config : I18nConfig) (r : regex) (content : string)
    (st : Rewrite) :
  existsb (fun m => TextValidator.isValidTranslationText config (group 1 (snd m)))
          (matches r content) = false ->
  replace_with r (rewriteAttribute config) content st = (st, content).
Proof.
  intros H. apply replace_with_matches. intros e He.
  apply (existsb_false _ _ _ H) in He.
  unfold rewriteAttribute. cbv zeta.
  destruct (alreadyTransformed _); [reflexivity|].
  now rewrite He.
Qed.

Lemma rewriteAttribute_js_nothing (config : I18nConfig) (attr : string) (r : regex)
    (content : string) (st : Rewrite) :
  existsb (fun m => TextValidator.isValidTranslationText config (group 1 (snd m)))
          (matches r content) = false ->
  replace_with r (JavaScriptTransformer.rewriteAttribute config attr) content st
  = (st, content).
Proof.
  intros H. apply replace_with_matches. intros e He.
  apply (existsb_false _ _ _ H) in He.
  unfold JavaScriptTransformer.rewriteAttribute. cbv zeta.
  destruct (alreadyTransformed _); [reflexivity|].
  now rewrite He.
Qed.

Lemma extractMatches_nothing (config : I18nConfig) (type : ExtractionType)
    (filePath : string) (found : list (string * string * list (nat * string)))
    (keys : Registry) :
  existsb (fun m => TextValidator.isValidTranslationText config (group 1 (snd m)))
          found = false ->
  extractMatches config type filePath found keys = ([], keys).
Proof.
  unfold extractMatches. generalize (@nil TextExtraction, keys) as acc.
  induction found as [|m found IH]; intros acc H; cbn [fold_left]; [reflexivity|].
  cbn [existsb] in H. apply Bool.orb_false_elim in H as [H1 H2].
  rewrite isValid_trim, H1. now apply IH.
Qed.

(** The four attribute patterns of the quick scan. *)
Lemma hasExtractableText_false (config : I18nConfig) (content : string) :
  hasExtractableText config content = false ->
  forall r, In r (jsxTextPattern :: attributePatterns) ->
    existsb (fun m => TextValidator.isValidTranslationText config (group 1 (snd m)))
            (matches r content) = false.
Proof.
  unfold hasExtractableText. cbv zeta. intros H r Hr.
  apply Bool.orb_false_elim in H as [H0 H].
  destruct Hr as [<-|Hr]; [exact H0|].
  exact (existsb_false _ _ _ H Hr).
Qed.

Lemma transformJSXElements_nothing (config : I18nConfig) (content : string)
    (keys : Registry) :
  hasExtractableText config content = false ->
  transformJSXElements config content keys = mkRewritten content 0 keys.
Proof.
  intros H. pose proof (hasExtractableText_false config content H) as G.
  unfold transformJSXElements.
  rewrite rewriteText_nothing by (apply G; now left).
  unfold attributePatterns in *. cbn [map fold_left fst snd In] in *.
  rewrite (rewriteAttribute_nothing config (attributePattern "placeholder") content)
    by (apply G; tauto).
  cbn [fst snd].
  rewrite (rewriteAttribute_nothing config (attributePattern "title") content)
    by (apply G; tauto).
  cbn [fst snd].
  rewrite (rewriteAttribute_nothing config (attributePattern "alt") content)
    by (apply G; tauto).
  cbn [fst snd].
  rewrite (rewriteAttribute_nothing config (attributePattern "aria-label") content)
    by (apply G; tauto).
  reflexivity.
Qed.

Lemma extractAttributes_nothing (config : I18nConfig) (content filePath : string)
    (keys : Registry) :
  hasExtractableText config content = false ->
  extractAttributes config content filePath keys = ([], keys).
Proof.
  intros H. pose proof (hasExtractableText_false config content H) as G.
  unfold attributePatterns in G. cbn [map In] in G.
  unfold extractAttributes. cbn [fold_left fst snd].
  rewrite (extractMatches_nothing config placeholder filePath
             (matches (attributePattern "placeholder") content) keys)
    by (apply G; tauto).
  cbn [fst snd app].
  rewrite (extractMatches_nothing config title filePath
             (matches (attributePattern "title") content) keys)
    by (apply G; tauto).
  cbn [fst snd app].
  rewrite (extractMatches_nothing config attribute filePath
             (matches (attributePattern "alt") content) keys)
    by (apply G; tauto).
  cbn [fst snd app].
  rewrite (extractMatches_nothing config aria_label filePath
             (matches (attributePattern "aria-label") content) keys)
    by (apply G; tauto).
  reflexivity.
Qed.

Lemma extractTexts_nothing (config : I18nConfig) (content filePath : string)
    (keys : Registry) :
  hasExtractableText config content = false ->
  extractTexts config content filePath keys = ([], keys).
Proof.
  intros H. pose proof (hasExtractableText_false config content H) as G.
  unfold extractTexts, extractJSXText.
  rewrite (extractMatches_nothing config jsx_text filePath
             (matches jsxTextPattern content) keys) by (apply G; now left).
  destruct (Config.extractJSXText _);
    rewrite (extractAttributes_nothing config content filePath keys H);
    destruct (Config.extractAttributes _); reflexivity.
Qed.

(** The pattern-based rewrite has one more pass, over the buttons. *)
Lemma transformJSXElements_js_nothing (config : I18nConfig) (content : string)
    (keys : Registry) :
  hasExtractableText config content = false ->
  matches JavaScriptTransformer.buttonPattern content = [] ->
  JavaScriptTransformer.transformJSXElements config content keys
  = mkRewritten content 0 keys.
Proof.
  intros H Hb. pose proof (hasExtractableText_false config content H) as G.
  unfold attributePatterns in G. cbn [map In] in G.
  unfold JavaScriptTransformer.transformJSXElements.
  rewrite rewriteText_nothing by (apply G; tauto).
  cbn [fold_left fst snd].
  rewrite (rewriteAttribute_js_nothing config "placeholder"
             (attributePattern "placeholder") content) by (apply G; tauto).
  cbn [fst snd].
  rewrite (rewriteAttribute_js_nothing config "title"
             (attributePattern "title") content) by (apply G; tauto).
  cbn [fst snd].
  rewrite (rewriteAttribute_js_nothing config "alt"
             (attributePattern "alt") content) by (apply G; tauto).
  cbn [fst snd].
  rewrite (rewriteAttribute_js_nothing config "aria-label"
             (attributePattern "aria-label") content) by (apply G; tauto).
  cbn [fst snd].
  rewrite replace_with_matches; [reflexivity|].
  rewrite Hb. intros e [].
Qed.

(** X9: the quick scan is safe to rely on: in a text in which
    [hasExtractableText] finds nothing, the extraction finds nothing and the
    structural rewrite changes nothing, whatever the registry. *)
Theorem nothing_to_extract (config : I18nConfig) (content filePath : string)
    (keys : Registry) :
  hasExtractableText config content = false ->
  extractTexts config content filePath keys = ([], keys) /\
  transformJSXElements config content keys = mkRewritten content 0 keys.
Proof.
  intros H. split; [now apply extractTexts_nothing | now apply transformJSXElements_nothing].
Qed.

Lemma nothing_to_extract_witness :
  hasExtractableText defaultConfig "export const answer = 42;" = false /\
  transformJSXElements defaultConfig "export const answer = 42;" [("Welcome", "Welcome")]
  = mkRewritten "export const answer = 42;" 0 [("Welcome", "Welcome")].
Proof.
  split; [vm_compute; reflexivity|].
  apply (nothing_to_extract defaultConfig "export const answer = 42;" "src/constants.tsx").
  vm_compute. reflexivity.
Defined.

(** *** The registry only grows *)

Lemma extends_refl (keys : Registry) : extends keys keys.
Proof. intros text key H. exact H. Qed.

Lemma extends_trans (a b c : Registry) : extends a b -> extends b c -> extends a c.
Proof. intros H1 H2 text key H. auto. Qed.

Lemma getOrCreateKey_extends (config : I18nConfig) (text : string) (keys : Registry) :
  extends keys (snd (getOrCreateKey config text keys)).
Proof. intros t k H. now apply getOrCreateKey_keeps. Qed.

Lemma rewriteText_extends (config : I18nConfig) (keys : Registry) :
  forall st m g, extends keys (fst st) -> extends keys (fst (fst (rewriteText config st m g))).
Proof.
  intros st m g H. unfold rewriteText. cbv zeta.
  destruct (alreadyTransformed m); [exact H|].
  destruct (TextValidator.isValidTranslationText config _); [|exact H].
  pose proof (getOrCreateKey_extends config (Js.trim (group 1 g)) (fst st)) as G.
  destruct (getOrCreateKey config _ (fst st)). cbn [fst snd] in *.
  eapply extends_trans; eassumption.
Qed.

Lemma rewriteAttribute_extends (config : I18nConfig) (keys : Registry) :
  forall st m g,
    extends keys (fst st) -> extends keys (fst (fst (rewriteAttribute config st m g))).
Proof.
  intros st m g H. unfold rewriteAttribute. cbv zeta.
  destruct (alreadyTransformed m); [exact H|].
  destruct (TextValidator.isValidTranslationText config _); [|exact H].
  pose proof (getOrCreateKey_extends config (group 1 g) (fst st)) as G.
  destruct (getOrCreateKey config _ (fst st)). cbn [fst snd] in *.
  eapply extends_trans; eassumption.
Qed.

Lemma rewriteAttribute_js_extends (config : I18nConfig) (attr : string) (keys : Registry) :
  forall st m g,
    extends keys (fst st) ->
    extends keys (fst (fst (JavaScriptTransformer.rewriteAttribute config attr st m g))).
Proof.
  intros st m g H. unfold JavaScriptTransformer.rewriteAttribute. cbv zeta.
  destruct (alreadyTransformed m); [exact H|].
  destruct (TextValidator.isValidTranslationText config _); [|exact H].
  pose proof (getOrCreateKey_extends config (group 1 g) (fst st)) as G.
  unfold JavaScriptTransformer.getOrCreateKey.
  destruct (getOrCreateKey config _ (fst st)). cbn [fst snd] in *.
  eapply extends_trans; eassumption.
Qed.

Lemma rewriteButton_extends (config : I18nConfig) (keys : Registry) :
  forall st m g,
    extends keys (fst st) ->
    extends keys (fst (fst (JavaScriptTransformer.rewriteButton config st m g))).
Proof.
  intros st m g H. unfold JavaScriptTransformer.rewriteButton. cbv zeta.
  destruct (_ || _); [exact H|].
  destruct (TextValidator.isValidTranslationText config _); [|exact H].
  pose proof (getOrCreateKey_extends config (Js.trim (group 2 g)) (fst st)) as G.
  unfold JavaScriptTransformer.getOrCreateKey.
  destruct (getOrCreateKey config _ (fst st)). cbn [fst snd] in *.
  eapply extends_trans; eassumption.
Qed.

(** One pass of a rewrite: what [replace_with] returns for the text [c], and
    that its registry extends [keys]. *)
Ltac take_extension r c keys H kept st' c' :=
  match goal with
  | |- context [replace_with r ?f c ?from] =>
      apply (replace_with_keeps (fun x : Rewrite => extends keys (fst x)) r f c from
               kept) in H;
      destruct (replace_with r f c from) as [st' c'];
      cbn [fst snd] in *
  end.

Lemma transformJSXElements_extends (config : I18nConfig) (content : string)
    (keys : Registry) :
  extends keys (keysAfter (transformJSXElements config content keys)).
Proof.
  unfold transformJSXElements.
  pose proof (extends_refl keys) as H.
  change keys with (fst (keys, 0%nat)) in H at 2.
  take_extension jsxTextPattern content keys H (rewriteText_extends config keys) st0 c0.
  unfold attributePatterns. cbn [map fold_left fst snd].
  take_extension (attributePattern "placeholder") c0 keys H
    (rewriteAttribute_extends config keys) st1 c1.
  take_extension (attributePattern "title") c1 keys H
    (rewriteAttribute_extends config keys) st2 c2.
  take_extension (attributePattern "alt") c2 keys H
    (rewriteAttribute_extends config keys) st3 c3.
  take_extension (attributePattern "aria-label") c3 keys H
    (rewriteAttribute_extends config keys) st4 c4.
  exact H.
Qed.

Lemma transformJSXElements_js_extends (config : I18nConfig) (content : string)
    (keys : Registry) :
  extends keys (keysAfter (JavaScriptTransformer.transformJSXElements config content keys)).
Proof.
  unfold JavaScriptTransformer.transformJSXElements.
  pose proof (extends_refl keys) as H.
  change keys with (fst (keys, 0%nat)) in H at 2.
  take_extension jsxTextPattern content keys H (rewriteText_extends config keys) st0 c0.
  cbn [fold_left fst snd].
  take_extension (attributePattern "placeholder") c0 keys H
    (rewriteAttribute_js_extends config "placeholder" keys) st1 c1.
  take_extension (attributePattern "title") c1 keys H
    (rewriteAttribute_js_extends config "title" keys) st2 c2.
  take_extension (attributePattern "alt") c2 keys H
    (rewriteAttribute_js_extends config "alt" keys) st3 c3.
  take_extension (attributePattern "aria-label") c3 keys H
    (rewriteAttribute_js_extends config "aria-label" keys) st4 c4.
  take_extension JavaScriptTransformer.buttonPattern c4 keys H
    (rewriteButton_extends config keys) st5 c5.
  exact H.
Qed.

(** *** The records of the extraction *)

Lemma sound_extraction_extends (config : I18nConfig) (filePath : string)
    (keys keys' : Registry) (e : TextExtraction) :
  extends keys keys' ->
  sound_extraction config filePath keys e -> sound_extraction config filePath keys' e.
Proof.
  intros H [H1 [H2 [H3 H4]]]. split; [exact H1|]. split; [exact H2|].
  split; [now apply H | exact H4].
Qed.

Lemma split_char_nonempty (sep : ascii) (s : string) :
  (1 <= List.length (Js.split_char sep s))%nat.
Proof.
  induction s as [|c s IH]; simpl; [lia|].
  destruct (Ascii.eqb c sep); simpl; [lia|].
  destruct (Js.split_char sep s); simpl; lia.
Qed.

(** The extraction over the matches of one pattern: the registry grows, and
    the records found are sound for the registry reached. *)
Lemma extractMatches_sound (config : I18nConfig) (type : ExtractionType)
    (filePath : string) (found : list (string * string * list (nat * string)))
    (keys : Registry) :
  extends keys (snd (extractMatches config type filePath found keys)) /\
  (forall e, In e (fst (extractMatches config type filePath found keys)) ->
             sound_extraction config filePath
               (snd (extractMatches config type filePath found keys)) e).
Proof.
  unfold extractMatches.
  assert (G : forall acc : list TextExtraction * Registry,
             extends keys (snd acc) ->
             (forall e, In e (fst acc) -> sound_extraction config filePath (snd acc) e) ->
             let result :=
               fold_left (fun acc m =>
                 let text := Js.trim (group 1 (snd m)) in
                 if TextValidator.isValidTranslationText config text then
                   let '(key, keys) := getOrCreateKey config text (snd acc) in
                   ((fst acc ++ [mkExtraction text key type filePath
                                   (getLineNumber (fst (fst m)))
                                   (getColumnNumber (fst (fst m)))])%list, keys)
                 else acc) found acc in
             extends keys (snd result) /\
             (forall e, In e (fst result) ->
                        sound_extraction config filePath (snd result) e)).
  { induction found as [|m found IH]; intros acc H1 H2; cbn [fold_left].
    - split; assumption.
    - cbv zeta in *.
      destruct (TextValidator.isValidTranslationText config (Js.trim (group 1 (snd m))))
        eqn:Hvalid; [|now apply IH].
      pose proof (getOrCreateKey_extends config (Js.trim (group 1 (snd m))) (snd acc)) as E.
      pose proof (getOrCreateKey_registers config (Js.trim (group 1 (snd m))) (snd acc)) as R.
      destruct (getOrCreateKey config (Js.trim (group 1 (snd m))) (snd acc)) as [key keys'].
      cbn [fst snd] in *. apply IH; cbn [fst snd].
      + eapply extends_trans; eassumption.
      + intros e He. apply in_app_or in He as [He|[<-|[]]].
        * eapply sound_extraction_extends; [exact E | now apply H2].
        * unfold sound_extraction. cbn [te_text te_key te_filePath te_line te_column].
          rewrite trim_idempotent in *.
          split; [exact Hvalid|]. split; [reflexivity|]. split; [exact R|].
          split; [reflexivity|]. split.
          -- apply split_char_nonempty.
          -- unfold getColumnNumber. lia. }
  apply G; [apply extends_refl | intros e []].
Qed.

Lemma extractAttributes_sound (config : I18nConfig) (content filePath : string)
    (keys : Registry) :
  extends keys (snd (extractAttributes config content filePath keys)) /\
  (forall e, In e (fst (extractAttributes config content filePath keys)) ->
             sound_extraction config filePath
               (snd (extractAttributes config content filePath keys)) e).
Proof.
  unfold extractAttributes. cbn [fold_left fst snd].
  pose proof (extractMatches_sound config placeholder filePath
                (matches (attributePattern "placeholder") content) keys) as [E1 S1].
  destruct (extractMatches config placeholder filePath _ keys) as [f1 k1].
  cbn [fst snd] in *.
  pose proof (extractMatches_sound config title filePath
                (matches (attributePattern "title") content) k1) as [E2 S2].
  destruct (extractMatches config title filePath _ k1) as [f2 k2].
  cbn [fst snd] in *.
  pose proof (extractMatches_sound config attribute filePath
                (matches (attributePattern "alt") content) k2) as [E3 S3].
  destruct (extractMatches config attribute filePath _ k2) as [f3 k3].
  cbn [fst snd] in *.
  pose proof (extractMatches_sound config aria_label filePath
                (matches (attributePattern "aria-label") content) k3) as [E4 S4].
  destruct (extractMatches config aria_label filePath _ k3) as [f4 k4].
  cbn [fst snd] in *.
  split.
  - eapply extends_trans; [|exact E4]. eapply extends_trans; [|exact E3].
    eapply extends_trans; eassumption.
  - intros e He. rewrite !in_app_iff in He. cbn [In] in He.
    destruct He as [[[[[]|He]|He]|He]|He].
    + eapply sound_extraction_extends; [|exact (S1 e He)].
      eapply extends_trans; [|exact E4]. eapply extends_trans; eassumption.
    + eapply sound_extraction_extends; [|exact (S2 e He)].
      eapply extends_trans; eassumption.
    + eapply sound_extraction_extends; [exact E4 | exact (S3 e He)].
    + exact (S4 e He).
Qed.

Lemma extractTexts_sound (config : I18nConfig) (content filePath : string)
    (keys : Registry) :
  extends keys (snd (extractTexts config content filePath keys)) /\
  (forall e, In e (fst (extractTexts config content filePath keys)) ->
             sound_extraction config filePath
               (snd (extractTexts config content filePath keys)) e).
Proof.
  unfold extractTexts.
  assert (A : exists a k1,
             (if Config.extractJSXText (transformation config)
              then extractJSXText config content filePath keys else ([], keys))
             = (a, k1) /\ extends keys k1 /\
             (forall e, In e a -> sound_extraction config filePath k1 e)).
  { destruct (Config.extractJSXText _).
    - unfold extractJSXText.
      pose proof (extractMatches_sound config jsx_text filePath
                    (matches jsxTextPattern content) keys) as [E S].
      destruct (extractMatches config jsx_text filePath _ keys) as [a k1].
      exists a, k1. auto.
    - exists [], keys. split; [reflexivity|].
      split; [apply extends_refl | intros e []]. }
  destruct A as [a [k1 [-> [E1 S1]]]].
  assert (B : exists b k2,
             (if Config.extractAttributes (transformation config)
              then extractAttributes config content filePath k1 else ([], k1))
             = (b, k2) /\ extends k1 k2 /\
             (forall e, In e b -> sound_extraction config filePath k2 e)).
  { destruct (Config.extractAttributes _).
    - pose proof (extractAttributes_sound config content filePath k1) as [E S].
      destruct (extractAttributes config content filePath k1) as [b k2].
      exists b, k2. auto.
    - exists [], k1. split; [reflexivity|].
      split; [apply extends_refl | intros e []]. }
  destruct B as [b [k2 [-> [E2 S2]]]]. cbn [fst snd].
  split; [eapply extends_trans; eassumption|].
  intros e He. apply in_app_or in He as [He|He].
  - eapply sound_extraction_extends; [exact E2 | now apply S1].
  - now apply S2.
Qed.

(** X10: the registry only grows: an entry of the registry given to the
    extraction or to the rewrite, of either transformer, is in the registry
    they return, under the same key. *)
Theorem registry_only_grows (config : I18nConfig) (content filePath : string)
    (keys : Registry) :
  extends keys (snd (extractTexts config content filePath keys)) /\
  extends keys (keysAfter (transformJSXElements config content keys)) /\
  extends keys (keysAfter (JavaScriptTransformer.transformJSXElements config content keys)).
Proof.
  split; [apply extractTexts_sound|].
  split; [apply transformJSXElements_extends | apply transformJSXElements_js_extends].
Qed.

(** X11: every record of the extraction holds a trimmed text that the
    classifier accepts, the key the registry returned by the extraction has
    for that text, the path of the file, and a line and a column that start
    at 1. *)
Theorem extraction_records_are_sound (config : I18nConfig) (content filePath : string)
    (keys : Registry) (e : TextExtraction) :
  In e (fst (extractTexts config content filePath keys)) ->
  sound_extraction config filePath (snd (extractTexts config content filePath keys)) e.
Proof. apply extractTexts_sound. Qed.

Lemma extraction_records_are_sound_witness :
  In (mkExtraction "Welcome" "Welcome" jsx_text "src/Title.tsx" 1 4)
     (fst (extractTexts defaultConfig "<h1>Welcome</h1>" "src/Title.tsx" [])) /\
  sound_extraction defaultConfig "src/Title.tsx"
    (snd (extractTexts defaultConfig "<h1>Welcome</h1>" "src/Title.tsx" []))
    (mkExtraction "Welcome" "Welcome" jsx_text "src/Title.tsx" 1 4).
Proof.
  split; [vm_compute; left; reflexivity|].
  apply (extraction_records_are_sound defaultConfig "<h1>Welcome</h1>" "src/Title.tsx" []).
  vm_compute. left. reflexivity.
Defined.

End ExtractionFacts.

(** ** The catalog read back *)

Section SeedFacts.
Import I18nTransformer.

Lemma seedKeys_accepted (config : I18nConfig) (translations : Obj.t) :
  forall keys text key,
    In (text, key) (seedKeys config translations keys) ->
    In (text, key) keys \/
    (In (key, text) translations /\
     TextValidator.isValidTranslationText config text = true).
Proof.
  unfold seedKeys.
  induction translations as [|[k v] translations IH]; intros keys text key H;
    cbn [fold_left fst snd] in H; [now left|].
  apply IH in H as [H|[H1 H2]].
  - destruct (TextValidator.isValidTranslationText config v) eqn:Hv; [|now left].
    apply In_set in H as [[= -> ->]|H]; [|now left].
    right. split; [now left | exact Hv].
  - right. split; [now right | exact H2].
Qed.

(** X12: only what the classifier accepts is read back: every entry of the
    registry seeded from a catalog is an entry of the catalog, value to key,
    whose value the classifier accepts. *)
Theorem seedKeys_only_accepted (config : I18nConfig) (translations : Assoc.t)
    (text key : string) :
  In (text, key) (seedKeys config translations []) ->
  In (key, text) translations /\
  TextValidator.isValidTranslationText config text = true.
Proof. intros H. apply seedKeys_accepted in H as [[]|H]. exact H. Qed.

Lemma seedKeys_only_accepted_witness :
  In ("Welcome", "welcome")
     (seedKeys defaultConfig [("welcome", "Welcome"); ("ratio", "100%")] []) /\
  TextValidator.isValidTranslationText defaultConfig "Welcome" = true.
Proof.
  split; [vm_compute; left; reflexivity|].
  apply (seedKeys_only_accepted defaultConfig
           [("welcome", "Welcome"); ("ratio", "100%")] "Welcome" "welcome").
  vm_compute. left. reflexivity.
Defined.







(** The key [__proto__] does not survive the catalog: the write of
    [sourceTranslations["__proto__"]] creates no property. *)
Lemma proto_key_is_not_written :
  TextValidator.isValidTranslationText defaultConfig "__proto__" = true /\
  resolveAll defaultConfig ["__proto__"] [] = [("__proto__", "__proto__")] /\
  sortedTranslations defaultConfig [("__proto__", "__proto__")] = [] /\
  seededFrom defaultConfig [("__proto__", "__proto__")] = [].
Proof. vm_compute. conjuncts; reflexivity. Qed.









End SeedFacts.

(** ** Where the import goes *)

Section ImportFacts.
Import I18nTransformer.

(** The loop that keeps the index after the last element that [f] accepts. *)
Lemma after_last_fold {A : Type} (f : A -> bool) (l : list A) :
  forall i n,
    fold_left (fun acc x => (S (fst acc), if f x then S (fst acc) else snd acc)) l (i, n)
    = ((i + List.length l)%nat,
       match index_where f (rev l) with
       | Some j => (i + List.length l - j)%nat
       | None => n
       end).
Proof.
  induction l as [|m l IH]; intros i n; cbn [fold_left].
  - simpl. f_equal. lia.
  - cbn [fst snd]. rewrite IH. cbn [rev List.length]. f_equal; [lia|].
    assert (G : forall (l' : list A),
               index_where f (l' ++ [m])
               = match index_where f l' with
                 | Some j => Some j
                 | None => if f m then Some (List.length l') else None
                 end).
    { induction l' as [|x l' IH']; simpl.
      - now destruct (f m).
      - destruct (f x); [reflexivity|]. rewrite IH'.
        destruct (index_where f l'); [reflexivity|].
        now destruct (f m). }
    rewrite G.
    destruct (index_where f (rev l)) as [j|]; [f_equal; lia|].
    rewrite length_rev. destruct (f m); [lia | reflexivity].
Qed.

Lemma index_where_spec {A : Type} (f : A -> bool) (l : list A) (d : A) :
  match index_where f l with
  | Some j => (j < List.length l)%nat /\ f (nth j l d) = true /\
              forall i, (i < j)%nat -> f (nth i l d) = false
  | None => forall x, In x l -> f x = false
  end.
Proof.
  induction l as [|x l IH]; simpl; [tauto|].
  destruct (f x) eqn:E.
  - split; [lia|]. split; [exact E|]. intros i Hi. lia.
  - destruct (index_where f l) as [j|]; simpl.
    + destruct IH as [H1 [H2 H3]]. split; [lia|]. split; [exact H2|].
      intros [|i] Hi; [exact E|]. apply H3. lia.
    + intros y [<-|Hy]; [exact E | now apply IH].
Qed.

Lemma after_last_spec {A : Type} (f : A -> bool) (l : list A) (d : A) :
  let index :=
    snd (fold_left (fun acc x => (S (fst acc), if f x then S (fst acc) else snd acc))
           l (0, 0)%nat) in
  (index <= List.length l)%nat /\
  (forall x, In x (skipn index l) -> f x = false) /\
  (0 < index -> f (nth (index - 1) l d) = true)%nat.
Proof.
  cbv zeta. rewrite after_last_fold. cbn [snd].
  pose proof (index_where_spec f (rev l) d) as H.
  destruct (index_where f (rev l)) as [j|].
  - destruct H as [H1 [H2 H3]]. rewrite length_rev in H1.
    cbn [Nat.add]. split; [lia|]. split.
    + intros x Hs. apply In_nth with (d := d) in Hs as [i [Hi <-]].
      rewrite length_skipn in Hi. rewrite nth_skipn.
      specialize (H3 (List.length l - S (List.length l - j + i))%nat ltac:(lia)).
      rewrite rev_nth in H3 by lia.
      replace (List.length l - S (List.length l - S (List.length l - j + i)))%nat
        with (List.length l - j + i)%nat in H3 by lia.
      exact H3.
    + intros _. rewrite rev_nth in H2 by lia.
      replace (List.length l - j - 1)%nat with (List.length l - S j)%nat by lia.
      exact H2.
  - split; [lia|]. split; [|lia].
    intros x Hs. apply H. apply in_rev. rewrite rev_involutive. exact Hs.
Qed.

(** X14: the index at which the structural transformer inserts the import
    of the translation module is within the list of the imports: it is right
    after the last import of a module whose name contains react or starts
    with @/ or ./, and 0 when there is none. *)
Theorem importInsertIndex_after_last_anchor (specifiers : list string) :
  let index := importInsertIndex specifiers in
  (index <= List.length specifiers)%nat /\
  (forall spec, In spec (skipn index specifiers) -> anchors spec = false) /\
  (0 < index -> anchors (nth (index - 1) specifiers EmptyString) = true)%nat.
Proof. exact (after_last_spec anchors specifiers EmptyString). Qed.

Lemma importInsertIndex_after_last_anchor_witness :
  (0 < importInsertIndex ["react"; "./App.css"; "lodash"])%nat /\
  anchors (nth (importInsertIndex ["react"; "./App.css"; "lodash"] - 1)
             ["react"; "./App.css"; "lodash"] EmptyString) = true.
Proof.
  split; [vm_compute; lia|].
  apply (importInsertIndex_after_last_anchor ["react"; "./App.css"; "lodash"]).
  vm_compute. lia.
Defined.


Lemma split_char_no_sep (sep : ascii) (s w : string) :
  In w (Js.split_char sep s) -> ~ In sep (chars w).
Proof.
  revert w. induction s as [|c s IH]; intros w; simpl.
  - intros [<-|[]] [].
  - destruct (Ascii.eqb_spec c sep) as [->|Hc].
    + intros [<-|H]; [intros [] | now apply IH].
    + destruct (Js.split_char sep s) as [|x l].
      * intros [<-|[]] [H|[]]. congruence.
      * intros [<-|H].
        -- intros [H|H]; [congruence|]. apply (IH x); [now left | exact H].
        -- apply IH. now right.
Qed.

Lemma split_char_plain (sep : ascii) (x : string) :
  ~ In sep (chars x) -> Js.split_char sep x = [x].
Proof.
  induction x as [|c x IH]; intros H; simpl; [reflexivity|].
  destruct (Ascii.eqb_spec c sep) as [->|Hc]; [exfalso; apply H; now left|].
  rewrite IH; [reflexivity|]. intros Hx. apply H. now right.
Qed.

Lemma split_char_append (sep : ascii) (x rest : string) :
  ~ In sep (chars x) ->
  Js.split_char sep (x +:+ Js.str sep +:+ rest) = x :: Js.split_char sep rest.
Proof.
  induction x as [|c x IH]; intros H.
  - change (EmptyString +:+ Js.str sep +:+ rest) with (String sep rest).
    cbn [Js.split_char]. now rewrite Ascii.eqb_refl.
  - rewrite str_append_cons. cbn [Js.split_char].
    destruct (Ascii.eqb_spec c sep) as [->|Hc]; [exfalso; apply H; now left|].
    rewrite IH; [reflexivity|]. intros Hx. apply H. now right.
Qed.

(** Splitting what was joined gives the pieces back. *)
Lemma split_join (sep : ascii) (l : list string) :
  l <> [] ->
  (forall w, In w l -> ~ In sep (chars w)) ->
  Js.split_char sep (Js.join (Js.str sep) l) = l.
Proof.
  induction l as [|x l IH]; intros Hne H; [congruence|].
  destruct l as [|y l].
  - cbn [Js.join]. apply split_char_plain. apply H. now left.
  - change (Js.join (Js.str sep) (x :: y :: l))
      with (x +:+ Js.str sep +:+ Js.join (Js.str sep) (y :: l)).
    rewrite split_char_append by (apply H; now left).
    rewrite IH; [reflexivity | discriminate|].
    intros w Hw. apply H. now right.
Qed.

(** X15: the pattern-based transformer inserts one line and keeps every
    other line in place: the lines of the new content are the lines of the
    old content with the import statement at the index after the last import
    line (0 when there is none). *)
Theorem addTranslationImport_inserts_one_line (config : I18nConfig) (content : string) :
  ~ In Js.newline (chars (hookModule config)) ->
  let lines := Js.split_char Js.newline content in
  let index := JavaScriptTransformer.afterImports lines in
  (index <= List.length lines)%nat /\
  Js.split_char Js.newline (JavaScriptTransformer.addTranslationImport config content)
  = (firstn index lines
     ++ ("import { useTranslation } from '" +:+ hookModule config +:+ "';")
     :: skipn index lines)%list /\
  (forall line, In line (skipn index lines) ->
                JavaScriptTransformer.isImportLine line = false) /\
  (0 < index ->
   JavaScriptTransformer.isImportLine (nth (index - 1) lines EmptyString) = true)%nat.
Proof.
  intros Hm. cbv zeta.
  pose proof (after_last_spec JavaScriptTransformer.isImportLine
                (Js.split_char Js.newline content) EmptyString) as [H1 [H2 H3]].
  split; [exact H1|]. split; [|split; [exact H2 | exact H3]].
  unfold JavaScriptTransformer.addTranslationImport, JavaScriptTransformer.splice.
  cbv zeta. apply split_join.
  - intros E. apply app_eq_nil in E as [_ E]. discriminate.
  - intros w Hw. apply in_app_or in Hw as [Hw|[<-|Hw]].
    + apply In_firstn in Hw. now apply split_char_no_sep in Hw.
    + intros Hc. apply chars_append in Hc as [Hc|Hc].
      * vm_compute in Hc. intuition discriminate.
      * apply chars_append in Hc as [Hc|Hc]; [now apply Hm|].
        vm_compute in Hc. intuition discriminate.
    + apply (split_char_no_sep Js.newline content).
      rewrite <- (firstn_skipn (JavaScriptTransformer.afterImports
                                  (Js.split_char Js.newline content))
                    (Js.split_char Js.newline content)).
      apply in_or_app. now right.
Qed.

Lemma addTranslationImport_inserts_one_line_witness :
  Js.split_char Js.newline
    (JavaScriptTransformer.addTranslationImport defaultConfig
       (Js.join (Js.str Js.newline) ["import React from 'react';"; "export default App;"]))
  = ["import React from 'react';"; "import { useTranslation } from 'react-i18next';";
     "export default App;"].
Proof.
  apply (addTranslationImport_inserts_one_line defaultConfig
           (Js.join (Js.str Js.newline) ["import React from 'react';"; "export default App;"])).
  vm_compute. intuition discriminate.
Defined.

End ImportFacts.

(** ** The runs of the pattern-based transformer *)

Section PatternRun.
Import Exn JavaScriptTransformer.
Context {W : Type} (host : Host W) (config : I18nConfig).

Lemma transformFile_try_counts_js (filePath : string) :
  counts (transformFile_try host config filePath).
Proof. unfold transformFile_try. repeat counts_step. Qed.

Lemma transformFile_catches_js (filePath : string) (s : This W) :
  transformFile host config filePath s
  = match transformFile_try host config filePath s with
    | (Return _, s') => (Return tt, s')
    | (Throw e, s') => (Return tt, set_stats (push_error (failure filePath e)) s')
    end.
Proof.
  unfold transformFile, try_catch.
  destruct (transformFile_try host config filePath s) as [[[]|e] s']; reflexivity.
Qed.

Lemma transformFile_accounts_js (filePath : string) (s : This W) :
  exists s',
    transformFile host config filePath s = (Return tt, s') /\
    (filesProcessed (this_stats s') + List.length (errors (this_stats s'))
     = S (filesProcessed (this_stats s) + List.length (errors (this_stats s))))%nat /\
    (forall e, In e (errors (this_stats s)) -> In e (errors (this_stats s'))).
Proof.
  rewrite transformFile_catches_js.
  pose proof (transformFile_try_counts_js filePath s) as H.
  destruct (transformFile_try host config filePath s) as [[[]|e] s']; unfold tally in H.
  - exists s'. split; [reflexivity|]. injection H as -> ->. simpl. split; [lia | auto].
  - eexists. split; [reflexivity|]. injection H as H1 H2.
    simpl. rewrite H1, H2, length_app. simpl. split; [lia|].
    intros x Hx. apply in_or_app. now left.
Qed.

(** X16: the pattern-based transformer isolates the errors of a file: the
    loop over the files never throws; after it every file is either counted
    as processed or recorded as an error, and the errors recorded before the
    loop are still there. *)
Theorem pattern_run_accounts_for_every_file (files : list string) (s : This W) :
  exists s',
    forEach files (transformFile host config) s = (Return tt, s') /\
    (filesProcessed (this_stats s') + List.length (errors (this_stats s'))
     = filesProcessed (this_stats s) + List.length (errors (this_stats s))
       + List.length files)%nat /\
    (forall e, In e (errors (this_stats s)) -> In e (errors (this_stats s'))).
Proof.
  revert s. induction files as [|f files IH]; intros s; simpl.
  - exists s. split; [reflexivity|]. split; [lia | auto].
  - destruct (transformFile_accounts_js f s) as [s1 [E1 [H1 K1]]].
    destruct (IH s1) as [s2 [E2 [H2 K2]]].
    exists s2. split; [|split; [lia | auto]].
    now rewrite (bind_return _ _ _ _ _ E1).
Qed.

End PatternRun.

(** ** What a run returns *)

Section RunResults.
Import Exn.
Context {W : Type} (host : Host W) (tsm : I18nTransformer.TsMorph W) (config : I18nConfig).

Lemma keeps_try_catch {A : Type} (m : M (This W) A) (handler : string -> M (This W) A) :
  keeps m -> (forall e, keeps (handler e)) -> keeps (try_catch m handler).
Proof.
  intros Hm Hh s. unfold try_catch. specialize (Hm s).
  destruct (m s) as [[a|e] s1]; simpl in *; [exact Hm|].
  rewrite <- Hm. apply Hh.
Qed.

Lemma keeps_forEach {A : Type} (l : list A) (f : A -> M (This W) unit) :
  (forall x, keeps (f x)) -> keeps (forEach l f).
Proof.
  intros Hf. induction l as [|x l IH]; cbn [forEach]; [apply keeps_ret|].
  apply keeps_bind; [apply Hf | intros _; exact IH].
Qed.

Ltac keeps_more :=
  first [ apply keeps_try_catch; [|intros ?]
        | apply keeps_forEach; intros ?
        | keeps_step ].

Lemma loadExistingTranslations_keeps :
  keeps (I18nTransformer.loadExistingTranslations host config).
Proof. unfold I18nTransformer.loadExistingTranslations. repeat keeps_more. Qed.

Lemma loadExistingTranslations_js_keeps :
  keeps (JavaScriptTransformer.loadExistingTranslations host config).
Proof. unfold JavaScriptTransformer.loadExistingTranslations. repeat keeps_more. Qed.

Lemma generateTranslationFiles_keeps :
  keeps (I18nTransformer.generateTranslationFiles host config).
Proof. unfold I18nTransformer.generateTranslationFiles. repeat keeps_more. Qed.

Lemma generateTranslationFiles_js_keeps :
  keeps (JavaScriptTransformer.generateTranslationFiles host config).
Proof. unfold JavaScriptTransformer.generateTranslationFiles. repeat keeps_more. Qed.

Lemma generateTypeDefinitions_keeps :
  keeps (I18nTransformer.generateTypeDefinitions host config).
Proof. unfold I18nTransformer.generateTypeDefinitions. repeat keeps_more. Qed.

Lemma loop_accounts_js (files : list string) (s : This W) :
  exists s',
    forEach files (JavaScriptTransformer.transformFile host config) s = (Return tt, s') /\
    (filesProcessed (this_stats s') + List.length (errors (this_stats s'))
     = filesProcessed (this_stats s) + List.length (errors (this_stats s))
       + List.length files)%nat.
Proof.
  revert s. induction files as [|f files IH]; intros s; simpl.
  - exists s. split; [reflexivity | lia].
  - destruct (transformFile_accounts_js host config f s) as [s1 [E1 [H1 _]]].
    destruct (IH s1) as [s2 [E2 H2]].
    exists s2. split; [|lia].
    now rewrite (bind_return _ _ _ _ _ E1).
Qed.

(** The accounts of a state: the files processed and the errors recorded. *)
Lemma accounts_tally (s1 s2 : This W) :
  tally s1 = tally s2 ->
  (filesProcessed (this_stats s1) + List.length (errors (this_stats s1))
   = filesProcessed (this_stats s2) + List.length (errors (this_stats s2)))%nat.
Proof. unfold tally. now intros [= -> ->]. Qed.

Lemma transform_files_accounts (s s1 : This W) (found : list string * option string) :
  I18nTransformer.transform_files host tsm config s = (Return found, s1) ->
  (filesProcessed (this_stats s1) + List.length (errors (this_stats s1))
   = filesProcessed (this_stats s) + List.length (errors (this_stats s))
     + List.length (fst found))%nat.
Proof.
  unfold I18nTransformer.transform_files. unfold bind at 1.
  pose proof (loadExistingTranslations_keeps s) as L.
  destruct (I18nTransformer.loadExistingTranslations host config s) as [[[]|e] s0];
    [|discriminate].
  cbn [snd] in L. apply accounts_tally in L. unfold bind at 1.
  assert (B : keeps (if Config.createBackup (advanced config)
                     then let* p := writing (host_createBackup host config) in ret (Some p)
                     else ret None)) by repeat keeps_more.
  specialize (B s0).
  match goal with
  | |- match ?m with _ => _ end = _ -> _ =>
      destruct m as [[backupPath|e] sb]; [|discriminate]
  end.
  cbn [snd] in B. apply accounts_tally in B.
  unfold bind at 1. unfold reading at 1.
  destruct (host_findFiles host config (world sb)) as [files|e]; [|discriminate].
  unfold bind at 1.
  destruct (loop_accounts tsm config files sb) as [sl [El Hl]]. rewrite El.
  unfold ret. intros [= <- <-]. cbn [fst]. lia.
Qed.

Lemma transform_files_js_accounts (s s1 : This W) (found : list string * option string) :
  JavaScriptTransformer.transform_files host config s = (Return found, s1) ->
  (filesProcessed (this_stats s1) + List.length (errors (this_stats s1))
   = filesProcessed (this_stats s) + List.length (errors (this_stats s))
     + List.length (fst found))%nat.
Proof.
  unfold JavaScriptTransformer.transform_files. unfold bind at 1.
  pose proof (loadExistingTranslations_js_keeps s) as L.
  destruct (JavaScriptTransformer.loadExistingTranslations host config s) as [[[]|e] s0];
    [|discriminate].
  cbn [snd] in L. apply accounts_tally in L. unfold bind at 1.
  assert (B : keeps (if Config.createBackup (advanced config)
                     then let* p := writing (host_createBackup host config) in ret (Some p)
                     else ret None)) by repeat keeps_more.
  specialize (B s0).
  match goal with
  | |- match ?m with _ => _ end = _ -> _ =>
      destruct m as [[backupPath|e] sb]; [|discriminate]
  end.
  cbn [snd] in B. apply accounts_tally in B.
  unfold bind at 1. unfold reading at 1.
  destruct (host_findFiles host config (world sb)) as [files|e]; [|discriminate].
  unfold bind at 1.
  destruct (loop_accounts_js files sb) as [sl [El Hl]]. rewrite El.
  unfold ret. intros [= <- <-]. cbn [fst]. lia.
Qed.

(** X17: [transform] never throws, for either transformer: it returns a
    result that carries the statistics and the registry of the transformer.
    When the result says success false it lists no modified file and no
    backup, and the last error of its statistics is the failure of the run;
    when it says success true, every file it lists has been counted as
    processed or has had its error recorded. *)
Theorem transform_always_returns (s : This W) :
  (exists result s',
      I18nTransformer.transform host tsm config s = (Return result, s') /\
      reported s result s') /\
  (exists result s',
      JavaScriptTransformer.transform host config s = (Return result, s') /\
      reported s result s').
Proof.
  split.
  - unfold I18nTransformer.transform, try_catch.
    destruct (I18nTransformer.transform_try host tsm config s) as [[result|e] s'] eqn:E.
    + exists result, s'. split; [reflexivity|].
      revert E. unfold I18nTransformer.transform_try. unfold bind at 1.
      destruct (I18nTransformer.transform_files host tsm config s) as [[found|e] s1] eqn:F;
        [|discriminate].
      apply transform_files_accounts in F.
      unfold bind at 1.
      pose proof (generateTranslationFiles_keeps s1) as G.
      destruct (I18nTransformer.generateTranslationFiles host config s1) as [[[]|e] s2];
        [|discriminate].
      cbn [snd] in G. apply accounts_tally in G.
      unfold bind at 1.
      assert (T : keeps (when (Config.generateTypeDefinitions (advanced config))
                           (I18nTransformer.generateTypeDefinitions host config))).
      { apply keeps_when, generateTypeDefinitions_keeps. }
      specialize (T s2).
      destruct (when _ _ s2) as [[[]|e] s3]; [|discriminate].
      cbn [snd] in T. apply accounts_tally in T.
      unfold bind, get, ret. intros [= <- <-]. unfold reported.
      cbn [stats res_translationKeys success modifiedFiles].
      split; [reflexivity|]. split; [reflexivity|]. split; [discriminate|].
      intros _. lia.
    + eexists _, _. split; [reflexivity|]. unfold reported. cbn.
      split; [reflexivity|]. split; [reflexivity|]. split; [|discriminate].
      intros _. split; [reflexivity|]. split; [reflexivity|]. eauto.
  - unfold JavaScriptTransformer.transform, try_catch.
    destruct (JavaScriptTransformer.transform_try host config s) as [[result|e] s'] eqn:E.
    + exists result, s'. split; [reflexivity|].
      revert E. unfold JavaScriptTransformer.transform_try. unfold bind at 1.
      destruct (JavaScriptTransformer.transform_files host config s) as [[found|e] s1] eqn:F;
        [|discriminate].
      apply transform_files_js_accounts in F.
      unfold bind at 1.
      pose proof (generateTranslationFiles_js_keeps s1) as G.
      destruct (JavaScriptTransformer.generateTranslationFiles host config s1)
        as [[[]|e] s2]; [|discriminate].
      cbn [snd] in G. apply accounts_tally in G.
      unfold bind, get, ret. intros [= <- <-]. unfold reported.
      cbn [stats res_translationKeys success modifiedFiles].
      split; [reflexivity|]. split; [reflexivity|]. split; [discriminate|].
      intros _. lia.
    + eexists _, _. split; [reflexivity|]. unfold reported. cbn.
      split; [reflexivity|]. split; [reflexivity|]. split; [|discriminate].
      intros _. split; [reflexivity|]. split; [reflexivity|]. eauto.
Qed.

End RunResults.

(** ** The general facts at work *)

Section Instances.
Import Exn.

Lemma unchanged_file_is_not_saved_witness :
  I18nTransformer.hasExtractableText defaultConfig constantsText = false /\
  world (snd (I18nTransformer.transformFile Demo.tsMorph defaultConfig "src/constants.tsx"
                (Demo.start constantsProject)))
  = constantsProject.
Proof.
  split; [vm_compute; reflexivity|].
  apply (unchanged_file_is_not_saved Demo.tsMorph defaultConfig "src/constants.tsx"
           (Demo.start constantsProject) constantsFile).
  - reflexivity.
  - reflexivity.
  - intros keys. rewrite extractTexts_nothing; [reflexivity | vm_compute; reflexivity].
  - intros keys. rewrite transformJSXElements_nothing; [reflexivity | vm_compute; reflexivity].
  - vm_compute. reflexivity.
Defined.

Lemma unchanged_file_is_not_saved_js_witness :
  I18nTransformer.hasExtractableText defaultConfig "export const answer = 42;" = false /\
  world (snd (JavaScriptTransformer.transformFile Demo.host defaultConfig "src/constants.jsx"
                (Demo.start Demo.constantsOnly)))
  = Demo.constantsOnly.
Proof.
  split; [vm_compute; reflexivity|].
  apply (unchanged_file_is_not_saved_js Demo.host defaultConfig "src/constants.jsx"
           (Demo.start Demo.constantsOnly) "export const answer = 42;").
  - reflexivity.
  - vm_compute. reflexivity.
  - intros keys. rewrite transformJSXElements_js_nothing;
      [reflexivity | vm_compute; reflexivity | vm_compute; reflexivity].
  - vm_compute. reflexivity.
Defined.

Lemma reported_files_are_the_files_found_witness :
  let run :=
    I18nTransformer.transform Demo.host Demo.tsMorph defaultConfig
      (Demo.start constantsProject) in
  match fst run with
  | Return result =>
      success result = true /\
      host_findFiles Demo.host defaultConfig
        (worldOfSearch Demo.host defaultConfig constantsProject)
      = Return (modifiedFiles result)
  | Throw _ => False
  end.
Proof.
  intros run.
  pose (result := match fst run with
                  | Return r => r
                  | Throw _ => mkResult false resetStats [] [] None
                  end).
  assert (E : I18nTransformer.transform Demo.host Demo.tsMorph defaultConfig
                (Demo.start constantsProject) = (Return result, snd run))
    by (vm_compute; reflexivity).
  assert (S : success result = true) by (vm_compute; reflexivity).
  pose proof (reported_files_are_the_files_found Demo.host Demo.tsMorph defaultConfig
                (Demo.start constantsProject) (snd run) result E S) as H.
  replace (fst run) with (Return (A:=TransformationResult) result)
    by (vm_compute; reflexivity).
  split; [exact S | exact H].
Defined.

(** X27: a catalog file that holds [null]. When it is the es catalog and
    the run has a key to add, the run ends there: the source file and the
    source catalog are written, the es catalog still holds [null], the
    catalog of the next language is not written, and [transform] returns
    success false with one error and no modified file. When it is the source
    catalog, the run records one warning, registers nothing from it, and
    succeeds. *)
Theorem null_catalog_files :
  let target :=
    I18nTransformer.transform Demo.host Demo.tsMorph defaultConfig (Demo.start nullTarget) in
  let source :=
    I18nTransformer.transform Demo.host Demo.tsMorph defaultConfig (Demo.start nullSource) in
  let catalog := fun run lang =>
    Demo.lookup (catalogFile defaultConfig lang) (Demo.catalogs (world (snd run))) in
  targetLanguages defaultConfig = ["es"; "fr"; "de"; "pt"] /\
  match fst target with
  | Return result =>
      success result = false /\
      modifiedFiles result = [] /\
      (exists e, errors (stats result) = ["Transformation failed: " +:+ e]) /\
      Demo.written (world (snd target)) = ["src/Title.tsx"] /\
      catalog target "en" = Some (JObject [("Welcome", "Welcome")]) /\
      catalog target "es" = Some JNull /\
      catalog target "fr" = None
  | Throw _ => False
  end /\
  match fst source with
  | Return result =>
      success result = true /\
      res_translationKeys result = [("Welcome", "Welcome")] /\
      (exists e, warnings (stats result)
                 = ["Could not load existing translations: " +:+ e]) /\
      catalog source "en" = Some (JObject [("Welcome", "Welcome")])
  | Throw _ => False
  end.
Proof.
  vm_compute. conjuncts; try reflexivity; eexists; reflexivity.
Qed.

Lemma structural_order_witness :
  I18nTransformer.getFunctions Demo.helperAndClassFile <> [] /\
  ci_type (I18nTransformer.analyzeComponent defaultConfig Demo.helperAndClassFile)
  = function.
Proof.
  split; [discriminate|].
  apply (proj1 (structural_order defaultConfig Demo.helperAndClassFile)).
  discriminate.
Defined.

End Instances.

(** ** Code fragments *)

Section CodeFragments.
Import Re TextValidator.

(** A match that can go on with [k] can go on with any [k'] that accepts
    what [k] accepts. *)
Lemma run_mono (r : regex) :
  forall (R R' : Type) (k : pos -> option R) (k' : pos -> option R') (p : pos),
    (forall q, k q <> None -> k' q <> None) ->
    run r p k <> None -> run r p k' <> None.
Proof.
  induction r as [|f|a IHa b IHb|a IHa b IHb|a IHa| | | | |n a IHa];
    intros R R' k k' p Hk; cbn [run].
  - apply Hk.
  - destruct (rest p) as [|c s]; [(intros Habs; now destruct Habs)|].
    destruct (f c); [apply Hk | (intros Habs; now destruct Habs)].
  - apply IHa. intros q. apply IHb. exact Hk.
  - intros H. destruct (run a p k) as [x|] eqn:E.
    + assert (G : run a p k' <> None) by (apply (IHa _ _ k k' p Hk); congruence).
      destruct (run a p k'); [discriminate | congruence].
    + specialize (IHb _ _ k k' p Hk H).
      destruct (run a p k'); [discriminate | exact IHb].
  - generalize (S (String.length (rest p))) as fuel. intros fuel. revert p.
    induction fuel as [|fuel IHf]; intros p; cbn [star_loop]; [apply Hk|].
    intros H.
    match type of H with
    | match ?m with _ => _ end <> _ => destruct m as [x|] eqn:E
    end.
    + match goal with
      | |- match ?m with _ => _ end <> _ =>
          assert (G : m <> None); [|destruct m; [discriminate | congruence]]
      end.
      eapply IHa; [|rewrite E; discriminate].
      intros q. cbv beta.
      destruct (String.length (rest q) <? String.length (rest p))%nat;
        [apply IHf | (intros Habs; now destruct Habs)].
    + match goal with
      | |- match ?m with _ => _ end <> _ => destruct m; [discriminate | now apply Hk]
      end.
  - destruct (before p); [(intros Habs; now destruct Habs) | apply Hk].
  - destruct (rest p); [apply Hk | (intros Habs; now destruct Habs)].
  - destruct (rest p) as [|c s]; [apply Hk|].
    destruct (Js.dot c); [(intros Habs; now destruct Habs) | apply Hk].
  - destruct (xorb _ _); [apply Hk | (intros Habs; now destruct Habs)].
  - apply IHa. intros q. apply Hk.
Qed.

Lemma run_Alt (a b : regex) (p : pos) :
  run (Alt a b) p Some <> None <-> run a p Some <> None \/ run b p Some <> None.
Proof.
  cbn [run]. destruct (run a p Some) as [x|]; split.
  - left. discriminate.
  - discriminate.
  - now right.
  - intros [H|H]; [congruence | exact H].
Qed.

Lemma run_Seq_mono (a b b' : regex) (p : pos) :
  (forall q, run b q Some <> None -> run b' q Some <> None) ->
  run (Seq a b) p Some <> None -> run (Seq a b') p Some <> None.
Proof. intros H. cbn [run]. now apply run_mono. Qed.

Lemma run_Seq_prefix (a b : regex) (p : pos) :
  run (Seq a b) p Some <> None -> run a p Some <> None.
Proof. cbn [run]. apply run_mono. discriminate. Qed.

Lemma found_mono (r r' : regex) :
  (forall b s, match_at r b s <> None -> match_at r' b s <> None) ->
  forall s b, found_from r b s = true -> found_from r' b s = true.
Proof.
  intros H. induction s as [|c s IH]; intros b; cbn [found_from].
  - specialize (H b EmptyString).
    destruct (match_at r b EmptyString); [|discriminate].
    destruct (match_at r' b EmptyString); [reflexivity|].
    exfalso. now apply H.
  - specialize (H b (String c s)).
    destruct (match_at r b (String c s)).
    + destruct (match_at r' b (String c s)); [reflexivity|].
      exfalso. now apply H.
    + destruct (match_at r' b (String c s)); [reflexivity | apply IH].
Qed.

Lemma test_mono (r r' : regex) (s : string) :
  (forall b s, match_at r b s <> None -> match_at r' b s <> None) ->
  test r s = true -> test r' s = true.
Proof. rewrite !test_found. intros H. now apply found_mono. Qed.

(** X18: the three rules that refuse a text for a template literal, a
    conditional expression or a JSX expression agree with [isCodeFragment]:
    a text that one of them matches is a code fragment. *)
Theorem refused_fragments_are_code (rule : ValidationRule) (text : string) :
  In rule validationRules ->
  In (name rule) ["template-literal"; "conditional-expression"; "jsx-expression"] ->
  test (pattern rule) text = true ->
  isCodeFragment text = true.
Proof.
  intros Hr Hn Ht. unfold isCodeFragment. apply existsb_exists.
  unfold validationRules, ConfigManager.getDefaultValidationRules in Hr.
  cbn [In] in Hr.
  destruct Hr as [<-|[<-|[<-|[<-|[<-|[<-|[<-|[<-|[]]]]]]]]]; cbn [name pattern] in *;
    try (exfalso; destruct Hn as [Hn|[Hn|[Hn|[]]]]; discriminate Hn); clear Hn.
  - eexists. split; [left; reflexivity|].
    revert Ht. apply test_mono. intros b s. unfold match_at.
    rewrite !run_Alt. intros [H|H]; left; [exact H|].
    revert H. apply run_Seq_mono. intros q1.
    apply run_Seq_mono. intros q2. apply run_Seq_mono. intros q3.
    apply run_Seq_prefix.
  - eexists. split; [right; left; reflexivity|].
    revert Ht. apply test_mono. intros b s. unfold match_at.
    cbn [Alts]. rewrite !run_Alt. tauto.
  - assert (G : test (Alts [Lit "{"; Lit "}"]) text = true
                \/ test (Alts [Lit "<"; Lit ">"]) text = true).
    { rewrite test_jsx_expression in Ht. apply existsb_exists in Ht as [c [Hc Hf]].
      assert (C : Js.any_of "{}" c = true \/ Js.any_of "<>" c = true).
      { revert Hf. unfold Js.any_of. cbn [list_ascii_of_string existsb].
        destruct (Js.is_char c "{"), (Js.is_char c "}"), (Js.is_char c "<"),
          (Js.is_char c ">"); cbn; auto. }
      rewrite !test_found.
      rewrite (found_class _ (Js.any_of "{}")), (found_class _ (Js.any_of "<>")).
      - destruct C as [C|C]; [left | right]; apply existsb_exists; eauto.
      - intros b c' t. unfold match_at. cbn [Alts Lit run rest groups].
        unfold Js.any_of, Js.is_char. cbn [list_ascii_of_string existsb].
        rewrite !(Ascii.eqb_sym c').
        destruct (Ascii.eqb "<" c'), (Ascii.eqb ">" c'); cbn; split; congruence.
      - reflexivity.
      - intros b c' t. unfold match_at. cbn [Alts Lit run rest groups].
        unfold Js.any_of, Js.is_char. cbn [list_ascii_of_string existsb].
        rewrite !(Ascii.eqb_sym c').
        destruct (Ascii.eqb "{" c'), (Ascii.eqb "}" c'); cbn; split; congruence.
      - reflexivity. }
    destruct G as [G|G].
    + eexists. split; [do 6 right; left; reflexivity|].
      revert G. apply test_mono. intros b s. unfold match_at.
      cbn [Alts map]. rewrite !run_Alt. tauto.
    + eexists. split; [do 7 right; left; reflexivity | exact G].
Qed.

Lemma refused_fragments_are_code_witness :
  classify defaultConfig "Hello {name}" = Some "rule-jsx-expression" /\
  isCodeFragment "Hello {name}" = true.
Proof.
  split; [vm_compute; reflexivity|].
  apply (refused_fragments_are_code
           (mkRule "jsx-expression" (Alts [Lit "{"; Lit "}"; Lit "<"; Lit ">"])
              "JSX expressions or HTML tags" error)).
  - right. right. left. reflexivity.
  - right. right. left. reflexivity.
  - vm_compute. reflexivity.
Defined.

End CodeFragments.

(** ** The check of a configuration *)

Section ConfigFacts.
Import Re ConfigManager.

(** A pattern that starts with ^ matches at the start of the text only. *)
Lemma found_Bol (r : regex) (s : string) :
  forall c, found_from (Seq Bol r) (Some c) s = false.
Proof.
  induction s as [|d s IH]; intros c; cbn [found_from]; unfold match_at; cbn [run before];
    [reflexivity | apply IH].
Qed.

Lemma test_Bol (r : regex) (s : string) :
  test (Seq Bol r) s
  = match match_at (Seq Bol r) None s with Some _ => true | None => false end.
Proof.
  rewrite test_found. destruct s as [|c s]; cbn [found_from].
  - now destruct (match_at (Seq Bol r) None EmptyString).
  - destruct (match_at (Seq Bol r) None (String c s)); [reflexivity | apply found_Bol].
Qed.

Lemma validLanguagePattern_shape (s : string) :
  test validLanguagePattern s = language_code s.
Proof.
  unfold validLanguagePattern. rewrite test_Bol. unfold match_at, language_code.
  destruct s as [|a [|b [|c [|d [|e [|f s]]]]]];
    cbn [chars list_ascii_of_string run Times Opt Lit before rest groups];
    repeat match goal with
           | |- context [Js.lower_az ?x] =>
               destruct (Js.lower_az x); cbn [run before rest groups andb]
           | |- context [Js.upper_AZ ?x] =>
               destruct (Js.upper_AZ x); cbn [run before rest groups andb]
           | |- context [Js.is_char ?y ?x] =>
               destruct (Js.is_char y x); cbn [run before rest groups andb]
           end; reflexivity.
Qed.

(** X19: [validateConfig] accepts a configuration exactly when the source
    directory is named and exists, the output directory is named, there is
    at least one target language, and the source language and every target
    language is a language code: two letters a-z, possibly followed by a
    hyphen and two letters A-Z. *)
Theorem validateConfig_accepts (existsSync : string -> bool) (srcDir : string)
    (config : I18nConfig) :
  fst (validateConfig existsSync srcDir config) = true <->
  (srcDir <> EmptyString /\ existsSync srcDir = true /\
   outputDir config <> EmptyString /\
   targetLanguages config <> [] /\
   language_code (sourceLanguage config) = true /\
   forall lang, In lang (targetLanguages config) -> language_code lang = true).
Proof.
  unfold validateConfig. cbv zeta. cbn [fst].
  rewrite validLanguagePattern_shape.
  assert (F : forall l,
             List.flat_map
               (fun lang => if negb (test validLanguagePattern lang)
                            then ["Invalid target language code: " +:+ lang] else []) l
             = [] <-> forall lang, In lang l -> language_code lang = true).
  { induction l as [|x l IH]; cbn [List.flat_map].
    - split; [intros _ lang [] | reflexivity].
    - rewrite validLanguagePattern_shape.
      destruct (language_code x) eqn:E; cbn [negb app].
      + rewrite IH. split.
        * intros H lang [<-|Hl]; [exact E | now apply H].
        * intros H lang Hl. apply H. now right.
      + split; [discriminate|]. intros H. specialize (H x (or_introl eq_refl)). congruence. }
  destruct srcDir as [|c0 s0]; cbn [isEmpty negb andb app].
  { split; [discriminate | intros [H _]; congruence]. }
  destruct (outputDir config) as [|c1 s1]; cbn [isEmpty negb andb app].
  { split; [discriminate | intros [_ [_ [H _]]]; congruence]. }
  destruct (sourceLanguage config) as [|c2 s2] eqn:Es; cbn [isEmpty negb andb app].
  { split; [discriminate | intros [_ [_ [_ [_ [H _]]]]]; discriminate]. }
  destruct (targetLanguages config) as [|l ls] eqn:Et; cbn [app].
  { split; [discriminate | intros [_ [_ [_ [H _]]]]; congruence]. }
  destruct (existsSync (String c0 s0)); cbn [negb app].
  2: { split; [discriminate | intros [_ [H _]]; discriminate]. }
  destruct (language_code (String c2 s2)); cbn [negb app].
  2: { split; [discriminate | intros [_ [_ [_ [_ [H _]]]]]; discriminate]. }
  specialize (F (l :: ls)).
  destruct (List.flat_map _ (l :: ls)) as [|x xs].
  - split; [|reflexivity]. intros _.
    split; [discriminate|]. split; [reflexivity|]. split; [discriminate|].
    split; [discriminate|]. split; [reflexivity|]. now apply F.
  - split; [discriminate|]. intros [_ [_ [_ [_ [_ H]]]]].
    apply F in H. discriminate.
Qed.

End ConfigFacts.

(** ** Every key reaches the catalogs *)

Section WrittenKeys.
Import I18nTransformer.




End WrittenKeys.

(** ** Where the hook goes *)

Section HookFacts.
Import Re JavaScriptTransformer.

(** [r.exec(s)] cuts the text in three: what is before the match, the match,
    and what is left. *)
Lemma exec_from_split (r : regex) (s : string) :
  forall b skipped pre m q,
    exec_from r b s skipped = Some (pre, m, q) ->
    skipped +:+ s = pre +:+ m +:+ rest q /\
    exists b' s', match_at r b' s' = Some q /\ m = consumed (mkPos b' s' []) q.
Proof.
  induction s as [|c s IH]; intros b skipped pre m q; cbn [exec_from].
  - destruct (match_at r b EmptyString) as [q'|] eqn:E; [|discriminate].
    intros [= <- <- <-]. split; [|eauto].
    now rewrite <- (match_at_split _ _ _ _ E).
  - destruct (match_at r b (String c s)) as [q'|] eqn:E.
    + intros [= <- <- <-]. split; [|eauto].
      now rewrite <- (match_at_split _ _ _ _ E).
    + intros H. apply IH in H as [H1 H2]. split; [|exact H2].
      rewrite <- H1. rewrite str_append_assoc. reflexivity.
Qed.

(** Group 1 of a pattern that is one group is the matched text. *)
Lemma match_at_Group (a : regex) (b : option ascii) (s : string) (q : pos) :
  match_at (Group 1 a) b s = Some q ->
  group 1 (groups q) = consumed (mkPos b s []) q.
Proof.
  unfold match_at. cbn [run]. intros H.
  apply run_suffix in H as [q1 [[= <-] _]]. reflexivity.
Qed.

Lemma insertHookAfter_inserts (a : regex) (content : string) :
  test (Group 1 a) content = true ->
  exists before after,
    content = before +:+ after /\
    insertHookAfter (Group 1 a) content
    = before +:+ Js.str Js.newline +:+ hookStatement +:+ Js.str Js.newline +:+ after.
Proof.
  unfold insertHookAfter, replace_first, test.
  destruct (exec (Group 1 a) content) as [[[pre m] q]|] eqn:E; [|discriminate].
  intros _. unfold exec in E.
  apply exec_from_split in E as [H1 [b' [s' [H2 ->]]]].
  rewrite (match_at_Group _ _ _ _ H2).
  exists (pre +:+ consumed (mkPos b' s' []) q), (rest q). split.
  - rewrite str_append_assoc. exact H1.
  - rewrite !str_append_assoc. reflexivity.
Qed.

(** X21: the pattern-based transformer adds the hook to a function
    component by inserting one line. When one of its three patterns (a
    function with a name, a constant bound to an arrow function, an
    export default function) is found in the content, the content is
    returned with the line of the hook, between two line breaks, inserted at
    one place and nothing else changed; when none is found, the content is
    returned as it is. *)
Theorem addFunctionComponentHook_inserts (content : string) :
  if test functionPattern content || test arrowPattern content
     || test exportPattern content
  then exists before after,
         content = before +:+ after /\
         addFunctionComponentHook content
         = before +:+ Js.str Js.newline +:+ "  const { t } = useTranslation();"
           +:+ Js.str Js.newline +:+ after
  else addFunctionComponentHook content = content.
Proof.
  unfold addFunctionComponentHook.
  destruct (test functionPattern content) eqn:F;
    [now apply insertHookAfter_inserts|].
  destruct (test arrowPattern content) eqn:A;
    [now apply insertHookAfter_inserts|].
  destruct (test exportPattern content) eqn:X;
    [now apply insertHookAfter_inserts|].
  reflexivity.
Qed.

End HookFacts.
